(* ===== verification/_CoqProject ===== *)
-Q . S2P
Prelude.v
Rust.v
Config.v
Presets.v
Schema.v
SszTypes.v
ElxTypes.v
SszSpec.v
TreeHashSpec.v
Crates.v
Reference.v
Convert.v
Helpers.v
Dispatch.v
SszNif.v
Bls.v
Kzg.v
Snappy.v
