(* ===== verification/Prelude.v ===== *)
(** * The native functions of the consensus node, verified

    The node is an Elixir application that calls four Rust crates through
    Erlang native functions (NIFs).  This library models those crates,
    [native/ssz_nif], [native/bls_nif], [native/kzg_nif] and
    [native/snappy_nif], and proves what the Elixir side relies on.

    ** The program

    [ssz_nif] is the largest.  A call names a term, a schema atom
    ([Elixir.Types.X]) and a configuration atom.  [lib.rs] strips the prefix of
    the schema, [utils/mod.rs] selects the Rust types of the schema under that
    configuration, [utils/helpers.rs] decodes the term into the Elixir type
    ([elx_types]), converts it to the SSZ type ([ssz_types]) with the traits of
    [utils/from_elx.rs] and [utils/from_ssz.rs], and serializes or hashes it.
    [ssz_types/config.rs] gives the bounds of the collections for the three
    networks; the same numbers are in [config/presets/*.yaml] for the node.
    The other three crates wrap [bls], [c_kzg] and [snap]: they check lengths,
    decode arguments, call the crate and render its errors.

    ** The files, in order

    - [Prelude]: bytes, little-endian numbers, lengths as [N], shared lemmas.
    - [Rust]: the part of the language the code uses.  [res E A] is a [Result]
      that may also panic, [let?] is the operator [?], [collect] is the
      collection of a sequence of results; [usize] arithmetic wraps at 64 bits;
      [str_get_from] is [str::get(n..)]; [bytes_to_binary] is the function of
      that name each crate has.
    - [Config], [Presets]: the trait [Config] as a record and its impls as
      values; the YAML tables and their agreement.
    - [Schema]: a universe of types for each side ([ssz_ty], [elx_ty]) with the
      values of a type ([sval], [eval]) and which of them are in range ([sok],
      [eok]).  [SszTypes] and [ElxTypes] hold the 51 structs and the aliases of
      both directories, one definition each, under the names of the code.
    - [SszSpec], [TreeHashSpec]: the SSZ codec and Merkleization over that
      universe, the abstract specifications; decoding and encoding are proved
      inverse there.
    - [Crates]: [rustler], [ssz_types], [ethereum_ssz] and [tree_hash] as classes
      of operations with classes of laws; [Reference]: instances of them.
    - [Convert]: the two traits.  [Conv s e] is what trait resolution derives
      for a pair of types, one constructor per impl; [from_elx] and [from_ssz]
      recurse on it.
    - [Helpers], [Dispatch], [SszNif]: [utils/helpers.rs], the macros of
      [utils/mod.rs] and the six functions of [lib.rs].
    - [Bls], [Kzg], [Snappy]: one file per crate, with the class of the crate it
      wraps, its laws, and an instance.

    ** What is proved

    - Round trips: encoding then decoding, and decoding then encoding, through
      the whole SSZ NIF, for every schema and configuration, values and lists
      (C1 to C3, C19); the conversions in both directions (C4, C5).
    - Types and errors: conversions return only well-formed values, fail exactly
      on those that do not fit, with the error of the first bad field, and never
      panic (C6 to C9, C21).
    - Hashing: the hand-written hash of a list with a limit given at run time is
      the SSZ root of the list or vector type of that limit, and panics exactly
      when the leaves do not fit the padded tree (C10 to C12, C20, C23).
    - Dispatch: the table of schemas is consistent, the functions answer
      [badarg] to exactly the names outside it, the prefix is not compared
      (C16 to C18, C22); no other panic is possible (C13).
    - Numbers: derived constants, agreement with the YAML files, depth of the
      blob inclusion proofs, container sizes (C14, C15, C37, C38).
    - BLS: signatures and aggregates made through the NIF verify through it;
      which inputs are errors, which panic; infinity is refused (C24 to C31).
    - KZG: computed proofs verify, alone and in batches; where the trusted setup
      is read from; when a call panics (C32 to C35).  Snappy is lossless (C36).

    A theorem about code that calls a crate assumes the laws of its class and
    nothing else; the lemma named after it with the suffix [_witness] applies it
    to a concrete input over the instance of the class.

    ** Bounds

    SSZ offsets are four bytes wide, so statements about encodings ask for less
    than [2^32] bytes.  List limits are at most [2^63 - 32], above every limit of
    the configurations, so that neither the rounding of the leaf count nor the
    next power of two overflows a [usize].  All recursion is structural; the one
    fuel argument, in [chunks], is the length of the input, which suffices
    because each step consumes a byte or more.

    ** What is not modelled

    The crates listed above, [typenum] and the Erlang VM are parameters or are
    replaced by what they compute.  Lifetimes, the environment argument and the
    scheduling attribute of a NIF have no counterpart, as memory is managed by
    the VM.  The [TreeHash] impl of [Uint256] forwards to [[u8; 32]] and is part
    of the [tree_hash] class, as the derived impls are.  The Go process of
    [native/libp2p_port] is network input and output.

    Of the Elixir code, still to come: the wrapper [lib/ssz.ex] over this NIF;
    [lib/ssz_ex], a second SSZ implementation, against [SszSpec] and
    [TreeHashSpec]; the bit fields of [lib/utils]; shuffling, accessors and the
    fork choice of [lib/lambda_ethereum_consensus].  Processes, storage, HTTP and
    metrics are outside the scope. *)
From Stdlib Require Export ZArith NArith Lia.
From stdpp Require Export base option strings numbers list.
From Stdlib Require Import Init.Byte Strings.Byte.
#[export] Set Default Goal Selector "!".

(** ** Bytes *)

Abbreviation byte := Init.Byte.byte.
Abbreviation bytes := (list Init.Byte.byte).

#[export] Instance byte_eq_dec : EqDecision byte := Byte.byte_eq_dec.

(** The value of a byte and the byte of a value (taken modulo 256). *)
Definition byte_val (b : byte) : Z := Z.of_N (Byte.to_N b).
Definition byte_of (z : Z) : byte := default x00 (Byte.of_N (Z.to_N (z mod 256))).

Lemma byte_val_range b : (0 <= byte_val b < 256)%Z.
Proof. unfold byte_val. pose proof (Byte.to_N_bounded b). lia. Qed.

Lemma byte_of_val b : byte_of (byte_val b) = b.
Proof.
  unfold byte_of. rewrite Z.mod_small by apply byte_val_range.
  unfold byte_val. by rewrite N2Z.id, Byte.of_to_N.
Qed.

Lemma byte_val_of z : byte_val (byte_of z) = (z mod 256)%Z.
Proof.
  unfold byte_of, byte_val.
  pose proof (Z.mod_pos_bound z 256 eq_refl).
  destruct (Byte.of_N _) as [b|] eqn:E; simpl.
  - apply Byte.to_of_N in E. rewrite E, Z2N.id; lia.
  - apply Byte.of_N_None_iff in E. lia.
Qed.

(** ** Boolean quantification over lists *)
Lemma forallb_elem {A} (f : A -> bool) l :
  forallb f l = true <-> forall x, x ∈ l -> f x = true.
Proof.
  rewrite forallb_forall. split; intros H x Hx; apply H; by apply list_elem_of_In.
Qed.

Lemma forallb_Forall {A} (f : A -> bool) l :
  forallb f l = true <-> Forall (fun x => f x = true) l.
Proof. rewrite forallb_elem. symmetry. apply Forall_forall. Qed.

Lemma forallb_ext {A} (f g : A -> bool) l :
  (forall x, f x = g x) -> forallb f l = forallb g l.
Proof. intros H. induction l as [|x l IH]; simpl; [done|]. by rewrite H, IH. Qed.

(** ** Lengths as binary numbers

    Capacities reach [2 ^ 40]; lengths are compared with them in [N]. *)
Definition nlen {A} (l : list A) : N := N.of_nat (length l).
Definition ntake {A} (n : N) (l : list A) : list A := take (N.to_nat n) l.
Definition ndrop {A} (n : N) (l : list A) : list A := drop (N.to_nat n) l.

Lemma nlen_nil {A} : nlen (@nil A) = 0%N.
Proof. done. Qed.

Lemma nlen_cons {A} (x : A) l : nlen (x :: l) = (1 + nlen l)%N.
Proof. unfold nlen. simpl. lia. Qed.

Lemma nlen_app {A} (l k : list A) : nlen (l ++ k) = (nlen l + nlen k)%N.
Proof. unfold nlen. rewrite length_app. lia. Qed.

Lemma nlen_map {A B} (f : A -> B) l : nlen (map f l) = nlen l.
Proof. unfold nlen. by rewrite length_map. Qed.

Lemma nlen_replicate {A} n (x : A) : nlen (replicate n x) = N.of_nat n.
Proof. unfold nlen. by rewrite length_replicate. Qed.

Lemma nlen_0 {A} (l : list A) : nlen l = 0%N <-> l = [].
Proof. destruct l; [done|]. rewrite nlen_cons. split; [lia|done]. Qed.

Lemma nlen_ntake {A} n (l : list A) : nlen (ntake n l) = N.min n (nlen l).
Proof. unfold nlen, ntake. rewrite length_take. lia. Qed.

Lemma nlen_ndrop {A} n (l : list A) : nlen (ndrop n l) = (nlen l - n)%N.
Proof. unfold nlen, ndrop. rewrite length_drop. lia. Qed.

Lemma ntake_ndrop {A} n (l : list A) : ntake n l ++ ndrop n l = l.
Proof. apply take_drop. Qed.

Lemma ntake_app {A} n (l k : list A) : nlen l = n -> ntake n (l ++ k) = l.
Proof. intros <-. unfold ntake, nlen. rewrite Nat2N.id. apply take_app_length. Qed.

Lemma ndrop_app {A} n (l k : list A) : nlen l = n -> ndrop n (l ++ k) = k.
Proof. intros <-. unfold ndrop, nlen. rewrite Nat2N.id. apply drop_app_length. Qed.

Lemma ntake_all {A} n (l : list A) : (nlen l <= n)%N -> ntake n l = l.
Proof. unfold ntake, nlen. intros. apply take_ge. lia. Qed.

Lemma ndrop_all {A} n (l : list A) : (nlen l <= n)%N -> ndrop n l = [].
Proof. unfold ndrop, nlen. intros. apply drop_ge. lia. Qed.

(** ** Little-endian integers *)

Fixpoint le_bytes (n : nat) (z : Z) : bytes :=
  match n with
  | O => []
  | S n => byte_of z :: le_bytes n (z / 256)
  end.

Fixpoint le_val (l : bytes) : Z :=
  match l with
  | [] => 0
  | b :: l => byte_val b + 256 * le_val l
  end.

Lemma length_le_bytes n z : length (le_bytes n z) = n.
Proof. revert z. induction n; simpl; auto. Qed.

Lemma nlen_le_bytes n z : nlen (le_bytes n z) = N.of_nat n.
Proof. unfold nlen. by rewrite length_le_bytes. Qed.

Lemma le_val_range l : (0 <= le_val l < 256 ^ Z.of_nat (length l))%Z.
Proof.
  induction l as [|b l IH]; simpl length; [simpl; lia|].
  rewrite Nat2Z.inj_succ, Z.pow_succ_r by lia. simpl.
  pose proof (byte_val_range b). lia.
Qed.

Lemma le_bytes_val n l : length l = n -> le_bytes n (le_val l) = l.
Proof.
  intros <-. induction l as [|b l IH]; [done|]. simpl.
  pose proof (byte_val_range b) as Hb. f_equal.
  - rewrite <- (byte_of_val b) at 2. unfold byte_of. do 3 f_equal.
    rewrite (Z.mul_comm 256), Z_mod_plus_full. done.
  - rewrite (Z.mul_comm 256), Z.div_add by done.
    by rewrite (Z.div_small (byte_val b)), Z.add_0_l by done.
Qed.

Lemma le_val_bytes n z : le_val (le_bytes n z) = (z mod 256 ^ Z.of_nat n)%Z.
Proof.
  revert z. induction n as [|n IH]; intros z.
  - simpl. by rewrite Z.mod_1_r.
  - rewrite Nat2Z.inj_succ, Z.pow_succ_r by lia. simpl.
    rewrite IH, byte_val_of, Z.rem_mul_r by lia. lia.
Qed.

Lemma le_val_bytes_small n z :
  (0 <= z < 256 ^ Z.of_nat n)%Z -> le_val (le_bytes n z) = z.
Proof. intros. rewrite le_val_bytes. by apply Z.mod_small. Qed.

Lemma le_val_app l k :
  le_val (l ++ k) = (le_val l + 256 ^ Z.of_nat (length l) * le_val k)%Z.
Proof.
  induction l as [|b l IH]; [simpl; lia|].
  simpl length. rewrite Nat2Z.inj_succ, Z.pow_succ_r by lia. simpl. rewrite IH. lia.
Qed.

Lemma le_val_zeros n : le_val (replicate n x00) = 0%Z.
Proof. induction n; simpl; [done|]. rewrite IHn. done. Qed.

(** Lengths of composed lists, and the arithmetic that is left. *)
Create Rewrite HintDb nlen.
#[export] Hint Rewrite @nlen_nil @nlen_cons @nlen_app @nlen_map @nlen_replicate
  @nlen_ntake @nlen_ndrop nlen_le_bytes : nlen.
Ltac nlia := autorewrite with nlen in *; lia.

#[global] Arguments nlen : simpl never.
#[global] Arguments ntake : simpl never.
#[global] Arguments ndrop : simpl never.
#[global] Arguments le_bytes : simpl never.

(** [lia] with the defining equations of quotients and remainders. *)
Ltac div_lia := zify; Z.to_euclidean_division_equations; lia.
