(* ===== verification/Rust.v ===== *)
(** * The fragment of Rust the NIF crates are written in

    Results that may also panic, [collect] into a [Result], UTF-8 string
    slicing, [usize] arithmetic at its width, [Write for &mut [u8]] and the
    [Debug] rendering of strings.  All of it is the language and its standard
    library; nothing here belongs to a third-party crate. *)
From Stdlib Require Import Init.Byte Strings.Byte Strings.Ascii Strings.String.
From S2P Require Import Prelude.

(** ** Results

    A call returns [Ok], returns [Err], or unwinds with a panic message. *)
Inductive res (E A : Type) : Type :=
| Ok (a : A)
| Err (e : E)
| Panic (msg : string).
Arguments Ok {E A} a.
Arguments Err {E A} e.
Arguments Panic {E A} msg.

Declare Scope res_scope.
Delimit Scope res_scope with res.

(** [e?]: go on with the value, or leave with the error. *)
Definition bind {E A B} (m : res E A) (k : A -> res E B) : res E B :=
  match m with
  | Ok a => k a
  | Err e => Err e
  | Panic p => Panic p
  end.

Notation "'let?' x := m 'in' k" := (bind m (fun x => k))
  (at level 10, x pattern, m at level 100, k at level 200) : res_scope.
Open Scope res_scope.

Definition map_err {E F A} (f : E -> F) (m : res E A) : res F A :=
  match m with
  | Ok a => Ok a
  | Err e => Err (f e)
  | Panic p => Panic p
  end.

Definition map_ok {E A B} (f : A -> B) (m : res E A) : res E B :=
  let? a := m in Ok (f a).

(** [Option::ok_or], [Result::unwrap] and [Result::expect]. *)
Definition ok_or {E A} (o : option A) (e : E) : res E A :=
  match o with Some a => Ok a | None => Err e end.

Definition expect {E F A} (m : res E A) (msg : string) : res F A :=
  match m with
  | Ok a => Ok a
  | Err _ => Panic msg
  | Panic p => Panic p
  end.

Definition is_ok {E A} (m : res E A) : bool :=
  match m with Ok _ => true | _ => false end.

Create HintDb no_panic.

Definition no_panic {E A} (m : res E A) : Prop := forall p, m <> Panic p.

Lemma bind_Ok {E A B} (m : res E A) (k : A -> res E B) b :
  bind m k = Ok b <-> exists a, m = Ok a /\ k a = Ok b.
Proof. destruct m; simpl; naive_solver. Qed.

Lemma bind_no_panic {E A B} (m : res E A) (k : A -> res E B) :
  no_panic m -> (forall a, m = Ok a -> no_panic (k a)) -> no_panic (bind m k).
Proof. unfold no_panic. destruct m; naive_solver. Qed.

Lemma map_err_no_panic {E F A} (f : E -> F) (m : res E A) :
  no_panic m -> no_panic (map_err f m).
Proof. unfold no_panic. destruct m; naive_solver. Qed.

Lemma Ok_no_panic {E A} (a : A) : no_panic (Ok a : res E A).
Proof. done. Qed.

Lemma Err_no_panic {E A} (e : E) : no_panic (Err e : res E A).
Proof. done. Qed.

#[export] Hint Resolve bind_no_panic map_err_no_panic Ok_no_panic Err_no_panic : no_panic.

Lemma map_err_Ok {E F A} (f : E -> F) (m : res E A) a :
  map_err f m = Ok a <-> m = Ok a.
Proof. destruct m; naive_solver. Qed.

Lemma is_ok_spec {E A} (m : res E A) : is_ok m = true <-> exists a, m = Ok a.
Proof. destruct m; simpl; naive_solver. Qed.

Lemma is_ok_map_err {E F A} (f : E -> F) (m : res E A) : is_ok (map_err f m) = is_ok m.
Proof. by destruct m. Qed.

(** Case analysis on the first computation of a chain of [?]s. *)
Ltac res_destruct :=
  repeat match goal with
  | H : bind ?m _ = Ok _ |- _ => apply bind_Ok in H as (? & ? & ?)
  | H : map_err _ _ = Ok _ |- _ => apply map_err_Ok in H
  | H : Ok _ = Ok _ |- _ => injection H as H; subst
  | H : Err _ = Ok _ |- _ => discriminate H
  | H : Panic _ = Ok _ |- _ => discriminate H
  end.

(** ** [into_iter().map(f).collect::<Result<Vec<_>, _>>()] *)
Section collect.
Context {E A B : Type} (f : A -> res E B).

Fixpoint collect (l : list A) : res E (list B) :=
  match l with
  | [] => Ok []
  | x :: l => let? y := f x in let? ys := collect l in Ok (y :: ys)
  end.

Lemma collect_Ok l ys :
  collect l = Ok ys <-> Forall2 (fun x y => f x = Ok y) l ys.
Proof using Type.
  revert ys. induction l as [|x l IH]; intros ys; simpl.
  - split; [intros [= <-]; constructor|]. by inversion 1.
  - split.
    + intros H. res_destruct. constructor; [done|]. by apply IH.
    + inversion 1 as [|?? ? ? Hx Hl]; subst. rewrite Hx; simpl.
      apply IH in Hl. by rewrite Hl.
Qed.

(** The error of a collection is the error of its first failing element. *)
Lemma collect_Err l e :
  collect l = Err e <->
  exists pre x post, l = pre ++ x :: post
    /\ Forall (fun z => is_ok (f z) = true) pre /\ f x = Err e.
Proof using Type.
  induction l as [|y l IH]; simpl.
  - split; [done|]. intros ([|??] & ? & ? & ? & _); done.
  - destruct (f y) as [b|e'|p] eqn:Ey; simpl.
    + transitivity (collect l = Err e).
      { destruct (collect l); simpl; naive_solver. }
      rewrite IH. split.
      * intros (pre & x & post & -> & Hpre & Hx).
        exists (y :: pre), x, post. repeat split; [|done]. constructor; [by rewrite Ey|done].
      * intros ([|z pre] & x & post & [= -> ->] & Hpre & Hx); [congruence|].
        inversion Hpre; subst. naive_solver.
    + split.
      * intros [= ->]. by exists [], y, l.
      * intros ([|z pre] & x & post & [= -> ->] & Hpre & Hx); [congruence|].
        inversion Hpre as [|?? Hz]; subst. by rewrite Ey in Hz.
    + split; [done|].
      intros ([|z pre] & x & post & [= -> ->] & Hpre & Hx); [congruence|].
      inversion Hpre as [|?? Hz]; subst. by rewrite Ey in Hz.
Qed.

Lemma collect_no_panic l : (forall x, no_panic (f x)) -> no_panic (collect l).
Proof using Type.
  intros Hf. induction l as [|x l IH]; simpl; [done|].
  apply bind_no_panic; [apply Hf|]. intros ? _.
  apply bind_no_panic; [apply IH|]. done.
Qed.

Lemma collect_is_ok l :
  is_ok (collect l) = forallb (fun x => is_ok (f x)) l.
Proof using Type.
  induction l as [|x l IH]; simpl; [done|].
  destruct (f x); simpl; [|done..]. rewrite <- IH. by destruct (collect l).
Qed.

Lemma length_collect l ys : collect l = Ok ys -> length ys = length l.
Proof using Type. intros H%collect_Ok. symmetry. by eapply Forall2_length. Qed.

(** A closure that returns or panics: so does the collection. *)
Lemma collect_Panic l :
  (forall x, is_ok (f x) = false -> exists p, f x = Panic p) ->
  (exists p, collect l = Panic p) <-> forallb (fun x => is_ok (f x)) l = false.
Proof using Type.
  intros Hf. rewrite <- collect_is_ok. induction l as [|x l IH]; simpl; [naive_solver|].
  destruct (is_ok (f x)) eqn:Ex.
  - apply is_ok_spec in Ex as [y ->]. simpl. destruct (collect l); simpl in *; naive_solver.
  - destruct (Hf x Ex) as [p ->]. simpl. naive_solver.
Qed.

Lemma nlen_collect l ys : collect l = Ok ys -> nlen ys = nlen l.
Proof using Type. intros H%length_collect. unfold nlen. by rewrite H. Qed.
End collect.

#[export] Hint Resolve collect_no_panic : no_panic.

Lemma collect_map {E A B C} (f : B -> res E C) (g : A -> B) l :
  collect f (map g l) = collect (fun x => f (g x)) l.
Proof. induction l as [|x l IH]; simpl; [done|]. by rewrite IH. Qed.

Lemma collect_Ok_map {E F A B C} (f : A -> res E B) (g : A -> res F C) (h : B -> C) l ys :
  (forall x y, f x = Ok y -> g x = Ok (h y)) -> collect f l = Ok ys ->
  collect g l = Ok (map h ys).
Proof.
  intros Hg Hl%collect_Ok. apply collect_Ok.
  induction Hl as [|x y l ys Hxy _ IH]; constructor; [by apply Hg|done].
Qed.

Lemma collect_Ok_id {E A} (f : A -> res E A) l :
  (forall x, x ∈ l -> f x = Ok x) -> collect f l = Ok l.
Proof.
  intros H. apply collect_Ok. apply Forall2_same_length_lookup_2; [done|].
  intros i x y Hx Hy. simplify_eq. apply H. by eapply list_elem_of_lookup_2.
Qed.

(** ** [usize]: 64-bit, wrapping in release builds *)
Definition usize_max : N := 2 ^ 64 - 1.
Definition usize_wrap (n : N) : N := (n mod 2 ^ 64)%N.
Definition usize_add (a b : N) : N := usize_wrap (a + b).
Definition usize_sub (a b : N) : N := usize_wrap (a + 2 ^ 64 - b).

Lemma usize_add_small a b : (a + b < 2 ^ 64)%N -> usize_add a b = (a + b)%N.
Proof. intros. by apply N.mod_small. Qed.

Lemma usize_sub_small a b : (b <= a < 2 ^ 64)%N -> usize_sub a b = (a - b)%N.
Proof.
  intros. unfold usize_sub, usize_wrap.
  replace (a + 2 ^ 64 - b)%N with ((a - b) + 1 * 2 ^ 64)%N by lia.
  rewrite N.Div0.mod_add. apply N.mod_small. lia.
Qed.

(** ** [str::get(n..)]

    A string is the sequence of its UTF-8 bytes; slicing fails past the end
    and inside a character (on a continuation byte [0b10xxxxxx]). *)
Definition is_continuation (c : ascii) : bool :=
  let n := N_of_ascii c in ((128 <=? n) && (n <? 192))%N.

Fixpoint str_get_from (n : nat) (s : string) : option string :=
  match n, s with
  | O, EmptyString => Some EmptyString
  | O, String c _ => if is_continuation c then None else Some s
  | S _, EmptyString => None
  | S n, String _ s => str_get_from n s
  end.

Lemma str_get_from_app p c s :
  is_continuation c = false ->
  str_get_from (String.length p) (p +:+ String c s) = Some (String c s).
Proof. intros Hc. induction p; simpl; [by rewrite Hc|done]. Qed.

Lemma str_get_from_prefix p r :
  str_get_from (String.length p) (p +:+ r) = str_get_from 0 r.
Proof. by induction p. Qed.

Lemma str_get_from_Some n s r :
  str_get_from n s = Some r -> exists p, String.length p = n /\ s = p +:+ r.
Proof.
  revert s. induction n as [|n IH]; intros [|c s]; simpl; try done.
  - intros [= <-]. by exists EmptyString.
  - destruct (is_continuation c); intros [= <-]. by exists EmptyString.
  - intros (p & <- & ->)%IH. by exists (String c p).
Qed.

Lemma str_get_from_short n s : String.length s < n -> str_get_from n s = None.
Proof.
  revert s. induction n as [|n IH]; intros [|c s]; simpl; try lia; [done|].
  intros. apply IH. lia.
Qed.

(** ** [impl Write for &mut [u8]]

    [write_all] copies as much as fits and fails if bytes are left over; the
    result is the destination buffer after the call. *)
Definition write_all (dst src : bytes) : res string bytes :=
  let n := Nat.min (length dst) (length src) in
  if Nat.eqb n (length src)
  then Ok (take n src ++ drop n dst)
  else Err "failed to write whole buffer"%string.

(** [bytes_to_binary], the same function in each of the four crates: a new
    binary of the length of the slice, filled with [write_all(..).unwrap()]. *)
Definition bytes_to_binary {E} (bs : bytes) : res E bytes :=
  let binary := replicate (length bs) x00 in
  expect (write_all binary bs) "called `Result::unwrap()` on an `Err` value".

Lemma bytes_to_binary_Ok {E} (bs : bytes) : bytes_to_binary (E := E) bs = Ok bs.
Proof.
  unfold bytes_to_binary, write_all. rewrite length_replicate, Nat.min_id, Nat.eqb_refl.
  simpl. f_equal. rewrite firstn_all, drop_ge; [|by rewrite length_replicate].
  by rewrite app_nil_r.
Qed.

Lemma bytes_to_binary_no_panic {E} (bs : bytes) : no_panic (bytes_to_binary (E := E) bs).
Proof. by rewrite bytes_to_binary_Ok. Qed.

#[export] Hint Resolve bytes_to_binary_no_panic : no_panic.

(** ** [format!("{:?}", s)] of a string: quoted, with [escape_debug]

    The messages rendered this way are ASCII; other bytes are kept. *)
Definition hex_digit (n : N) : ascii :=
  ascii_of_N (if (n <? 10)%N then 48 + n else 87 + n)%N.

Definition escape_char (c : ascii) : string :=
  let n := N_of_ascii c in
  let esc x := String "\"%char (String x EmptyString) in
  if (n =? 0)%N then esc "0"%char
  else if (n =? 9)%N then esc "t"%char
  else if (n =? 13)%N then esc "r"%char
  else if (n =? 10)%N then esc "n"%char
  else if (n =? 34)%N then esc c
  else if (n =? 92)%N then esc c
  else if ((n <? 32) || (n =? 127))%N then
    String "\"%char ("u{" +:+
      (if (n <? 16)%N then EmptyString else String (hex_digit (n / 16)) EmptyString)
      +:+ String (hex_digit (n mod 16)) "}")
  else String c EmptyString.

Fixpoint escape_debug (s : string) : string :=
  match s with
  | EmptyString => EmptyString
  | String c s => escape_char c +:+ escape_debug s
  end.

Definition quote : string := String (ascii_of_nat 34) EmptyString.
Definition debug_str (s : string) : string := quote +:+ escape_debug s +:+ quote.

(** [format!("{:?}", err)] of an error of a crate: errors of crates are
    represented by their [Debug] rendering. *)
Definition debug_error (err : string) : string := err.
