(* ===== verification/Config.v ===== *)
(** * Presets of the consensus types: [native/ssz_nif/src/ssz_types/config.rs]

    The [Config] trait is a record of type-level numbers, its three impls are
    three values.  [typenum::Prod] and [typenum::Quot] are the product and the
    (truncated) quotient of the numbers they name.  The constants the YAML
    presets under [config/presets] also give are compared with them in
    [Presets]. *)
From S2P Require Import Prelude.
Open Scope N_scope.

Definition Prod (a b : N) : N := a * b.
Definition Quot (a b : N) : N := a / b.

(** [U5000 = UInt<UInt<UInt<U625, B0>, B0>, B0>]: a [UInt<n, b>] is [2 n + b]. *)
Definition UInt (n b : N) : N := 2 * n + b.
Definition U5000 : N := UInt (UInt (UInt 625 0) 0) 0.

Record Config := {
  JustificationBitsLength : N;
  SubnetBitfieldLength : N;
  MaxValidatorsPerCommittee : N;
  GenesisEpoch : N;
  SlotsPerEpoch : N;
  EpochsPerEth1VotingPeriod : N;
  SlotsPerHistoricalRoot : N;
  EpochsPerHistoricalVector : N;
  EpochsPerSlashingsVector : N;
  HistoricalRootsLimit : N;
  ValidatorRegistryLimit : N;
  MaxProposerSlashings : N;
  MaxAttesterSlashings : N;
  MaxAttestations : N;
  MaxDeposits : N;
  MaxVoluntaryExits : N;
  SyncCommitteeSize : N;
  SyncCommitteeSubnetCount : N;
  AttestationSubnetCount : N;
  MaxBytesPerTransaction : N;
  MaxTransactionsPerPayload : N;
  BytesPerLogsBloom : N;
  GasLimitDenominator : N;
  MinGasLimit : N;
  MaxExtraDataBytes : N;
  MaxBlsToExecutionChanges : N;
  MaxWithdrawalsPerPayload : N;
  MaxBlobsPerBlock : N;
  MaxBlobCommitmentsPerBlock : N;
  FieldElementsPerBlob : N;
  BytesPerFieldElement : N;
  KzgCommitmentInclusionProofDepth : N;
  MaxCommitteesPerSlot : N;
  MaxConsolidationRequestsPerPayload : N;
  MaxDepositRequestsPerPayload : N;
  MaxWithdrawalRequestsPerPayload : N;
  PendingDepositsLimit : N;
  PendingPartialWithdrawalsLimit : N;
  PendingConsolidationsLimit : N;
  MaxAttesterSlashingsElectra : N;
  MaxAttestationsElectra : N;
  MaxValidatorsPerSlot : N;
  SyncSubcommitteeSize : N;
  MaxPendingAttestations : N;
  SlotsPerEth1VotingPeriod : N;
  BytesPerBlob : N
}.

Definition Mainnet : Config :=
  let self_SyncCommitteeSize := 512 in
  let self_SyncCommitteeSubnetCount := 4 in
  let self_MaxAttestations := 128 in
  let self_SlotsPerEpoch := 32 in
  let self_EpochsPerEth1VotingPeriod := 64 in
  let self_FieldElementsPerBlob := 4096 in
  let self_BytesPerFieldElement := 32 in
  {|
  JustificationBitsLength := 4;
  SubnetBitfieldLength := 64;
  MaxValidatorsPerCommittee := 2048;
  GenesisEpoch := 0;
  SlotsPerEpoch := self_SlotsPerEpoch;
  EpochsPerEth1VotingPeriod := self_EpochsPerEth1VotingPeriod;
  SlotsPerHistoricalRoot := 8192;
  EpochsPerHistoricalVector := 65536;
  EpochsPerSlashingsVector := 8192;
  HistoricalRootsLimit := 16777216;
  ValidatorRegistryLimit := 1099511627776;
  MaxProposerSlashings := 16;
  MaxAttesterSlashings := 2;
  MaxAttestations := self_MaxAttestations;
  MaxDeposits := 16;
  MaxVoluntaryExits := 16;
  SyncCommitteeSize := self_SyncCommitteeSize;
  SyncCommitteeSubnetCount := self_SyncCommitteeSubnetCount;
  AttestationSubnetCount := 64;
  MaxBytesPerTransaction := 1073741824;
  MaxTransactionsPerPayload := 1048576;
  BytesPerLogsBloom := 256;
  GasLimitDenominator := 1024;
  MinGasLimit := U5000;
  MaxExtraDataBytes := 32;
  MaxBlsToExecutionChanges := 16;
  MaxWithdrawalsPerPayload := 16;
  MaxBlobsPerBlock := 6;
  MaxBlobCommitmentsPerBlock := 4096;
  FieldElementsPerBlob := self_FieldElementsPerBlob;
  BytesPerFieldElement := self_BytesPerFieldElement;
  KzgCommitmentInclusionProofDepth := 17;
  MaxCommitteesPerSlot := 64;
  MaxConsolidationRequestsPerPayload := 2;
  MaxDepositRequestsPerPayload := 8192;
  MaxWithdrawalRequestsPerPayload := 16;
  PendingDepositsLimit := 134217728;
  PendingPartialWithdrawalsLimit := 134217728;
  PendingConsolidationsLimit := 262144;
  MaxAttesterSlashingsElectra := 1;
  MaxAttestationsElectra := 8;
  MaxValidatorsPerSlot := 131072;
  SyncSubcommitteeSize := Quot self_SyncCommitteeSize self_SyncCommitteeSubnetCount;
  MaxPendingAttestations := Prod self_MaxAttestations self_SlotsPerEpoch;
  SlotsPerEth1VotingPeriod := Prod self_EpochsPerEth1VotingPeriod self_SlotsPerEpoch;
  BytesPerBlob := Prod self_FieldElementsPerBlob self_BytesPerFieldElement
|}.

Definition Minimal : Config :=
  let self_SyncCommitteeSize := 32 in
  let self_SyncCommitteeSubnetCount := Mainnet.(SyncCommitteeSubnetCount) in
  let self_MaxAttestations := Mainnet.(MaxAttestations) in
  let self_SlotsPerEpoch := 8 in
  let self_EpochsPerEth1VotingPeriod := 4 in
  let self_FieldElementsPerBlob := 4096 in
  let self_BytesPerFieldElement := Mainnet.(BytesPerFieldElement) in
  {|
  JustificationBitsLength := Mainnet.(JustificationBitsLength);
  SubnetBitfieldLength := Mainnet.(SubnetBitfieldLength);
  MaxValidatorsPerCommittee := Mainnet.(MaxValidatorsPerCommittee);
  GenesisEpoch := Mainnet.(GenesisEpoch);
  SlotsPerEpoch := self_SlotsPerEpoch;
  EpochsPerEth1VotingPeriod := self_EpochsPerEth1VotingPeriod;
  SlotsPerHistoricalRoot := 64;
  EpochsPerHistoricalVector := 64;
  EpochsPerSlashingsVector := 64;
  HistoricalRootsLimit := Mainnet.(HistoricalRootsLimit);
  ValidatorRegistryLimit := Mainnet.(ValidatorRegistryLimit);
  MaxProposerSlashings := Mainnet.(MaxProposerSlashings);
  MaxAttesterSlashings := Mainnet.(MaxAttesterSlashings);
  MaxAttestations := self_MaxAttestations;
  MaxDeposits := Mainnet.(MaxDeposits);
  MaxVoluntaryExits := Mainnet.(MaxVoluntaryExits);
  SyncCommitteeSize := self_SyncCommitteeSize;
  SyncCommitteeSubnetCount := self_SyncCommitteeSubnetCount;
  AttestationSubnetCount := Mainnet.(AttestationSubnetCount);
  MaxBytesPerTransaction := Mainnet.(MaxBytesPerTransaction);
  MaxTransactionsPerPayload := Mainnet.(MaxTransactionsPerPayload);
  BytesPerLogsBloom := Mainnet.(BytesPerLogsBloom);
  GasLimitDenominator := Mainnet.(GasLimitDenominator);
  MinGasLimit := Mainnet.(MinGasLimit);
  MaxExtraDataBytes := Mainnet.(MaxExtraDataBytes);
  MaxBlsToExecutionChanges := Mainnet.(MaxBlsToExecutionChanges);
  MaxWithdrawalsPerPayload := 4;
  MaxBlobsPerBlock := Mainnet.(MaxBlobsPerBlock);
  MaxBlobCommitmentsPerBlock := 32;
  FieldElementsPerBlob := self_FieldElementsPerBlob;
  BytesPerFieldElement := self_BytesPerFieldElement;
  KzgCommitmentInclusionProofDepth := 10;
  MaxCommitteesPerSlot := 4;
  MaxConsolidationRequestsPerPayload := Mainnet.(MaxConsolidationRequestsPerPayload);
  MaxDepositRequestsPerPayload := 4;
  MaxWithdrawalRequestsPerPayload := 2;
  PendingDepositsLimit := Mainnet.(PendingDepositsLimit);
  PendingPartialWithdrawalsLimit := 64;
  PendingConsolidationsLimit := 64;
  MaxAttesterSlashingsElectra := Mainnet.(MaxAttesterSlashingsElectra);
  MaxAttestationsElectra := Mainnet.(MaxAttestationsElectra);
  MaxValidatorsPerSlot := 8192;
  SyncSubcommitteeSize := Quot self_SyncCommitteeSize self_SyncCommitteeSubnetCount;
  MaxPendingAttestations := Prod self_MaxAttestations self_SlotsPerEpoch;
  SlotsPerEth1VotingPeriod := Prod self_EpochsPerEth1VotingPeriod self_SlotsPerEpoch;
  BytesPerBlob := Prod self_FieldElementsPerBlob self_BytesPerFieldElement
|}.

Definition Gnosis : Config :=
  let self_SyncCommitteeSize := 512 in
  let self_SyncCommitteeSubnetCount := 4 in
  let self_MaxAttestations := 128 in
  let self_SlotsPerEpoch := 16 in
  let self_EpochsPerEth1VotingPeriod := 64 in
  let self_FieldElementsPerBlob := 4096 in
  let self_BytesPerFieldElement := 32 in
  {|
  JustificationBitsLength := 4;
  SubnetBitfieldLength := 64;
  MaxValidatorsPerCommittee := 2048;
  GenesisEpoch := 0;
  SlotsPerEpoch := self_SlotsPerEpoch;
  EpochsPerEth1VotingPeriod := self_EpochsPerEth1VotingPeriod;
  SlotsPerHistoricalRoot := 8192;
  EpochsPerHistoricalVector := 65536;
  EpochsPerSlashingsVector := 8192;
  HistoricalRootsLimit := 16777216;
  ValidatorRegistryLimit := 1099511627776;
  MaxProposerSlashings := 16;
  MaxAttesterSlashings := 2;
  MaxAttestations := self_MaxAttestations;
  MaxDeposits := 16;
  MaxVoluntaryExits := 16;
  SyncCommitteeSize := self_SyncCommitteeSize;
  SyncCommitteeSubnetCount := self_SyncCommitteeSubnetCount;
  AttestationSubnetCount := 64;
  MaxBytesPerTransaction := 1073741824;
  MaxTransactionsPerPayload := 1048576;
  BytesPerLogsBloom := 256;
  GasLimitDenominator := 1024;
  MinGasLimit := U5000;
  MaxExtraDataBytes := 32;
  MaxBlsToExecutionChanges := 16;
  MaxWithdrawalsPerPayload := 8;
  MaxBlobsPerBlock := 6;
  MaxBlobCommitmentsPerBlock := 4096;
  FieldElementsPerBlob := self_FieldElementsPerBlob;
  BytesPerFieldElement := self_BytesPerFieldElement;
  KzgCommitmentInclusionProofDepth := 17;
  MaxCommitteesPerSlot := 64;
  MaxConsolidationRequestsPerPayload := 2;
  MaxDepositRequestsPerPayload := 8192;
  MaxWithdrawalRequestsPerPayload := 16;
  PendingDepositsLimit := 134217728;
  PendingPartialWithdrawalsLimit := 134217728;
  PendingConsolidationsLimit := 262144;
  MaxAttesterSlashingsElectra := 1;
  MaxAttestationsElectra := 8;
  MaxValidatorsPerSlot := 131072;
  SyncSubcommitteeSize := Quot self_SyncCommitteeSize self_SyncCommitteeSubnetCount;
  MaxPendingAttestations := Prod self_MaxAttestations self_SlotsPerEpoch;
  SlotsPerEth1VotingPeriod := Prod self_EpochsPerEth1VotingPeriod self_SlotsPerEpoch;
  BytesPerBlob := Prod self_FieldElementsPerBlob self_BytesPerFieldElement
|}.

(** The configurations the NIF is built with, under the names of its
    [config] argument. *)
Definition configs : list (string * Config) :=
  [("mainnet"%string, Mainnet); ("minimal"%string, Minimal); ("gnosis"%string, Gnosis)].

(** The arithmetic relations the comments of the trait and of the impls state
    between the constants of one configuration. *)
Record derived_constants (C : Config) : Prop := {
  sync_subcommittee : C.(SyncSubcommitteeSize) * C.(SyncCommitteeSubnetCount) = C.(SyncCommitteeSize);
  pending_attestations : C.(MaxPendingAttestations) = C.(MaxAttestations) * C.(SlotsPerEpoch);
  eth1_voting_period : C.(SlotsPerEth1VotingPeriod) = C.(EpochsPerEth1VotingPeriod) * C.(SlotsPerEpoch);
  bytes_per_blob : C.(BytesPerBlob) = C.(FieldElementsPerBlob) * C.(BytesPerFieldElement);
  validators_per_slot : C.(MaxValidatorsPerSlot) = C.(MaxValidatorsPerCommittee) * C.(MaxCommitteesPerSlot)
}.

