(* ===== verification/Presets.v ===== *)
(** * The YAML presets: [config/presets/*/*.yaml]

    The constants of the three presets as the node loads them, one table per
    file, and their agreement with the constants compiled into the NIF. *)
From S2P Require Import Prelude Config.
Open Scope N_scope.

Definition mainnet_altair : list (string * N) := [
  ("INACTIVITY_PENALTY_QUOTIENT_ALTAIR"%string, 50331648);
  ("MIN_SLASHING_PENALTY_QUOTIENT_ALTAIR"%string, 64);
  ("PROPORTIONAL_SLASHING_MULTIPLIER_ALTAIR"%string, 2);
  ("SYNC_COMMITTEE_SIZE"%string, 512);
  ("EPOCHS_PER_SYNC_COMMITTEE_PERIOD"%string, 256);
  ("MIN_SYNC_COMMITTEE_PARTICIPANTS"%string, 1);
  ("UPDATE_TIMEOUT"%string, 8192)].

Definition mainnet_bellatrix : list (string * N) := [
  ("INACTIVITY_PENALTY_QUOTIENT_BELLATRIX"%string, 16777216);
  ("MIN_SLASHING_PENALTY_QUOTIENT_BELLATRIX"%string, 32);
  ("PROPORTIONAL_SLASHING_MULTIPLIER_BELLATRIX"%string, 3);
  ("MAX_BYTES_PER_TRANSACTION"%string, 1073741824);
  ("MAX_TRANSACTIONS_PER_PAYLOAD"%string, 1048576);
  ("BYTES_PER_LOGS_BLOOM"%string, 256);
  ("MAX_EXTRA_DATA_BYTES"%string, 32)].

Definition mainnet_capella : list (string * N) := [
  ("MAX_BLS_TO_EXECUTION_CHANGES"%string, 16);
  ("MAX_WITHDRAWALS_PER_PAYLOAD"%string, 16);
  ("MAX_VALIDATORS_PER_WITHDRAWALS_SWEEP"%string, 16384)].

Definition mainnet_deneb : list (string * N) := [
  ("FIELD_ELEMENTS_PER_BLOB"%string, 4096);
  ("MAX_BLOB_COMMITMENTS_PER_BLOCK"%string, 4096);
  ("MAX_BLOBS_PER_BLOCK"%string, 6);
  ("KZG_COMMITMENT_INCLUSION_PROOF_DEPTH"%string, 17)].

Definition mainnet_electra : list (string * N) := [
  ("MIN_ACTIVATION_BALANCE"%string, 32000000000);
  ("MAX_EFFECTIVE_BALANCE_ELECTRA"%string, 2048000000000);
  ("PENDING_DEPOSITS_LIMIT"%string, 134217728);
  ("PENDING_PARTIAL_WITHDRAWALS_LIMIT"%string, 134217728);
  ("PENDING_CONSOLIDATIONS_LIMIT"%string, 262144);
  ("MIN_SLASHING_PENALTY_QUOTIENT_ELECTRA"%string, 4096);
  ("WHISTLEBLOWER_REWARD_QUOTIENT_ELECTRA"%string, 4096);
  ("MAX_ATTESTER_SLASHINGS_ELECTRA"%string, 1);
  ("MAX_ATTESTATIONS_ELECTRA"%string, 8);
  ("MAX_CONSOLIDATION_REQUESTS_PER_PAYLOAD"%string, 2);
  ("MAX_DEPOSIT_REQUESTS_PER_PAYLOAD"%string, 8192);
  ("MAX_WITHDRAWAL_REQUESTS_PER_PAYLOAD"%string, 16);
  ("MAX_PENDING_PARTIALS_PER_WITHDRAWALS_SWEEP"%string, 8);
  ("MAX_PENDING_DEPOSITS_PER_EPOCH"%string, 16)].

Definition mainnet_phase0 : list (string * N) := [
  ("MAX_COMMITTEES_PER_SLOT"%string, 64);
  ("TARGET_COMMITTEE_SIZE"%string, 128);
  ("MAX_VALIDATORS_PER_COMMITTEE"%string, 2048);
  ("SHUFFLE_ROUND_COUNT"%string, 90);
  ("HYSTERESIS_QUOTIENT"%string, 4);
  ("HYSTERESIS_DOWNWARD_MULTIPLIER"%string, 1);
  ("HYSTERESIS_UPWARD_MULTIPLIER"%string, 5);
  ("MIN_DEPOSIT_AMOUNT"%string, 1000000000);
  ("MAX_EFFECTIVE_BALANCE"%string, 32000000000);
  ("EFFECTIVE_BALANCE_INCREMENT"%string, 1000000000);
  ("MIN_ATTESTATION_INCLUSION_DELAY"%string, 1);
  ("SLOTS_PER_EPOCH"%string, 32);
  ("MIN_SEED_LOOKAHEAD"%string, 1);
  ("MAX_SEED_LOOKAHEAD"%string, 4);
  ("EPOCHS_PER_ETH1_VOTING_PERIOD"%string, 64);
  ("SLOTS_PER_HISTORICAL_ROOT"%string, 8192);
  ("MIN_EPOCHS_TO_INACTIVITY_PENALTY"%string, 4);
  ("EPOCHS_PER_HISTORICAL_VECTOR"%string, 65536);
  ("EPOCHS_PER_SLASHINGS_VECTOR"%string, 8192);
  ("HISTORICAL_ROOTS_LIMIT"%string, 16777216);
  ("VALIDATOR_REGISTRY_LIMIT"%string, 1099511627776);
  ("BASE_REWARD_FACTOR"%string, 64);
  ("WHISTLEBLOWER_REWARD_QUOTIENT"%string, 512);
  ("PROPOSER_REWARD_QUOTIENT"%string, 8);
  ("INACTIVITY_PENALTY_QUOTIENT"%string, 67108864);
  ("MIN_SLASHING_PENALTY_QUOTIENT"%string, 128);
  ("PROPORTIONAL_SLASHING_MULTIPLIER"%string, 1);
  ("MAX_PROPOSER_SLASHINGS"%string, 16);
  ("MAX_ATTESTER_SLASHINGS"%string, 2);
  ("MAX_ATTESTATIONS"%string, 128);
  ("MAX_DEPOSITS"%string, 16);
  ("MAX_VOLUNTARY_EXITS"%string, 16)].

Definition mainnet_preset : list (string * N) :=
  mainnet_altair ++ mainnet_bellatrix ++ mainnet_capella ++ mainnet_deneb ++ mainnet_electra ++ mainnet_phase0.

Definition minimal_altair : list (string * N) := [
  ("INACTIVITY_PENALTY_QUOTIENT_ALTAIR"%string, 50331648);
  ("MIN_SLASHING_PENALTY_QUOTIENT_ALTAIR"%string, 64);
  ("PROPORTIONAL_SLASHING_MULTIPLIER_ALTAIR"%string, 2);
  ("SYNC_COMMITTEE_SIZE"%string, 32);
  ("EPOCHS_PER_SYNC_COMMITTEE_PERIOD"%string, 8);
  ("MIN_SYNC_COMMITTEE_PARTICIPANTS"%string, 1);
  ("UPDATE_TIMEOUT"%string, 64)].

Definition minimal_bellatrix : list (string * N) := [
  ("INACTIVITY_PENALTY_QUOTIENT_BELLATRIX"%string, 16777216);
  ("MIN_SLASHING_PENALTY_QUOTIENT_BELLATRIX"%string, 32);
  ("PROPORTIONAL_SLASHING_MULTIPLIER_BELLATRIX"%string, 3);
  ("MAX_BYTES_PER_TRANSACTION"%string, 1073741824);
  ("MAX_TRANSACTIONS_PER_PAYLOAD"%string, 1048576);
  ("BYTES_PER_LOGS_BLOOM"%string, 256);
  ("MAX_EXTRA_DATA_BYTES"%string, 32)].

Definition minimal_capella : list (string * N) := [
  ("MAX_BLS_TO_EXECUTION_CHANGES"%string, 16);
  ("MAX_WITHDRAWALS_PER_PAYLOAD"%string, 4);
  ("MAX_VALIDATORS_PER_WITHDRAWALS_SWEEP"%string, 16)].

Definition minimal_deneb : list (string * N) := [
  ("FIELD_ELEMENTS_PER_BLOB"%string, 4096);
  ("MAX_BLOB_COMMITMENTS_PER_BLOCK"%string, 32);
  ("KZG_COMMITMENT_INCLUSION_PROOF_DEPTH"%string, 10)].

Definition minimal_electra : list (string * N) := [
  ("MIN_ACTIVATION_BALANCE"%string, 32000000000);
  ("MAX_EFFECTIVE_BALANCE_ELECTRA"%string, 2048000000000);
  ("PENDING_DEPOSITS_LIMIT"%string, 134217728);
  ("PENDING_PARTIAL_WITHDRAWALS_LIMIT"%string, 64);
  ("PENDING_CONSOLIDATIONS_LIMIT"%string, 64);
  ("MIN_SLASHING_PENALTY_QUOTIENT_ELECTRA"%string, 4096);
  ("WHISTLEBLOWER_REWARD_QUOTIENT_ELECTRA"%string, 4096);
  ("MAX_ATTESTER_SLASHINGS_ELECTRA"%string, 1);
  ("MAX_ATTESTATIONS_ELECTRA"%string, 8);
  ("MAX_CONSOLIDATION_REQUESTS_PER_PAYLOAD"%string, 2);
  ("MAX_DEPOSIT_REQUESTS_PER_PAYLOAD"%string, 4);
  ("MAX_WITHDRAWAL_REQUESTS_PER_PAYLOAD"%string, 2);
  ("MAX_PENDING_PARTIALS_PER_WITHDRAWALS_SWEEP"%string, 2);
  ("MAX_PENDING_DEPOSITS_PER_EPOCH"%string, 16)].

Definition minimal_phase0 : list (string * N) := [
  ("MAX_COMMITTEES_PER_SLOT"%string, 4);
  ("TARGET_COMMITTEE_SIZE"%string, 4);
  ("MAX_VALIDATORS_PER_COMMITTEE"%string, 2048);
  ("SHUFFLE_ROUND_COUNT"%string, 10);
  ("HYSTERESIS_QUOTIENT"%string, 4);
  ("HYSTERESIS_DOWNWARD_MULTIPLIER"%string, 1);
  ("HYSTERESIS_UPWARD_MULTIPLIER"%string, 5);
  ("MIN_DEPOSIT_AMOUNT"%string, 1000000000);
  ("MAX_EFFECTIVE_BALANCE"%string, 32000000000);
  ("EFFECTIVE_BALANCE_INCREMENT"%string, 1000000000);
  ("MIN_ATTESTATION_INCLUSION_DELAY"%string, 1);
  ("SLOTS_PER_EPOCH"%string, 8);
  ("MIN_SEED_LOOKAHEAD"%string, 1);
  ("MAX_SEED_LOOKAHEAD"%string, 4);
  ("EPOCHS_PER_ETH1_VOTING_PERIOD"%string, 4);
  ("SLOTS_PER_HISTORICAL_ROOT"%string, 64);
  ("MIN_EPOCHS_TO_INACTIVITY_PENALTY"%string, 4);
  ("EPOCHS_PER_HISTORICAL_VECTOR"%string, 64);
  ("EPOCHS_PER_SLASHINGS_VECTOR"%string, 64);
  ("HISTORICAL_ROOTS_LIMIT"%string, 16777216);
  ("VALIDATOR_REGISTRY_LIMIT"%string, 1099511627776);
  ("BASE_REWARD_FACTOR"%string, 64);
  ("WHISTLEBLOWER_REWARD_QUOTIENT"%string, 512);
  ("PROPOSER_REWARD_QUOTIENT"%string, 8);
  ("INACTIVITY_PENALTY_QUOTIENT"%string, 33554432);
  ("MIN_SLASHING_PENALTY_QUOTIENT"%string, 64);
  ("PROPORTIONAL_SLASHING_MULTIPLIER"%string, 2);
  ("MAX_PROPOSER_SLASHINGS"%string, 16);
  ("MAX_ATTESTER_SLASHINGS"%string, 2);
  ("MAX_ATTESTATIONS"%string, 128);
  ("MAX_DEPOSITS"%string, 16);
  ("MAX_VOLUNTARY_EXITS"%string, 16)].

Definition minimal_preset : list (string * N) :=
  minimal_altair ++ minimal_bellatrix ++ minimal_capella ++ minimal_deneb ++ minimal_electra ++ minimal_phase0.

Definition gnosis_altair : list (string * N) := [
  ("INACTIVITY_PENALTY_QUOTIENT_ALTAIR"%string, 50331648);
  ("MIN_SLASHING_PENALTY_QUOTIENT_ALTAIR"%string, 64);
  ("PROPORTIONAL_SLASHING_MULTIPLIER_ALTAIR"%string, 2);
  ("SYNC_COMMITTEE_SIZE"%string, 512);
  ("EPOCHS_PER_SYNC_COMMITTEE_PERIOD"%string, 512);
  ("MIN_SYNC_COMMITTEE_PARTICIPANTS"%string, 1)].

Definition gnosis_bellatrix : list (string * N) := [
  ("INACTIVITY_PENALTY_QUOTIENT_BELLATRIX"%string, 16777216);
  ("MIN_SLASHING_PENALTY_QUOTIENT_BELLATRIX"%string, 32);
  ("PROPORTIONAL_SLASHING_MULTIPLIER_BELLATRIX"%string, 3);
  ("MAX_BYTES_PER_TRANSACTION"%string, 1073741824);
  ("MAX_TRANSACTIONS_PER_PAYLOAD"%string, 1048576);
  ("BYTES_PER_LOGS_BLOOM"%string, 256);
  ("MAX_EXTRA_DATA_BYTES"%string, 32)].

Definition gnosis_capella : list (string * N) := [
  ("MAX_BLS_TO_EXECUTION_CHANGES"%string, 16);
  ("MAX_WITHDRAWALS_PER_PAYLOAD"%string, 8);
  ("MAX_VALIDATORS_PER_WITHDRAWALS_SWEEP"%string, 8192)].

Definition gnosis_deneb : list (string * N) := [
  ("FIELD_ELEMENTS_PER_BLOB"%string, 4096);
  ("MAX_BLOB_COMMITMENTS_PER_BLOCK"%string, 4096);
  ("MAX_BLOBS_PER_BLOCK"%string, 6);
  ("KZG_COMMITMENT_INCLUSION_PROOF_DEPTH"%string, 17)].

Definition gnosis_electra : list (string * N) := [
  ("MIN_ACTIVATION_BALANCE"%string, 32000000000);
  ("MAX_EFFECTIVE_BALANCE_ELECTRA"%string, 2048000000000);
  ("PENDING_DEPOSITS_LIMIT"%string, 134217728);
  ("PENDING_PARTIAL_WITHDRAWALS_LIMIT"%string, 134217728);
  ("PENDING_CONSOLIDATIONS_LIMIT"%string, 262144);
  ("MIN_SLASHING_PENALTY_QUOTIENT_ELECTRA"%string, 4096);
  ("WHISTLEBLOWER_REWARD_QUOTIENT_ELECTRA"%string, 4096);
  ("MAX_ATTESTER_SLASHINGS_ELECTRA"%string, 1);
  ("MAX_ATTESTATIONS_ELECTRA"%string, 8);
  ("MAX_CONSOLIDATION_REQUESTS_PER_PAYLOAD"%string, 2);
  ("MAX_DEPOSIT_REQUESTS_PER_PAYLOAD"%string, 8192);
  ("MAX_WITHDRAWAL_REQUESTS_PER_PAYLOAD"%string, 16);
  ("MAX_PENDING_PARTIALS_PER_WITHDRAWALS_SWEEP"%string, 8);
  ("MAX_PENDING_DEPOSITS_PER_EPOCH"%string, 16)].

Definition gnosis_phase0 : list (string * N) := [
  ("MAX_COMMITTEES_PER_SLOT"%string, 64);
  ("TARGET_COMMITTEE_SIZE"%string, 128);
  ("MAX_VALIDATORS_PER_COMMITTEE"%string, 2048);
  ("SHUFFLE_ROUND_COUNT"%string, 90);
  ("HYSTERESIS_QUOTIENT"%string, 4);
  ("HYSTERESIS_DOWNWARD_MULTIPLIER"%string, 1);
  ("HYSTERESIS_UPWARD_MULTIPLIER"%string, 5);
  ("SAFE_SLOTS_TO_UPDATE_JUSTIFIED"%string, 8);
  ("MIN_DEPOSIT_AMOUNT"%string, 1000000000);
  ("MAX_EFFECTIVE_BALANCE"%string, 32000000000);
  ("EFFECTIVE_BALANCE_INCREMENT"%string, 1000000000);
  ("MIN_ATTESTATION_INCLUSION_DELAY"%string, 1);
  ("SLOTS_PER_EPOCH"%string, 16);
  ("MIN_SEED_LOOKAHEAD"%string, 1);
  ("MAX_SEED_LOOKAHEAD"%string, 4);
  ("EPOCHS_PER_ETH1_VOTING_PERIOD"%string, 64);
  ("SLOTS_PER_HISTORICAL_ROOT"%string, 8192);
  ("MIN_EPOCHS_TO_INACTIVITY_PENALTY"%string, 4);
  ("EPOCHS_PER_HISTORICAL_VECTOR"%string, 65536);
  ("EPOCHS_PER_SLASHINGS_VECTOR"%string, 8192);
  ("HISTORICAL_ROOTS_LIMIT"%string, 16777216);
  ("VALIDATOR_REGISTRY_LIMIT"%string, 1099511627776);
  ("BASE_REWARD_FACTOR"%string, 25);
  ("WHISTLEBLOWER_REWARD_QUOTIENT"%string, 512);
  ("PROPOSER_REWARD_QUOTIENT"%string, 8);
  ("INACTIVITY_PENALTY_QUOTIENT"%string, 67108864);
  ("MIN_SLASHING_PENALTY_QUOTIENT"%string, 128);
  ("PROPORTIONAL_SLASHING_MULTIPLIER"%string, 1);
  ("MAX_PROPOSER_SLASHINGS"%string, 16);
  ("MAX_ATTESTER_SLASHINGS"%string, 2);
  ("MAX_ATTESTATIONS"%string, 128);
  ("MAX_DEPOSITS"%string, 16);
  ("MAX_VOLUNTARY_EXITS"%string, 16)].

Definition gnosis_preset : list (string * N) :=
  gnosis_altair ++ gnosis_bellatrix ++ gnosis_capella ++ gnosis_deneb ++ gnosis_electra ++ gnosis_phase0.

(** The constants of [Config] under the names the YAML files give them. *)
Definition config_keys : list (string * (Config -> N)) := [
  ("JUSTIFICATION_BITS_LENGTH"%string, JustificationBitsLength);
  ("SUBNET_BITFIELD_LENGTH"%string, SubnetBitfieldLength);
  ("MAX_VALIDATORS_PER_COMMITTEE"%string, MaxValidatorsPerCommittee);
  ("GENESIS_EPOCH"%string, GenesisEpoch);
  ("SLOTS_PER_EPOCH"%string, SlotsPerEpoch);
  ("EPOCHS_PER_ETH1_VOTING_PERIOD"%string, EpochsPerEth1VotingPeriod);
  ("SLOTS_PER_HISTORICAL_ROOT"%string, SlotsPerHistoricalRoot);
  ("EPOCHS_PER_HISTORICAL_VECTOR"%string, EpochsPerHistoricalVector);
  ("EPOCHS_PER_SLASHINGS_VECTOR"%string, EpochsPerSlashingsVector);
  ("HISTORICAL_ROOTS_LIMIT"%string, HistoricalRootsLimit);
  ("VALIDATOR_REGISTRY_LIMIT"%string, ValidatorRegistryLimit);
  ("MAX_PROPOSER_SLASHINGS"%string, MaxProposerSlashings);
  ("MAX_ATTESTER_SLASHINGS"%string, MaxAttesterSlashings);
  ("MAX_ATTESTATIONS"%string, MaxAttestations);
  ("MAX_DEPOSITS"%string, MaxDeposits);
  ("MAX_VOLUNTARY_EXITS"%string, MaxVoluntaryExits);
  ("SYNC_COMMITTEE_SIZE"%string, SyncCommitteeSize);
  ("SYNC_COMMITTEE_SUBNET_COUNT"%string, SyncCommitteeSubnetCount);
  ("ATTESTATION_SUBNET_COUNT"%string, AttestationSubnetCount);
  ("MAX_BYTES_PER_TRANSACTION"%string, MaxBytesPerTransaction);
  ("MAX_TRANSACTIONS_PER_PAYLOAD"%string, MaxTransactionsPerPayload);
  ("BYTES_PER_LOGS_BLOOM"%string, BytesPerLogsBloom);
  ("GAS_LIMIT_DENOMINATOR"%string, GasLimitDenominator);
  ("MIN_GAS_LIMIT"%string, MinGasLimit);
  ("MAX_EXTRA_DATA_BYTES"%string, MaxExtraDataBytes);
  ("MAX_BLS_TO_EXECUTION_CHANGES"%string, MaxBlsToExecutionChanges);
  ("MAX_WITHDRAWALS_PER_PAYLOAD"%string, MaxWithdrawalsPerPayload);
  ("MAX_BLOBS_PER_BLOCK"%string, MaxBlobsPerBlock);
  ("MAX_BLOB_COMMITMENTS_PER_BLOCK"%string, MaxBlobCommitmentsPerBlock);
  ("FIELD_ELEMENTS_PER_BLOB"%string, FieldElementsPerBlob);
  ("BYTES_PER_FIELD_ELEMENT"%string, BytesPerFieldElement);
  ("KZG_COMMITMENT_INCLUSION_PROOF_DEPTH"%string, KzgCommitmentInclusionProofDepth);
  ("MAX_COMMITTEES_PER_SLOT"%string, MaxCommitteesPerSlot);
  ("MAX_CONSOLIDATION_REQUESTS_PER_PAYLOAD"%string, MaxConsolidationRequestsPerPayload);
  ("MAX_DEPOSIT_REQUESTS_PER_PAYLOAD"%string, MaxDepositRequestsPerPayload);
  ("MAX_WITHDRAWAL_REQUESTS_PER_PAYLOAD"%string, MaxWithdrawalRequestsPerPayload);
  ("PENDING_DEPOSITS_LIMIT"%string, PendingDepositsLimit);
  ("PENDING_PARTIAL_WITHDRAWALS_LIMIT"%string, PendingPartialWithdrawalsLimit);
  ("PENDING_CONSOLIDATIONS_LIMIT"%string, PendingConsolidationsLimit);
  ("MAX_ATTESTER_SLASHINGS_ELECTRA"%string, MaxAttesterSlashingsElectra);
  ("MAX_ATTESTATIONS_ELECTRA"%string, MaxAttestationsElectra);
  ("MAX_VALIDATORS_PER_SLOT"%string, MaxValidatorsPerSlot);
  ("SYNC_SUBCOMMITTEE_SIZE"%string, SyncSubcommitteeSize);
  ("MAX_PENDING_ATTESTATIONS"%string, MaxPendingAttestations);
  ("SLOTS_PER_ETH1_VOTING_PERIOD"%string, SlotsPerEth1VotingPeriod);
  ("BYTES_PER_BLOB"%string, BytesPerBlob)].

Definition presets : list (Config * list (string * N)) :=
  [(Mainnet, mainnet_preset); (Minimal, minimal_preset); (Gnosis, gnosis_preset)].

(** Every constant a preset file gives has the value compiled into the NIF. *)
Definition agrees (C : Config) (preset : list (string * N)) : bool :=
  forallb (fun '(k, get) =>
    forallb (fun '(k', v) => negb (String.eqb k k') || (get C =? v)) preset) config_keys.

(** The constants of the trait no file of a preset gives. *)
Definition not_in_preset (preset : list (string * N)) : list string :=
  filter (fun k => k ∉ map fst preset) (map fst config_keys).

Lemma agrees_spec C preset key get v :
  agrees C preset = true -> (key, get) ∈ config_keys -> (key, v) ∈ preset -> get C = v.
Proof.
  unfold agrees. rewrite forallb_forall. intros H Hk Hv.
  apply list_elem_of_In, H in Hk. rewrite forallb_forall in Hk.
  apply list_elem_of_In, Hk in Hv. rewrite String.eqb_refl in Hv. by apply N.eqb_eq.
Qed.

(** C15: the NIF and the node agree on the presets.  For each of the three
    configurations, every constant of [Config] that a YAML file of the preset
    names has the file's value, and the constants the mainnet files leave out
    are the fixed protocol constants and the derived ones. *)
Theorem config_agrees_with_presets :
  Forall (fun p => forall key get v,
    (key, get) ∈ config_keys -> (key, v) ∈ p.2 -> get p.1 = v) presets
  /\ not_in_preset mainnet_preset =
     ["JUSTIFICATION_BITS_LENGTH"; "SUBNET_BITFIELD_LENGTH"; "GENESIS_EPOCH";
      "SYNC_COMMITTEE_SUBNET_COUNT"; "ATTESTATION_SUBNET_COUNT"; "GAS_LIMIT_DENOMINATOR";
      "MIN_GAS_LIMIT"; "BYTES_PER_FIELD_ELEMENT"; "MAX_VALIDATORS_PER_SLOT";
      "SYNC_SUBCOMMITTEE_SIZE"; "MAX_PENDING_ATTESTATIONS"; "SLOTS_PER_ETH1_VOTING_PERIOD";
      "BYTES_PER_BLOB"]%string.
Proof.
  split; [|by vm_compute].
  repeat constructor; intros key get v; apply agrees_spec; by vm_compute.
Qed.
