(* ===== verification/Schema.v ===== *)
(** * Types of the SSZ NIF and their values

    The [ssz_types] structs and the [elx_types] structs are declared in a small
    language of types: primitive integers, byte arrays, the collections of the
    [ssz_types] crate, rustler's [Binary] and [Vec], and structs of named
    fields.  [ssz_ty] and [elx_ty] are that language, one constructor per type
    former the two modules use; [sval] and [eval] are the values a type has.

    A struct is the tuple of its fields; the names stay in the type.  What the
    Rust types guarantee of a value but the carrier here does not (an integer
    fits its width, a [[u8; N]] has [N] bytes, a [VariableList<T, N>] at most
    [N] elements) is the well-formedness predicate [sok] (and [eok] for the
    Elixir side). *)
From Stdlib Require Import Init.Byte.
From S2P Require Import Prelude.

(** ** Structs: a tuple of fields, each of a type given by its code *)
Section fields.
Context {T : Type}.

Fixpoint tuple (den : T -> Type) (fs : list (string * T)) : Type :=
match fs with
| [] => unit
| (_, t) :: fs => (den t * tuple den fs)%type
end.

(** A predicate on every field of a tuple. *)
Fixpoint tuple_all (den : T -> Type) (ok : forall t, den t -> bool)
  (fs : list (string * T)) : tuple den fs -> bool :=
match fs with
| [] => fun _ => true
| (_, t) :: fs => fun v => ok t v.1 && tuple_all den ok fs v.2
end.
End fields.

(** ** The [ssz_types] side *)
Inductive ssz_ty : Type :=
| SBool
| SU8
| SU16
| SU32
| SU64
| SArray (n : N)                                   (* [[u8; N]] *)
| SFixedVector (t : ssz_ty) (n : N)
| SVariableList (t : ssz_ty) (n : N)
| SBitList (n : N)
| SBitVector (n : N)
| SVec (t : ssz_ty)                                (* [Vec<T>] *)
| SUint256
| SStruct (name : string) (fields : list (string * ssz_ty)).

Fixpoint sval (t : ssz_ty) : Type :=
  match t with
  | SBool => bool
  | SU8 => byte
  | SU16 | SU32 | SU64 => Z
  | SArray _ => bytes
  | SFixedVector t _ | SVariableList t _ | SVec t => list (sval t)
  | SBitList _ | SBitVector _ => list bool
  | SUint256 => bytes
  | SStruct _ fs => tuple sval fs
  end.

Definition fits_width (w : Z) (z : Z) : bool := ((0 <=? z) && (z <? 2 ^ w))%Z.

Fixpoint sok (t : ssz_ty) : sval t -> bool :=
  match t with
  | SBool | SU8 => fun _ => true
  | SU16 => fits_width 16
  | SU32 => fits_width 32
  | SU64 => fits_width 64
  | SArray n => fun v => (nlen v =? n)%N
  | SFixedVector t n => fun v : list (sval t) => ((nlen v =? n)%N && forallb (sok t) v)
  | SVariableList t n => fun v : list (sval t) => ((nlen v <=? n)%N && forallb (sok t) v)
  | SBitList n => fun v => (nlen v <=? n)%N
  | SBitVector n => fun v => (nlen v =? n)%N
  | SVec t => fun v : list (sval t) => forallb (sok t) v
  | SUint256 => fun v => (nlen v =? 32)%N
  | SStruct _ fs => tuple_all sval sok fs
  end.

(** ** The [elx_types] side *)
Inductive elx_ty : Type :=
| EBool
| EU8
| EU16
| EU32
| EU64
| EBinary                                          (* [Binary<'a>] *)
| EVec (t : elx_ty)                                (* [Vec<T>] *)
| EStruct (name : string) (module : string) (fields : list (string * elx_ty)).

Fixpoint eval (t : elx_ty) : Type :=
  match t with
  | EBool => bool
  | EU8 => byte
  | EU16 | EU32 | EU64 => Z
  | EBinary => bytes
  | EVec t => list (eval t)
  | EStruct _ _ fs => tuple eval fs
  end.

Fixpoint eok (t : elx_ty) : eval t -> bool :=
  match t with
  | EBool | EU8 | EBinary => fun _ => true
  | EU16 => fits_width 16
  | EU32 => fits_width 32
  | EU64 => fits_width 64
  | EVec t => fun v : list (eval t) => forallb (eok t) v
  | EStruct _ _ fs => tuple_all eval eok fs
  end.

(** A Rust [Vec] on the Elixir side: the only values that are Erlang lists. *)
Definition is_vec (e : elx_ty) : bool :=
  match e with EVec _ => true | _ => false end.

(** ** Induction on types, through the fields of structs *)
Section ssz_induction.
Variable P : ssz_ty -> Prop.
Hypothesis Hbool : P SBool.
Hypothesis Hu8 : P SU8.
Hypothesis Hu16 : P SU16.
Hypothesis Hu32 : P SU32.
Hypothesis Hu64 : P SU64.
Hypothesis Harray : forall n, P (SArray n).
Hypothesis Hfixed : forall t n, P t -> P (SFixedVector t n).
Hypothesis Hvar : forall t n, P t -> P (SVariableList t n).
Hypothesis Hbitlist : forall n, P (SBitList n).
Hypothesis Hbitvector : forall n, P (SBitVector n).
Hypothesis Hvec : forall t, P t -> P (SVec t).
Hypothesis Huint : P SUint256.
Hypothesis Hstruct : forall name fs,
  Forall (fun f => P f.2) fs -> P (SStruct name fs).

Fixpoint ssz_ty_ind' (t : ssz_ty) : P t :=
  match t with
  | SBool => Hbool
  | SU8 => Hu8
  | SU16 => Hu16
  | SU32 => Hu32
  | SU64 => Hu64
  | SArray n => Harray n
  | SFixedVector t n => Hfixed t n (ssz_ty_ind' t)
  | SVariableList t n => Hvar t n (ssz_ty_ind' t)
  | SBitList n => Hbitlist n
  | SBitVector n => Hbitvector n
  | SVec t => Hvec t (ssz_ty_ind' t)
  | SUint256 => Huint
  | SStruct name fs =>
      Hstruct name fs
        ((fix go (fs : list (string * ssz_ty)) : Forall (fun f => P f.2) fs :=
            match fs with
            | [] => Forall_nil_2 _
            | f :: fs => Forall_cons_2 _ f fs (ssz_ty_ind' f.2) (go fs)
            end) fs)
  end.
End ssz_induction.

Section elx_induction.
Variable P : elx_ty -> Prop.
Hypothesis Hbool : P EBool.
Hypothesis Hu8 : P EU8.
Hypothesis Hu16 : P EU16.
Hypothesis Hu32 : P EU32.
Hypothesis Hu64 : P EU64.
Hypothesis Hbinary : P EBinary.
Hypothesis Hvec : forall t, P t -> P (EVec t).
Hypothesis Hstruct : forall name module fs,
  Forall (fun f => P f.2) fs -> P (EStruct name module fs).

Fixpoint elx_ty_ind' (t : elx_ty) : P t :=
  match t with
  | EBool => Hbool
  | EU8 => Hu8
  | EU16 => Hu16
  | EU32 => Hu32
  | EU64 => Hu64
  | EBinary => Hbinary
  | EVec t => Hvec t (elx_ty_ind' t)
  | EStruct name module fs =>
      Hstruct name module fs
        ((fix go (fs : list (string * elx_ty)) : Forall (fun f => P f.2) fs :=
            match fs with
            | [] => Forall_nil_2 _
            | f :: fs => Forall_cons_2 _ f fs (elx_ty_ind' f.2) (go fs)
            end) fs)
  end.
End elx_induction.

(** ** Fields by name *)
Definition field_names {T} (fs : list (string * T)) : list string := map fst fs.

Definition ssz_fields (t : ssz_ty) : list (string * ssz_ty) :=
  match t with SStruct _ fs => fs | _ => [] end.
Definition elx_fields (t : elx_ty) : list (string * elx_ty) :=
  match t with EStruct _ _ fs => fs | _ => [] end.

Definition ssz_name (t : ssz_ty) : option string :=
  match t with SStruct n _ => Some n | _ => None end.
Definition elx_module (t : elx_ty) : option string :=
  match t with EStruct _ m _ => Some m | _ => None end.
