(* ===== verification/SszTypes.v ===== *)
(** * SSZ types: [native/ssz_nif/src/ssz_types]

    Structs that derive [Encode], [Decode] and [TreeHash], one definition per
    struct and per type alias, with the fields in declaration order.  A struct
    generic in [C: Config] is a function of the configuration.  Definitions
    come in dependency order, which moves [BeaconBlockBody] and
    [ExecutionRequests] before the structs that use them. *)
From S2P Require Import Prelude Config Schema.
#[local] Open Scope string_scope.

(** ** Aliases, [ssz_types/mod.rs] *)
Definition Bytes4 : ssz_ty := SArray 4.
Definition Bytes20 : ssz_ty := SFixedVector SU8 20.
Definition Bytes32 : ssz_ty := SArray 32.
Definition Bytes48 : ssz_ty := SFixedVector SU8 48.
Definition Bytes96 : ssz_ty := SFixedVector SU8 96.
Definition Slot : ssz_ty := SU64.
Definition Epoch : ssz_ty := SU64.
Definition CommitteeIndex : ssz_ty := SU64.
Definition ValidatorIndex : ssz_ty := SU64.
Definition Gwei : ssz_ty := SU64.
Definition Root : ssz_ty := Bytes32.
Definition Hash32 : ssz_ty := Bytes32.
Definition Version : ssz_ty := Bytes4.
Definition DomainType : ssz_ty := Bytes4.
Definition ForkDigest : ssz_ty := Bytes4.
Definition Domain : ssz_ty := Bytes32.
Definition BLSPubkey : ssz_ty := Bytes48.
Definition BLSSignature : ssz_ty := Bytes96.
Definition ParticipationFlags : ssz_ty := SU8.
Definition Transaction : ssz_ty := SVariableList SU8 1073741824.
Definition ExecutionAddress : ssz_ty := Bytes20.
Definition WithdrawalIndex : ssz_ty := SU64.
Definition KZGCommitment : ssz_ty := Bytes48.
Definition KZGProof : ssz_ty := Bytes48.
Definition BlobIndex : ssz_ty := SU64.
Definition Blob (C : Config) : ssz_ty := SFixedVector SU8 (BytesPerBlob C).

(** [struct Uint256([u8; 32])], a little-endian 256-bit integer; its SSZ
    encoding is transparent and its [TreeHash] is that of the array. *)
Definition Uint256 : ssz_ty := SUint256.

(** ** Structs, [ssz_types/beacon_chain.rs], [p2p.rs] and [validator.rs] *)

Definition Fork : ssz_ty := SStruct "Fork" [
  ("previous_version", Version);
  ("current_version", Version);
  ("epoch", Epoch)].

Definition ForkData : ssz_ty := SStruct "ForkData" [
  ("current_version", Version);
  ("genesis_validators_root", Root)].

Definition Checkpoint : ssz_ty := SStruct "Checkpoint" [
  ("epoch", Epoch);
  ("root", Root)].

Definition Validator : ssz_ty := SStruct "Validator" [
  ("pubkey", BLSPubkey);
  ("withdrawal_credentials", Bytes32);
  ("effective_balance", Gwei);
  ("slashed", SBool);
  ("activation_eligibility_epoch", Epoch);
  ("activation_epoch", Epoch);
  ("exit_epoch", Epoch);
  ("withdrawable_epoch", Epoch)].

Definition AttestationData : ssz_ty := SStruct "AttestationData" [
  ("slot", Slot);
  ("index", CommitteeIndex);
  ("beacon_block_root", Root);
  ("source", Checkpoint);
  ("target", Checkpoint)].

Definition IndexedAttestation (C : Config) : ssz_ty := SStruct "IndexedAttestation" [
  ("attesting_indices", SVariableList ValidatorIndex (MaxValidatorsPerSlot C));
  ("data", AttestationData);
  ("signature", BLSSignature)].

Definition PendingAttestation (C : Config) : ssz_ty := SStruct "PendingAttestation" [
  ("aggregation_bits", SBitList (MaxValidatorsPerCommittee C));
  ("data", AttestationData);
  ("inclusion_delay", Slot);
  ("proposer_index", ValidatorIndex)].

Definition Eth1Data : ssz_ty := SStruct "Eth1Data" [
  ("deposit_root", Root);
  ("deposit_count", SU64);
  ("block_hash", Hash32)].

Definition HistoricalBatch (C : Config) : ssz_ty := SStruct "HistoricalBatch" [
  ("block_roots", SFixedVector Root (SlotsPerHistoricalRoot C));
  ("state_roots", SFixedVector Root (SlotsPerHistoricalRoot C))].

Definition DepositMessage : ssz_ty := SStruct "DepositMessage" [
  ("pubkey", BLSPubkey);
  ("withdrawal_credentials", Bytes32);
  ("amount", Gwei)].

Definition DepositData : ssz_ty := SStruct "DepositData" [
  ("pubkey", BLSPubkey);
  ("withdrawal_credentials", Bytes32);
  ("amount", Gwei);
  ("signature", BLSSignature)].

Definition HistoricalSummary : ssz_ty := SStruct "HistoricalSummary" [
  ("block_summary_root", Root);
  ("state_summary_root", Root)].

Definition Deposit : ssz_ty := SStruct "Deposit" [
  ("proof", SFixedVector Bytes32 33);
  ("data", DepositData)].

Definition VoluntaryExit : ssz_ty := SStruct "VoluntaryExit" [
  ("epoch", Epoch);
  ("validator_index", ValidatorIndex)].

Definition Attestation (C : Config) : ssz_ty := SStruct "Attestation" [
  ("aggregation_bits", SBitList (MaxValidatorsPerSlot C));
  ("data", AttestationData);
  ("signature", BLSSignature);
  ("committee_bits", SBitVector (MaxCommitteesPerSlot C))].

Definition AttesterSlashing (C : Config) : ssz_ty := SStruct "AttesterSlashing" [
  ("attestation_1", IndexedAttestation C);
  ("attestation_2", IndexedAttestation C)].

Definition BLSToExecutionChange : ssz_ty := SStruct "BLSToExecutionChange" [
  ("validator_index", ValidatorIndex);
  ("from_bls_pubkey", BLSPubkey);
  ("to_execution_address", ExecutionAddress)].

Definition SignedBLSToExecutionChange : ssz_ty := SStruct "SignedBLSToExecutionChange" [
  ("message", BLSToExecutionChange);
  ("signature", BLSSignature)].

Definition SignedVoluntaryExit : ssz_ty := SStruct "SignedVoluntaryExit" [
  ("message", VoluntaryExit);
  ("signature", BLSSignature)].

Definition BeaconBlockHeader : ssz_ty := SStruct "BeaconBlockHeader" [
  ("slot", Slot);
  ("proposer_index", ValidatorIndex);
  ("parent_root", Root);
  ("state_root", Root);
  ("body_root", Root)].

Definition SignedBeaconBlockHeader : ssz_ty := SStruct "SignedBeaconBlockHeader" [
  ("message", BeaconBlockHeader);
  ("signature", BLSSignature)].

Definition ProposerSlashing : ssz_ty := SStruct "ProposerSlashing" [
  ("signed_header_1", SignedBeaconBlockHeader);
  ("signed_header_2", SignedBeaconBlockHeader)].

Definition SyncAggregate (C : Config) : ssz_ty := SStruct "SyncAggregate" [
  ("sync_committee_bits", SBitVector (SyncCommitteeSize C));
  ("sync_committee_signature", BLSSignature)].

Definition Withdrawal : ssz_ty := SStruct "Withdrawal" [
  ("index", WithdrawalIndex);
  ("validator_index", ValidatorIndex);
  ("address", ExecutionAddress);
  ("amount", Gwei)].

Definition ExecutionPayload (C : Config) : ssz_ty := SStruct "ExecutionPayload" [
  ("parent_hash", Hash32);
  ("fee_recipient", ExecutionAddress);
  ("state_root", Root);
  ("receipts_root", Root);
  ("logs_bloom", SFixedVector SU8 (BytesPerLogsBloom C));
  ("prev_randao", Bytes32);
  ("block_number", SU64);
  ("gas_limit", SU64);
  ("gas_used", SU64);
  ("timestamp", SU64);
  ("extra_data", SVariableList SU8 (MaxExtraDataBytes C));
  ("base_fee_per_gas", Uint256);
  ("block_hash", Hash32);
  ("transactions", SVariableList Transaction (MaxTransactionsPerPayload C));
  ("withdrawals", SVariableList Withdrawal (MaxWithdrawalsPerPayload C));
  ("blob_gas_used", SU64);
  ("excess_blob_gas", SU64)].

Definition DepositRequest : ssz_ty := SStruct "DepositRequest" [
  ("pubkey", BLSPubkey);
  ("withdrawal_credentials", Bytes32);
  ("amount", Gwei);
  ("signature", BLSSignature);
  ("index", SU64)].

Definition WithdrawalRequest : ssz_ty := SStruct "WithdrawalRequest" [
  ("source_address", ExecutionAddress);
  ("validator_pubkey", BLSPubkey);
  ("amount", Gwei)].

Definition ConsolidationRequest : ssz_ty := SStruct "ConsolidationRequest" [
  ("source_address", ExecutionAddress);
  ("source_pubkey", BLSPubkey);
  ("target_pubkey", BLSPubkey)].

Definition ExecutionRequests (C : Config) : ssz_ty := SStruct "ExecutionRequests" [
  ("deposits", SVariableList DepositRequest (MaxDepositRequestsPerPayload C));
  ("withdrawals", SVariableList WithdrawalRequest (MaxWithdrawalRequestsPerPayload C));
  ("consolidations", SVariableList ConsolidationRequest (MaxConsolidationRequestsPerPayload C))].

Definition BeaconBlockBody (C : Config) : ssz_ty := SStruct "BeaconBlockBody" [
  ("randao_reveal", BLSSignature);
  ("eth1_data", Eth1Data);
  ("graffiti", Bytes32);
  ("proposer_slashings", SVariableList ProposerSlashing (MaxProposerSlashings C));
  ("attester_slashings", SVariableList (AttesterSlashing C) (MaxAttesterSlashingsElectra C));
  ("attestations", SVariableList (Attestation C) (MaxAttestationsElectra C));
  ("deposits", SVariableList Deposit (MaxDeposits C));
  ("voluntary_exits", SVariableList SignedVoluntaryExit (MaxVoluntaryExits C));
  ("sync_aggregate", SyncAggregate C);
  ("execution_payload", ExecutionPayload C);
  ("bls_to_execution_changes", SVariableList SignedBLSToExecutionChange (MaxBlsToExecutionChanges C));
  ("blob_kzg_commitments", SVariableList KZGCommitment (MaxBlobCommitmentsPerBlock C));
  ("execution_requests", ExecutionRequests C)].

Definition BeaconBlock (C : Config) : ssz_ty := SStruct "BeaconBlock" [
  ("slot", Slot);
  ("proposer_index", ValidatorIndex);
  ("parent_root", Root);
  ("state_root", Root);
  ("body", BeaconBlockBody C)].

Definition SignedBeaconBlock (C : Config) : ssz_ty := SStruct "SignedBeaconBlock" [
  ("message", BeaconBlock C);
  ("signature", BLSSignature)].

Definition SigningData : ssz_ty := SStruct "SigningData" [
  ("object_root", Root);
  ("domain", Domain)].

Definition ExecutionPayloadHeader (C : Config) : ssz_ty := SStruct "ExecutionPayloadHeader" [
  ("parent_hash", Hash32);
  ("fee_recipient", ExecutionAddress);
  ("state_root", Root);
  ("receipts_root", Root);
  ("logs_bloom", SFixedVector SU8 (BytesPerLogsBloom C));
  ("prev_randao", Bytes32);
  ("block_number", SU64);
  ("gas_limit", SU64);
  ("gas_used", SU64);
  ("timestamp", SU64);
  ("extra_data", SVariableList SU8 (MaxExtraDataBytes C));
  ("base_fee_per_gas", Uint256);
  ("block_hash", Hash32);
  ("transactions_root", Root);
  ("withdrawals_root", Root);
  ("blob_gas_used", SU64);
  ("excess_blob_gas", SU64)].

Definition SyncCommittee (C : Config) : ssz_ty := SStruct "SyncCommittee" [
  ("pubkeys", SFixedVector BLSPubkey (SyncCommitteeSize C));
  ("aggregate_pubkey", BLSPubkey)].

Definition PendingDeposit : ssz_ty := SStruct "PendingDeposit" [
  ("pubkey", BLSPubkey);
  ("withdrawal_credentials", Bytes32);
  ("amount", Gwei);
  ("signature", BLSSignature);
  ("slot", Slot)].

Definition PendingPartialWithdrawal : ssz_ty := SStruct "PendingPartialWithdrawal" [
  ("validator_index", ValidatorIndex);
  ("amount", Gwei);
  ("withdrawable_epoch", Epoch)].

Definition PendingConsolidation : ssz_ty := SStruct "PendingConsolidation" [
  ("source_index", ValidatorIndex);
  ("target_index", ValidatorIndex)].

Definition SingleAttestation : ssz_ty := SStruct "SingleAttestation" [
  ("committee_index", CommitteeIndex);
  ("attester_index", ValidatorIndex);
  ("data", AttestationData);
  ("signature", BLSSignature)].

Definition BeaconState (C : Config) : ssz_ty := SStruct "BeaconState" [
  ("genesis_time", SU64);
  ("genesis_validators_root", Root);
  ("slot", Slot);
  ("fork", Fork);
  ("latest_block_header", BeaconBlockHeader);
  ("block_roots", SFixedVector Root (SlotsPerHistoricalRoot C));
  ("state_roots", SFixedVector Root (SlotsPerHistoricalRoot C));
  ("historical_roots", SVariableList Root (HistoricalRootsLimit C));
  ("eth1_data", Eth1Data);
  ("eth1_data_votes", SVariableList Eth1Data (SlotsPerEth1VotingPeriod C));
  ("eth1_deposit_index", SU64);
  ("validators", SVariableList Validator (ValidatorRegistryLimit C));
  ("balances", SVariableList Gwei (ValidatorRegistryLimit C));
  ("randao_mixes", SFixedVector Bytes32 (EpochsPerHistoricalVector C));
  ("slashings", SFixedVector Gwei (EpochsPerSlashingsVector C));
  ("previous_epoch_participation", SVariableList ParticipationFlags (ValidatorRegistryLimit C));
  ("current_epoch_participation", SVariableList ParticipationFlags (ValidatorRegistryLimit C));
  ("justification_bits", SBitVector (JustificationBitsLength C));
  ("previous_justified_checkpoint", Checkpoint);
  ("current_justified_checkpoint", Checkpoint);
  ("finalized_checkpoint", Checkpoint);
  ("inactivity_scores", SVariableList SU64 (ValidatorRegistryLimit C));
  ("current_sync_committee", SyncCommittee C);
  ("next_sync_committee", SyncCommittee C);
  ("latest_execution_payload_header", ExecutionPayloadHeader C);
  ("next_withdrawal_index", WithdrawalIndex);
  ("next_withdrawal_validator_index", ValidatorIndex);
  ("historical_summaries", SVariableList HistoricalSummary (HistoricalRootsLimit C));
  ("deposit_requests_start_index", SU64);
  ("deposit_balance_to_consume", Gwei);
  ("exit_balance_to_consume", Gwei);
  ("earliest_exit_epoch", Epoch);
  ("consolidation_balance_to_consume", Gwei);
  ("earliest_consolidation_epoch", Epoch);
  ("pending_deposits", SVariableList PendingDeposit (PendingDepositsLimit C));
  ("pending_partial_withdrawals", SVariableList PendingPartialWithdrawal (PendingPartialWithdrawalsLimit C));
  ("pending_consolidations", SVariableList PendingConsolidation (PendingConsolidationsLimit C))].

Definition StatusMessage : ssz_ty := SStruct "StatusMessage" [
  ("fork_digest", ForkDigest);
  ("finalized_root", Root);
  ("finalized_epoch", Epoch);
  ("head_root", Root);
  ("head_slot", Slot)].

Definition BeaconBlocksByRangeRequest : ssz_ty := SStruct "BeaconBlocksByRangeRequest" [
  ("start_slot", Slot);
  ("count", SU64);
  ("step", SU64)].

Definition Metadata (C : Config) : ssz_ty := SStruct "Metadata" [
  ("seq_number", SU64);
  ("attnets", SBitVector (AttestationSubnetCount C));
  ("syncnets", SBitVector (SyncCommitteeSubnetCount C))].

Definition BlobSidecar (C : Config) : ssz_ty := SStruct "BlobSidecar" [
  ("index", BlobIndex);
  ("blob", Blob C);
  ("kzg_commitment", KZGCommitment);
  ("kzg_proof", KZGProof);
  ("signed_block_header", SignedBeaconBlockHeader);
  ("kzg_commitment_inclusion_proof", SFixedVector Bytes32 (KzgCommitmentInclusionProofDepth C))].

Definition BlobIdentifier : ssz_ty := SStruct "BlobIdentifier" [
  ("block_root", Root);
  ("index", BlobIndex)].

Definition AggregateAndProof (C : Config) : ssz_ty := SStruct "AggregateAndProof" [
  ("aggregator_index", ValidatorIndex);
  ("aggregate", Attestation C);
  ("selection_proof", BLSSignature)].

Definition SignedAggregateAndProof (C : Config) : ssz_ty := SStruct "SignedAggregateAndProof" [
  ("message", AggregateAndProof C);
  ("signature", BLSSignature)].

Definition SyncCommitteeMessage : ssz_ty := SStruct "SyncCommitteeMessage" [
  ("slot", Slot);
  ("beacon_block_root", Root);
  ("validator_index", ValidatorIndex);
  ("signature", BLSSignature)].

Definition SyncCommitteeContribution (C : Config) : ssz_ty := SStruct "SyncCommitteeContribution" [
  ("slot", Slot);
  ("beacon_block_root", Root);
  ("subcommittee_index", SU64);
  ("aggregation_bits", SBitVector (SyncSubcommitteeSize C));
  ("signature", BLSSignature)].

Definition ContributionAndProof (C : Config) : ssz_ty := SStruct "ContributionAndProof" [
  ("aggregator_index", ValidatorIndex);
  ("contribution", SyncCommitteeContribution C);
  ("selection_proof", BLSSignature)].

Definition SignedContributionAndProof (C : Config) : ssz_ty := SStruct "SignedContributionAndProof" [
  ("message", ContributionAndProof C);
  ("signature", BLSSignature)].
