(* ===== verification/ElxTypes.v ===== *)
(** * Elixir types: [native/ssz_nif/src/elx_types]

    Structs that derive rustler's [NifStruct]: the struct name, the Elixir
    module of its [#[module]] attribute, and the fields in declaration order.
    Every fixed or bounded byte string of the SSZ side is a [Binary] here and
    every collection a [Vec], so nothing of the bounds is left. *)
From S2P Require Import Prelude Schema.
#[local] Open Scope string_scope.

(** ** Aliases, [elx_types/mod.rs] *)
Definition Bytes4 : elx_ty := EBinary.
Definition Bytes20 : elx_ty := EBinary.
Definition Bytes32 : elx_ty := EBinary.
Definition Bytes48 : elx_ty := EBinary.
Definition Bytes96 : elx_ty := EBinary.
Definition Slot : elx_ty := EU64.
Definition Epoch : elx_ty := EU64.
Definition CommitteeIndex : elx_ty := EU64.
Definition ValidatorIndex : elx_ty := EU64.
Definition Gwei : elx_ty := EU64.
Definition Root : elx_ty := Bytes32.
Definition Hash32 : elx_ty := Bytes32.
Definition Version : elx_ty := Bytes4.
Definition DomainType : elx_ty := Bytes4.
Definition ForkDigest : elx_ty := Bytes4.
Definition Domain : elx_ty := Bytes32.
Definition BLSPubkey : elx_ty := Bytes48.
Definition BLSSignature : elx_ty := Bytes96.
Definition ParticipationFlags : elx_ty := EU8.
Definition Transaction : elx_ty := EBinary.
Definition ExecutionAddress : elx_ty := Bytes20.
Definition WithdrawalIndex : elx_ty := EU64.
Definition KZGCommitment : elx_ty := Bytes48.
Definition KZGProof : elx_ty := Bytes48.
Definition BlobIndex : elx_ty := EU64.
Definition Blob : elx_ty := EBinary.
Definition Uint256 : elx_ty := EBinary.

(** ** Structs, [elx_types/beacon_chain.rs], [p2p.rs] and [validator.rs] *)

Definition Fork : elx_ty := EStruct "Fork" "Types.Fork" [
  ("previous_version", Version);
  ("current_version", Version);
  ("epoch", Epoch)].

Definition ForkData : elx_ty := EStruct "ForkData" "Types.ForkData" [
  ("current_version", Version);
  ("genesis_validators_root", Root)].

Definition Checkpoint : elx_ty := EStruct "Checkpoint" "Types.Checkpoint" [
  ("epoch", Epoch);
  ("root", Root)].

Definition Validator : elx_ty := EStruct "Validator" "Types.Validator" [
  ("pubkey", BLSPubkey);
  ("withdrawal_credentials", Bytes32);
  ("effective_balance", Gwei);
  ("slashed", EBool);
  ("activation_eligibility_epoch", Epoch);
  ("activation_epoch", Epoch);
  ("exit_epoch", Epoch);
  ("withdrawable_epoch", Epoch)].

Definition AttestationData : elx_ty := EStruct "AttestationData" "Types.AttestationData" [
  ("slot", Slot);
  ("index", CommitteeIndex);
  ("beacon_block_root", Root);
  ("source", Checkpoint);
  ("target", Checkpoint)].

Definition IndexedAttestation : elx_ty := EStruct "IndexedAttestation" "Types.IndexedAttestation" [
  ("attesting_indices", EVec ValidatorIndex);
  ("data", AttestationData);
  ("signature", BLSSignature)].

Definition PendingAttestation : elx_ty := EStruct "PendingAttestation" "Types.PendingAttestation" [
  ("aggregation_bits", EBinary);
  ("data", AttestationData);
  ("inclusion_delay", Slot);
  ("proposer_index", ValidatorIndex)].

Definition Eth1Data : elx_ty := EStruct "Eth1Data" "Types.Eth1Data" [
  ("deposit_root", Root);
  ("deposit_count", EU64);
  ("block_hash", Hash32)].

Definition HistoricalBatch : elx_ty := EStruct "HistoricalBatch" "Types.HistoricalBatch" [
  ("block_roots", EVec Root);
  ("state_roots", EVec Root)].

Definition DepositMessage : elx_ty := EStruct "DepositMessage" "Types.DepositMessage" [
  ("pubkey", BLSPubkey);
  ("withdrawal_credentials", Bytes32);
  ("amount", Gwei)].

Definition DepositData : elx_ty := EStruct "DepositData" "Types.DepositData" [
  ("pubkey", BLSPubkey);
  ("withdrawal_credentials", Bytes32);
  ("amount", Gwei);
  ("signature", BLSSignature)].

Definition HistoricalSummary : elx_ty := EStruct "HistoricalSummary" "Types.HistoricalSummary" [
  ("block_summary_root", Root);
  ("state_summary_root", Root)].

Definition Deposit : elx_ty := EStruct "Deposit" "Types.Deposit" [
  ("proof", EVec Bytes32);
  ("data", DepositData)].

Definition VoluntaryExit : elx_ty := EStruct "VoluntaryExit" "Types.VoluntaryExit" [
  ("epoch", Epoch);
  ("validator_index", ValidatorIndex)].

Definition Attestation : elx_ty := EStruct "Attestation" "Types.Attestation" [
  ("aggregation_bits", EBinary);
  ("data", AttestationData);
  ("signature", BLSSignature);
  ("committee_bits", EBinary)].

Definition AttesterSlashing : elx_ty := EStruct "AttesterSlashing" "Types.AttesterSlashing" [
  ("attestation_1", IndexedAttestation);
  ("attestation_2", IndexedAttestation)].

Definition SignedVoluntaryExit : elx_ty := EStruct "SignedVoluntaryExit" "Types.SignedVoluntaryExit" [
  ("message", VoluntaryExit);
  ("signature", BLSSignature)].

Definition BLSToExecutionChange : elx_ty := EStruct "BLSToExecutionChange" "Types.BLSToExecutionChange" [
  ("validator_index", ValidatorIndex);
  ("from_bls_pubkey", BLSPubkey);
  ("to_execution_address", ExecutionAddress)].

Definition SignedBLSToExecutionChange : elx_ty := EStruct "SignedBLSToExecutionChange" "Types.SignedBLSToExecutionChange" [
  ("message", BLSToExecutionChange);
  ("signature", BLSSignature)].

Definition BeaconBlockHeader : elx_ty := EStruct "BeaconBlockHeader" "Types.BeaconBlockHeader" [
  ("slot", Slot);
  ("proposer_index", ValidatorIndex);
  ("parent_root", Root);
  ("state_root", Root);
  ("body_root", Root)].

Definition SignedBeaconBlockHeader : elx_ty := EStruct "SignedBeaconBlockHeader" "Types.SignedBeaconBlockHeader" [
  ("message", BeaconBlockHeader);
  ("signature", BLSSignature)].

Definition ProposerSlashing : elx_ty := EStruct "ProposerSlashing" "Types.ProposerSlashing" [
  ("signed_header_1", SignedBeaconBlockHeader);
  ("signed_header_2", SignedBeaconBlockHeader)].

Definition SyncAggregate : elx_ty := EStruct "SyncAggregate" "Types.SyncAggregate" [
  ("sync_committee_bits", EBinary);
  ("sync_committee_signature", BLSSignature)].

Definition Withdrawal : elx_ty := EStruct "Withdrawal" "Types.Withdrawal" [
  ("index", WithdrawalIndex);
  ("validator_index", ValidatorIndex);
  ("address", ExecutionAddress);
  ("amount", Gwei)].

Definition ExecutionPayload : elx_ty := EStruct "ExecutionPayload" "Types.ExecutionPayload" [
  ("parent_hash", Hash32);
  ("fee_recipient", ExecutionAddress);
  ("state_root", Root);
  ("receipts_root", Root);
  ("logs_bloom", EBinary);
  ("prev_randao", Bytes32);
  ("block_number", EU64);
  ("gas_limit", EU64);
  ("gas_used", EU64);
  ("timestamp", EU64);
  ("extra_data", EBinary);
  ("base_fee_per_gas", Uint256);
  ("block_hash", Hash32);
  ("transactions", EVec Transaction);
  ("withdrawals", EVec Withdrawal);
  ("blob_gas_used", EU64);
  ("excess_blob_gas", EU64)].

Definition DepositRequest : elx_ty := EStruct "DepositRequest" "Types.DepositRequest" [
  ("pubkey", BLSPubkey);
  ("withdrawal_credentials", Bytes32);
  ("amount", Gwei);
  ("signature", BLSSignature);
  ("index", EU64)].

Definition WithdrawalRequest : elx_ty := EStruct "WithdrawalRequest" "Types.WithdrawalRequest" [
  ("source_address", ExecutionAddress);
  ("validator_pubkey", BLSPubkey);
  ("amount", Gwei)].

Definition ConsolidationRequest : elx_ty := EStruct "ConsolidationRequest" "Types.ConsolidationRequest" [
  ("source_address", ExecutionAddress);
  ("source_pubkey", BLSPubkey);
  ("target_pubkey", BLSPubkey)].

Definition ExecutionRequests : elx_ty := EStruct "ExecutionRequests" "Types.ExecutionRequests" [
  ("deposits", EVec DepositRequest);
  ("withdrawals", EVec WithdrawalRequest);
  ("consolidations", EVec ConsolidationRequest)].

Definition BeaconBlockBody : elx_ty := EStruct "BeaconBlockBody" "Types.BeaconBlockBody" [
  ("randao_reveal", BLSSignature);
  ("eth1_data", Eth1Data);
  ("graffiti", Bytes32);
  ("proposer_slashings", EVec ProposerSlashing);
  ("attester_slashings", EVec AttesterSlashing);
  ("attestations", EVec Attestation);
  ("deposits", EVec Deposit);
  ("voluntary_exits", EVec SignedVoluntaryExit);
  ("sync_aggregate", SyncAggregate);
  ("execution_payload", ExecutionPayload);
  ("bls_to_execution_changes", EVec SignedBLSToExecutionChange);
  ("blob_kzg_commitments", EVec KZGCommitment);
  ("execution_requests", ExecutionRequests)].

Definition BeaconBlock : elx_ty := EStruct "BeaconBlock" "Types.BeaconBlock" [
  ("slot", Slot);
  ("proposer_index", ValidatorIndex);
  ("parent_root", Root);
  ("state_root", Root);
  ("body", BeaconBlockBody)].

Definition SignedBeaconBlock : elx_ty := EStruct "SignedBeaconBlock" "Types.SignedBeaconBlock" [
  ("message", BeaconBlock);
  ("signature", BLSSignature)].

Definition SigningData : elx_ty := EStruct "SigningData" "Types.SigningData" [
  ("object_root", Root);
  ("domain", Domain)].

Definition ExecutionPayloadHeader : elx_ty := EStruct "ExecutionPayloadHeader" "Types.ExecutionPayloadHeader" [
  ("parent_hash", Hash32);
  ("fee_recipient", ExecutionAddress);
  ("state_root", Root);
  ("receipts_root", Root);
  ("logs_bloom", EBinary);
  ("prev_randao", Bytes32);
  ("block_number", EU64);
  ("gas_limit", EU64);
  ("gas_used", EU64);
  ("timestamp", EU64);
  ("extra_data", EBinary);
  ("base_fee_per_gas", Uint256);
  ("block_hash", Hash32);
  ("transactions_root", Root);
  ("withdrawals_root", Root);
  ("blob_gas_used", EU64);
  ("excess_blob_gas", EU64)].

Definition SyncCommittee : elx_ty := EStruct "SyncCommittee" "Types.SyncCommittee" [
  ("pubkeys", EVec BLSPubkey);
  ("aggregate_pubkey", BLSPubkey)].

Definition PendingDeposit : elx_ty := EStruct "PendingDeposit" "Types.PendingDeposit" [
  ("pubkey", BLSPubkey);
  ("withdrawal_credentials", Bytes32);
  ("amount", Gwei);
  ("signature", BLSSignature);
  ("slot", Slot)].

Definition PendingPartialWithdrawal : elx_ty := EStruct "PendingPartialWithdrawal" "Types.PendingPartialWithdrawal" [
  ("validator_index", ValidatorIndex);
  ("amount", Gwei);
  ("withdrawable_epoch", Epoch)].

Definition PendingConsolidation : elx_ty := EStruct "PendingConsolidation" "Types.PendingConsolidation" [
  ("source_index", ValidatorIndex);
  ("target_index", ValidatorIndex)].

Definition SingleAttestation : elx_ty := EStruct "SingleAttestation" "Types.SingleAttestation" [
  ("committee_index", CommitteeIndex);
  ("attester_index", ValidatorIndex);
  ("data", AttestationData);
  ("signature", BLSSignature)].

Definition BeaconState : elx_ty := EStruct "BeaconState" "Types.BeaconState" [
  ("genesis_time", EU64);
  ("genesis_validators_root", Root);
  ("slot", Slot);
  ("fork", Fork);
  ("latest_block_header", BeaconBlockHeader);
  ("block_roots", EVec Root);
  ("state_roots", EVec Root);
  ("historical_roots", EVec Root);
  ("eth1_data", Eth1Data);
  ("eth1_data_votes", EVec Eth1Data);
  ("eth1_deposit_index", EU64);
  ("validators", EVec Validator);
  ("balances", EVec Gwei);
  ("randao_mixes", EVec Bytes32);
  ("slashings", EVec Gwei);
  ("previous_epoch_participation", EVec ParticipationFlags);
  ("current_epoch_participation", EVec ParticipationFlags);
  ("justification_bits", EBinary);
  ("previous_justified_checkpoint", Checkpoint);
  ("current_justified_checkpoint", Checkpoint);
  ("finalized_checkpoint", Checkpoint);
  ("inactivity_scores", EVec EU64);
  ("current_sync_committee", SyncCommittee);
  ("next_sync_committee", SyncCommittee);
  ("latest_execution_payload_header", ExecutionPayloadHeader);
  ("next_withdrawal_index", WithdrawalIndex);
  ("next_withdrawal_validator_index", ValidatorIndex);
  ("historical_summaries", EVec HistoricalSummary);
  ("deposit_requests_start_index", EU64);
  ("deposit_balance_to_consume", Gwei);
  ("exit_balance_to_consume", Gwei);
  ("earliest_exit_epoch", Epoch);
  ("consolidation_balance_to_consume", Gwei);
  ("earliest_consolidation_epoch", Epoch);
  ("pending_deposits", EVec PendingDeposit);
  ("pending_partial_withdrawals", EVec PendingPartialWithdrawal);
  ("pending_consolidations", EVec PendingConsolidation)].

Definition StatusMessage : elx_ty := EStruct "StatusMessage" "Types.StatusMessage" [
  ("fork_digest", ForkDigest);
  ("finalized_root", Root);
  ("finalized_epoch", Epoch);
  ("head_root", Root);
  ("head_slot", Slot)].

Definition BeaconBlocksByRangeRequest : elx_ty := EStruct "BeaconBlocksByRangeRequest" "Types.BeaconBlocksByRangeRequest" [
  ("start_slot", Slot);
  ("count", EU64);
  ("step", EU64)].

Definition Metadata : elx_ty := EStruct "Metadata" "Types.Metadata" [
  ("seq_number", EU64);
  ("attnets", EBinary);
  ("syncnets", EBinary)].

Definition BlobSidecar : elx_ty := EStruct "BlobSidecar" "Types.BlobSidecar" [
  ("index", BlobIndex);
  ("blob", Blob);
  ("kzg_commitment", KZGCommitment);
  ("kzg_proof", KZGProof);
  ("signed_block_header", SignedBeaconBlockHeader);
  ("kzg_commitment_inclusion_proof", EVec Bytes32)].

Definition BlobIdentifier : elx_ty := EStruct "BlobIdentifier" "Types.BlobIdentifier" [
  ("block_root", Root);
  ("index", BlobIndex)].

Definition AggregateAndProof : elx_ty := EStruct "AggregateAndProof" "Types.AggregateAndProof" [
  ("aggregator_index", ValidatorIndex);
  ("aggregate", Attestation);
  ("selection_proof", BLSSignature)].

Definition SignedAggregateAndProof : elx_ty := EStruct "SignedAggregateAndProof" "Types.SignedAggregateAndProof" [
  ("message", AggregateAndProof);
  ("signature", BLSSignature)].

Definition SyncCommitteeMessage : elx_ty := EStruct "SyncCommitteeMessage" "Types.SyncCommitteeMessage" [
  ("slot", Slot);
  ("beacon_block_root", Root);
  ("validator_index", ValidatorIndex);
  ("signature", BLSSignature)].

Definition SyncCommitteeContribution : elx_ty := EStruct "SyncCommitteeContribution" "Types.SyncCommitteeContribution" [
  ("slot", Slot);
  ("beacon_block_root", Root);
  ("subcommittee_index", EU64);
  ("aggregation_bits", EBinary);
  ("signature", BLSSignature)].

Definition ContributionAndProof : elx_ty := EStruct "ContributionAndProof" "Types.ContributionAndProof" [
  ("aggregator_index", ValidatorIndex);
  ("contribution", SyncCommitteeContribution);
  ("selection_proof", BLSSignature)].

Definition SignedContributionAndProof : elx_ty := EStruct "SignedContributionAndProof" "Types.SignedContributionAndProof" [
  ("message", ContributionAndProof);
  ("signature", BLSSignature)].
