(* ===== verification/SszSpec.v ===== *)
(** * The SSZ serialization the NIF relies on

    A reference codec for the types of [Schema], after the SimpleSerialize
    specification: fixed-size parts in place, variable-size parts behind
    4-byte little-endian offsets, strict decoding.  The [ethereum_ssz] crate is
    not part of the repository; [Crates] states that it implements this codec,
    and this file proves the codec is a bijection between well-formed values
    and the byte strings it accepts. *)
From Stdlib Require Import Init.Byte.
From S2P Require Import Prelude Schema.
Open Scope N_scope.

(** ** Bits as integers *)
Fixpoint bits_val (l : list bool) : Z :=
  match l with
  | [] => 0
  | b :: l => Z.b2z b + 2 * bits_val l
  end.

Fixpoint bits_of (n : nat) (z : Z) : list bool :=
  match n with
  | O => []
  | S n => Z.odd z :: bits_of n (z / 2)
  end.

Lemma length_bits_of n z : length (bits_of n z) = n.
Proof. revert z. induction n; simpl; auto. Qed.

Lemma nlen_bits_of n z : nlen (bits_of n z) = N.of_nat n.
Proof. unfold nlen. by rewrite length_bits_of. Qed.

Lemma bits_val_range l : (0 <= bits_val l < 2 ^ Z.of_nat (length l))%Z.
Proof.
  induction l as [|b l IH]; simpl length; [simpl; lia|].
  rewrite Nat2Z.inj_succ, Z.pow_succ_r by lia. simpl. destruct b; simpl; lia.
Qed.

Lemma odd_b2z b z : Z.odd (Z.b2z b + 2 * z) = b.
Proof. rewrite Z.odd_add_mul_2. by destruct b. Qed.

Lemma div_b2z b z : ((Z.b2z b + 2 * z) / 2 = z)%Z.
Proof. rewrite Z.mul_comm, Z.div_add by done. by destruct b. Qed.

Lemma bits_of_val l : bits_of (length l) (bits_val l) = l.
Proof.
  induction l as [|b l IH]; simpl length; [done|].
  cbn [bits_of bits_val]. by rewrite odd_b2z, div_b2z, IH.
Qed.

Lemma bits_val_of n z : bits_val (bits_of n z) = (z mod 2 ^ Z.of_nat n)%Z.
Proof.
  revert z. induction n as [|n IH]; intros z; [simpl; by rewrite Z.mod_1_r|].
  rewrite Nat2Z.inj_succ, Z.pow_succ_r by lia. cbn [bits_of bits_val].
  rewrite IH, Z.rem_mul_r, Zmod_odd by lia. by destruct (Z.odd z).
Qed.

Lemma bits_val_app l k :
  bits_val (l ++ k) = (bits_val l + 2 ^ Z.of_nat (length l) * bits_val k)%Z.
Proof.
  induction l as [|b l IH]; [simpl; lia|].
  simpl length. rewrite Nat2Z.inj_succ, Z.pow_succ_r by lia. simpl. rewrite IH. lia.
Qed.

Lemma pow2_256 n : (256 ^ Z.of_nat n = 2 ^ (8 * Z.of_nat n))%Z.
Proof. rewrite Z.pow_mul_r by lia. done. Qed.

(** ** Offsets: assembling and splitting a sequence of parts

    A shape gives, for each part, its size when it is fixed. *)
Abbreviation shape := (list (option N)).

Definition part_len (o : option N) : N := default 4 o.
Definition head_len (sh : shape) : N := foldr (fun o n => part_len o + n) 0 sh.

(** The variable-size parts of a sequence. *)
Fixpoint vars (sh : shape) (ps : list bytes) : list bytes :=
  match sh, ps with
  | Some _ :: sh, _ :: ps => vars sh ps
  | None :: sh, p :: ps => p :: vars sh ps
  | _, _ => []
  end.

Fixpoint heads (off : N) (sh : shape) (ps : list bytes) : list bytes :=
  match sh, ps with
  | Some _ :: sh, p :: ps => p :: heads off sh ps
  | None :: sh, p :: ps => le_bytes 4 (Z.of_N off) :: heads (off + nlen p) sh ps
  | _, _ => []
  end.

Definition assemble (sh : shape) (ps : list bytes) : bytes :=
  concat (heads (head_len sh) sh ps) ++ concat (vars sh ps).

(** Splitting reads the heads, then cuts the rest at the offsets. *)
Fixpoint raw_heads (sh : shape) (b : bytes) : list bytes :=
  match sh with
  | [] => []
  | o :: sh => ntake (part_len o) b :: raw_heads sh (ndrop (part_len o) b)
  end.

Definition offset_of (h : bytes) : N := Z.to_N (le_val h).

Definition offsets (sh : shape) (hs : list bytes) : list N := map offset_of (vars sh hs).

Fixpoint cut (os : list N) (rest : bytes) : option (list bytes) :=
  match os with
  | [] => if nlen rest =? 0 then Some [] else None
  | o :: os' =>
      match os' with
      | [] => Some [rest]
      | o' :: _ =>
          if (o <=? o') && (o' - o <=? nlen rest) then
            ps ← cut os' (ndrop (o' - o) rest);
            Some (ntake (o' - o) rest :: ps)
          else None
      end
  end.

Fixpoint fill (sh : shape) (hs vs : list bytes) : list bytes :=
  match sh, hs, vs with
  | Some _ :: sh, h :: hs, vs => h :: fill sh hs vs
  | None :: sh, _ :: hs, v :: vs => v :: fill sh hs vs
  | _, _, _ => []
  end.

Definition split (sh : shape) (b : bytes) : option (list bytes) :=
  if nlen b <? head_len sh then None else
  let hs := raw_heads sh b in
  let os := offsets sh hs in
  if match os with [] => true | o :: _ => o =? head_len sh end then
    vs ← cut os (ndrop (head_len sh) b);
    Some (fill sh hs vs)
  else None.

(** Parts of the sizes a shape announces. *)
Definition part_ok (o : option N) (p : bytes) : Prop :=
  match o with Some k => nlen p = k | None => True end.

(** Positions of consecutive parts. *)
Fixpoint cumul (off : N) (vs : list bytes) : list N :=
  match vs with
  | [] => []
  | v :: vs => off :: cumul (off + nlen v) vs
  end.

Lemma head_len_cons o sh : head_len (o :: sh) = part_len o + head_len sh.
Proof. done. Qed.

Ltac parts_simpl := cbn [heads raw_heads vars fill concat cumul map]; rewrite ?head_len_cons.

Lemma nlen_concat_heads off sh ps :
  Forall2 part_ok sh ps -> nlen (concat (heads off sh ps)) = head_len sh.
Proof.
  intros H. revert off.
  induction H as [|[k|] p sh ps Hp _ IH]; intros off; parts_simpl; [done|..];
    rewrite nlen_app, IH, ?nlen_le_bytes; unfold part_len; simpl in *; lia.
Qed.

Lemma raw_heads_heads off sh ps t :
  Forall2 part_ok sh ps -> raw_heads sh (concat (heads off sh ps) ++ t) = heads off sh ps.
Proof.
  intros H. revert off.
  induction H as [|[k|] p sh ps Hp _ IH]; intros off; parts_simpl; [done|..];
    rewrite <- app_assoc, ntake_app, ndrop_app by (by rewrite ?nlen_le_bytes); by rewrite IH.
Qed.

Lemma offsets_heads off sh ps :
  Forall2 part_ok sh ps -> off + nlen (concat (vars sh ps)) < 2 ^ 32 ->
  offsets sh (heads off sh ps) = cumul off (vars sh ps).
Proof.
  unfold offsets. intros H. revert off.
  induction H as [|[k|] p sh ps Hp _ IH]; intros off; parts_simpl; [done|by apply IH|].
  intros Hlt. rewrite nlen_app in Hlt. f_equal; [|apply IH; lia].
  unfold offset_of. rewrite le_val_bytes_small, N2Z.id; [done|]. simpl. lia.
Qed.

Lemma cut_cumul off vs : cut (cumul off vs) (concat vs) = Some vs.
Proof.
  revert off. induction vs as [|v vs IH]; intros off; [done|]. simpl.
  destruct vs as [|w vs]; simpl; [by rewrite app_nil_r|].
  replace (off + nlen v - off) with (nlen v) by lia.
  rewrite nlen_app. destruct (N.leb_spec off (off + nlen v)); [|lia].
  destruct (N.leb_spec (nlen v) (nlen v + nlen (w ++ concat vs))); [|lia]. simpl.
  rewrite ntake_app, ndrop_app by done. specialize (IH (off + nlen v)). simpl in IH.
  by rewrite IH.
Qed.

Lemma fill_heads off sh ps :
  length sh = length ps -> fill sh (heads off sh ps) (vars sh ps) = ps.
Proof.
  revert off ps. induction sh as [|[k|] sh IH]; intros off [|p ps]; simpl; try done;
    intros [= Hl]; by rewrite IH.
Qed.

(** Splitting an assembled sequence gives its parts back. *)
Lemma split_assemble sh ps :
  Forall2 part_ok sh ps -> nlen (assemble sh ps) < 2 ^ 32 ->
  split sh (assemble sh ps) = Some ps.
Proof.
  unfold assemble, split. intros H Hlt.
  rewrite nlen_app, nlen_concat_heads in * by done.
  destruct (N.ltb_spec (head_len sh + nlen (concat (vars sh ps))) (head_len sh)); [lia|].
  rewrite raw_heads_heads, offsets_heads by done.
  rewrite ndrop_app by (by apply nlen_concat_heads).
  rewrite cut_cumul; simpl. rewrite fill_heads by (by eapply Forall2_length).
  destruct (vars sh ps); simpl; by rewrite ?N.eqb_refl.
Qed.

Lemma cut_Some os rest vs :
  cut os rest = Some vs ->
  concat vs = rest /\ match os with [] => vs = [] | o :: _ => os = cumul o vs end.
Proof.
  revert rest vs. induction os as [|o os IH]; intros rest vs; cbn [cut].
  { destruct (N.eqb_spec (nlen rest) 0) as [E|]; [|done].
    apply nlen_0 in E as ->. by intros [= <-]. }
  destruct os as [|o' os].
  { intros [= <-]. simpl. by rewrite app_nil_r. }
  destruct (N.leb_spec o o'); [|done]. destruct (N.leb_spec (o' - o) (nlen rest)); [|done].
  cbn [andb]. destruct (cut _ _) as [ps|] eqn:E; [|done]. intros [= <-].
  apply IH in E as [Hc Ho]. cbn [concat cumul]. rewrite Hc, ntake_ndrop. split; [done|].
  f_equal. rewrite nlen_ntake, N.min_l by done. by replace (o + (o' - o)) with o' by lia.
Qed.

Lemma concat_raw_heads sh b :
  head_len sh <= nlen b -> concat (raw_heads sh b) = ntake (head_len sh) b.
Proof.
  revert b. induction sh as [|o sh IH]; intros b; [done|].
  rewrite head_len_cons. cbn [raw_heads concat]. intros.
  rewrite IH by (rewrite nlen_ndrop; lia).
  unfold ntake, ndrop. rewrite N2Nat.inj_add. by rewrite take_take_drop.
Qed.

Lemma raw_heads_len sh b :
  head_len sh <= nlen b -> Forall2 (fun o h => nlen h = part_len o) sh (raw_heads sh b).
Proof.
  revert b. induction sh as [|o sh IH]; intros b; [constructor|].
  rewrite head_len_cons. cbn [raw_heads concat]. intros. constructor.
  - rewrite nlen_ntake. lia.
  - apply IH. rewrite nlen_ndrop. lia.
Qed.

Lemma heads_fill off sh hs vs :
  Forall2 (fun o h => nlen h = part_len o) sh hs ->
  offsets sh hs = cumul off vs -> heads off sh (fill sh hs vs) = hs.
Proof.
  unfold offsets. intros H. revert off vs.
  induction H as [|[k|] h sh hs Hh _ IH]; intros off vs; parts_simpl; [done| |].
  - intros Ho. f_equal. by apply IH.
  - destruct vs as [|v vs]; [done|]. parts_simpl. intros [= Ho Hos]. f_equal; [|by apply IH].
    rewrite <- Ho. unfold offset_of. pose proof (le_val_range h).
    rewrite Z2N.id by lia. apply le_bytes_val. unfold nlen, part_len in Hh. simpl in Hh. lia.
Qed.

Lemma fill_ok off sh hs vs :
  Forall2 (fun o h => nlen h = part_len o) sh hs ->
  offsets sh hs = cumul off vs ->
  Forall2 part_ok sh (fill sh hs vs) /\ vars sh (fill sh hs vs) = vs.
Proof.
  unfold offsets. intros H. revert off vs.
  induction H as [|[k|] h sh hs Hh _ IH]; intros off vs; simpl.
  - destruct vs; [|done]. by split.
  - intros [H1 H2]%IH. split; [by constructor|done].
  - destruct vs as [|v vs]; [done|]. simpl. intros [= _ [H1 H2]%IH].
    split; [by constructor|by f_equal].
Qed.

(** Only assembled sequences split. *)
Lemma assemble_split sh b ps :
  split sh b = Some ps -> Forall2 part_ok sh ps /\ assemble sh ps = b.
Proof.
  unfold split. destruct (N.ltb_spec (nlen b) (head_len sh)) as [|Hlen]; [done|].
  destruct (match offsets _ _ with [] => _ | _ => _ end) eqn:Hfst; [|done].
  destruct (cut _ _) as [vs|] eqn:E; [|done]. intros [= <-].
  apply cut_Some in E as [Hc Ho].
  assert (offsets sh (raw_heads sh b) = cumul (head_len sh) vs) as Hos.
  { destruct (offsets sh (raw_heads sh b)) as [|o os]; [by subst|].
    apply N.eqb_eq in Hfst. by rewrite <- Hfst. }
  pose proof (raw_heads_len sh b Hlen) as Hraw.
  destruct (fill_ok _ _ _ _ Hraw Hos) as [Hok Hvars]. split; [done|].
  unfold assemble. rewrite Hvars, Hc, (heads_fill _ _ _ _ Hraw Hos), concat_raw_heads by done.
  apply ntake_ndrop.
Qed.

(** ** The typed codec *)
Section tuples.
Context {T : Type} (den : T -> Type).

Fixpoint tuple_map {B} (f : forall t, den t -> B) (fs : list (string * T)) :
    tuple den fs -> list B :=
  match fs with
  | [] => fun _ => []
  | (_, t) :: fs => fun v => f t v.1 :: tuple_map f fs v.2
  end.

Fixpoint tuple_parse (f : forall t, bytes -> option (den t)) (fs : list (string * T)) :
    list bytes -> option (tuple den fs) :=
  match fs with
  | [] => fun ps => match ps with [] => Some tt | _ => None end
  | (_, t) :: fs => fun ps =>
      match ps with
      | [] => None
      | p :: ps => v ← f t p; vs ← tuple_parse f fs ps; Some (v, vs)
      end
  end.
End tuples.

Definition opt_add (a b : option N) : option N :=
  match a, b with Some a, Some b => Some (a + b) | _, _ => None end.

(** The size of the values of a fixed-size type. *)
Fixpoint fixed_size (t : ssz_ty) : option N :=
  match t with
  | SBool | SU8 => Some 1
  | SU16 => Some 2
  | SU32 => Some 4
  | SU64 => Some 8
  | SArray n => Some n
  | SFixedVector t n => k ← fixed_size t; Some (n * k)
  | SVariableList _ _ | SBitList _ | SVec _ => None
  | SBitVector n => Some ((n + 7) / 8)
  | SUint256 => Some 32
  | SStruct _ fs => foldr (fun f acc => opt_add (fixed_size f.2) acc) (Some 0) fs
  end.

Definition struct_shape (fs : list (string * ssz_ty)) : shape :=
  map (fun f => fixed_size f.2) fs.

(** No type of the language has values of size zero, as SSZ requires. *)
Fixpoint legal (t : ssz_ty) : bool :=
  match t with
  | SArray n | SBitVector n => 0 <? n
  | SFixedVector t n => (0 <? n) && legal t
  | SVariableList t _ | SVec t => legal t
  | SStruct _ fs => negb (Nat.eqb (length fs) 0) && forallb (fun f => legal f.2) fs
  | _ => true
  end.

Definition serialize_seq (o : option N) (ps : list bytes) : bytes :=
  assemble (replicate (length ps) o) ps.

Fixpoint serialize (t : ssz_ty) : sval t -> bytes :=
  match t with
  | SBool => fun v => [if v : bool then x01 else x00]
  | SU8 => fun v => [v]
  | SU16 => le_bytes 2
  | SU32 => le_bytes 4
  | SU64 => le_bytes 8
  | SArray _ | SUint256 => fun v => v
  | SFixedVector t _ | SVariableList t _ | SVec t =>
      fun v => serialize_seq (fixed_size t) (map (serialize t) v)
  | SBitList _ => fun v => le_bytes (length v / 8 + 1) (bits_val (v ++ [true]))
  | SBitVector n => fun v => le_bytes (N.to_nat ((n + 7) / 8)) (bits_val v)
  | SStruct _ fs => fun v => assemble (struct_shape fs) (tuple_map sval serialize fs v)
  end.

(** The shape of a sequence of elements, read off its bytes. *)
Definition seq_shape (o : option N) (b : bytes) : option shape :=
  match o with
  | Some k =>
      if (0 <? k) && (nlen b mod k =? 0)
      then Some (replicate (N.to_nat (nlen b / k)) (Some k)) else None
  | None =>
      if nlen b =? 0 then Some [] else
      let off := offset_of (ntake 4 b) in
      if (4 <=? nlen b) && (off mod 4 =? 0) && (0 <? off) && (off <=? nlen b)
      then Some (replicate (N.to_nat (off / 4)) None) else None
  end.

Definition deserialize_seq {A} (o : option N) (f : bytes -> option A) (b : bytes) :
    option (list A) :=
  sh ← seq_shape o b; ps ← split sh b; mapM f ps.

Definition guard_b {A} (c : A -> bool) (o : option A) : option A :=
  x ← o; if c x then Some x else None.

Definition deserialize_uint (n : nat) (b : bytes) : option Z :=
  if Nat.eqb (length b) n then Some (le_val b) else None.

Definition deserialize_bits (n : N) (b : bytes) : option (list bool) :=
  if (nlen b =? (n + 7) / 8) && (le_val b <? 2 ^ Z.of_N n)%Z
  then Some (bits_of (N.to_nat n) (le_val b)) else None.

(** The highest set bit is the sentinel; it lies in the last byte. *)
Definition deserialize_bitlist (n : N) (b : bytes) : option (list bool) :=
  let z := le_val b in
  let len := Z.to_nat (Z.log2 z) in
  if (0 <? z)%Z && Nat.eqb (len / 8 + 1) (length b) && (N.of_nat len <=? n)
  then Some (bits_of len z) else None.

Fixpoint deserialize (t : ssz_ty) : bytes -> option (sval t) :=
  match t with
  | SBool => fun b => match b with [x00] => Some false | [x01] => Some true | _ => None end
  | SU8 => fun b => match b with [x] => Some x | _ => None end
  | SU16 => deserialize_uint 2
  | SU32 => deserialize_uint 4
  | SU64 => deserialize_uint 8
  | SArray n => fun b => if nlen b =? n then Some b else None
  | SUint256 => fun b => if nlen b =? 32 then Some b else None
  | SFixedVector t n => fun b =>
      guard_b (fun v => nlen v =? n) (deserialize_seq (fixed_size t) (deserialize t) b)
  | SVariableList t n => fun b =>
      guard_b (fun v => nlen v <=? n) (deserialize_seq (fixed_size t) (deserialize t) b)
  | SVec t => deserialize_seq (fixed_size t) (deserialize t)
  | SBitList n => deserialize_bitlist n
  | SBitVector n => deserialize_bits n
  | SStruct _ fs => fun b =>
      ps ← split (struct_shape fs) b; tuple_parse sval deserialize fs ps
  end.

(** ** Sizes *)
Lemma nlen_assemble sh ps :
  Forall2 part_ok sh ps -> nlen (assemble sh ps) = head_len sh + nlen (concat (vars sh ps)).
Proof. intros. unfold assemble. by rewrite nlen_app, nlen_concat_heads. Qed.

Lemma nlen_part_assemble sh ps p :
  Forall2 part_ok sh ps -> p ∈ ps -> nlen p <= nlen (assemble sh ps).
Proof.
  intros H Hp. rewrite nlen_assemble by done.
  induction H as [|[k|] q sh ps Hq _ IH]; [by apply elem_of_nil in Hp|..];
    rewrite head_len_cons; parts_simpl; rewrite ?nlen_app;
    apply elem_of_cons in Hp as [->|Hp]; simpl in *; try (specialize (IH Hp)); lia.
Qed.

Lemma Forall2_replicate_l {A B} (P : A -> B -> Prop) a l :
  Forall2 P (replicate (length l) a) l <-> Forall (P a) l.
Proof.
  induction l as [|x l IH]; simpl; [split; constructor|].
  split; inversion 1; subst; constructor; try done; by apply IH.
Qed.

Lemma head_len_replicate n o : head_len (replicate n o) = N.of_nat n * part_len o.
Proof. induction n; [done|]. cbn [replicate]. rewrite head_len_cons, IHn. lia. Qed.

Lemma vars_replicate_Some n k ps : vars (replicate n (Some k)) ps = [].
Proof. revert ps. induction n; intros [|p ps]; simpl; auto. Qed.

Lemma nlen_serialize_seq_fixed k ps :
  Forall (part_ok (Some k)) ps -> nlen (serialize_seq (Some k) ps) = nlen ps * k.
Proof.
  intros H. unfold serialize_seq.
  rewrite nlen_assemble, head_len_replicate, vars_replicate_Some
    by (by apply Forall2_replicate_l). simpl. rewrite nlen_nil. unfold nlen. lia.
Qed.

Lemma tuple_all_cons {T} (den : T -> Type) ok n t fs (v : tuple den ((n, t) :: fs)) :
  tuple_all den ok ((n, t) :: fs) v = true <-> ok t v.1 = true /\ tuple_all den ok fs v.2 = true.
Proof. simpl. apply andb_true_iff. Qed.

Lemma length_tuple_map {T B} (den : T -> Type) (f : forall t, den t -> B) fs v :
  length (tuple_map den f fs v) = length fs.
Proof. induction fs as [|[n t] fs IH]; simpl; [done|]. by rewrite IH. Qed.

Lemma opt_add_Some a b k :
  opt_add a b = Some k <-> exists x y, a = Some x /\ b = Some y /\ k = x + y.
Proof. destruct a, b; simpl; naive_solver. Qed.

(** A property of the fields of a struct, for the parts they serialize to. *)
Lemma struct_parts_ok fs v :
  Forall (fun f => forall k v, fixed_size f.2 = Some k -> sok f.2 v = true ->
    nlen (serialize f.2 v) = k) fs ->
  tuple_all sval sok fs v = true ->
  Forall2 part_ok (struct_shape fs) (tuple_map sval serialize fs v).
Proof.
  intros H. induction H as [|[n t] fs Ht _ IH]; [constructor|].
  rewrite tuple_all_cons. intros [Hv Hvs]. simpl. constructor; [|by apply IH].
  unfold part_ok. simpl in *. destruct (fixed_size t) eqn:E; [|done]. by apply Ht.
Qed.

Lemma fixed_struct_shape fs k :
  foldr (fun f acc => opt_add (fixed_size f.2) acc) (Some 0) fs = Some k ->
  head_len (struct_shape fs) = k /\ forall ps, vars (struct_shape fs) ps = [].
Proof.
  revert k. induction fs as [|[n t] fs IH]; intros k; simpl; [by intros [= <-]|].
  intros (x & y & Ht & [Hy Hv]%IH & ->)%opt_add_Some. unfold struct_shape in *. simpl.
  rewrite Ht, Hy. unfold part_len. simpl. split; [done|]. by intros [|p ps].
Qed.

Lemma fixed_size_serialize t k v :
  fixed_size t = Some k -> sok t v = true -> nlen (serialize t v) = k.
Proof.
  revert k v. induction t using ssz_ty_ind'; intros k v Hk Hv; simpl in *;
    try (injection Hk as <-; rewrite ?nlen_le_bytes; done || by apply N.eqb_eq).
  - destruct (fixed_size t) as [j|] eqn:E; [|done]. injection Hk as <-.
    apply andb_true_iff in Hv as [Hn Hv]. apply N.eqb_eq in Hn.
    rewrite nlen_serialize_seq_fixed; [by rewrite nlen_map, Hn|].
    apply Forall_map. rewrite forallb_Forall in Hv.
    eapply Forall_impl; [done|]. intros x Hx. by apply IHt.
  - done.
  - done.
  - injection Hk as <-. rewrite nlen_le_bytes. lia.
  - done.
  - destruct (fixed_struct_shape _ _ Hk) as [Hh Hvars].
    rewrite nlen_assemble by (by apply struct_parts_ok).
    rewrite Hh, Hvars. simpl. rewrite nlen_nil. lia.
Qed.

Lemma parts_ok_map t l :
  forallb (sok t) l = true -> Forall (part_ok (fixed_size t)) (map (serialize t) l).
Proof.
  rewrite forallb_Forall. intros H. apply Forall_map. eapply Forall_impl; [done|].
  intros x Hx. unfold part_ok. destruct (fixed_size t) eqn:E; [|done].
  by apply fixed_size_serialize.
Qed.

Lemma legal_fixed_size t k : legal t = true -> fixed_size t = Some k -> 0 < k.
Proof.
  revert k. induction t using ssz_ty_ind'; intros k Hl Hk; simpl in *;
    try (injection Hk as <-; done); try done.
  - injection Hk as <-. by apply N.ltb_lt.
  - apply andb_true_iff in Hl as [Hn Hl]. destruct (fixed_size t) as [j|]; [|done].
    injection Hk as <-. apply N.ltb_lt in Hn. specialize (IHt _ Hl eq_refl). lia.
  - injection Hk as <-. apply N.ltb_lt in Hl. apply N.div_str_pos. lia.
  - apply andb_true_iff in Hl as [Hn Hl]. destruct H as [|[n t] fs Ht _]; [done|].
    simpl in *. apply andb_true_iff in Hl as [Hlt _].
    apply opt_add_Some in Hk as (x & y & Hx & _ & ->). specialize (Ht _ Hlt Hx). lia.
Qed.

(** ** Decoding inverts encoding *)
Lemma seq_shape_serialize o ps :
  (forall k, o = Some k -> 0 < k) -> Forall (part_ok o) ps ->
  nlen (serialize_seq o ps) < 2 ^ 32 ->
  seq_shape o (serialize_seq o ps) = Some (replicate (length ps) o).
Proof.
  intros Ho Hps Hlt. unfold seq_shape. destruct o as [k|].
  - specialize (Ho k eq_refl). rewrite nlen_serialize_seq_fixed by done.
    rewrite N.Div0.mod_mul, N.div_mul by lia.
    destruct (N.ltb_spec 0 k); [|lia]. simpl. unfold nlen. by rewrite Nat2N.id.
  - unfold serialize_seq in *. destruct ps as [|p ps]; [done|].
    pose proof (proj2 (Forall2_replicate_l _ _ _) Hps) as H2.
    rewrite nlen_assemble, head_len_replicate in * by done.
    set (off := N.of_nat (length (p :: ps)) * part_len None) in *.
    assert (offset_of (ntake 4 (assemble (replicate (length (p :: ps)) None) (p :: ps))) = off) as ->.
    { unfold assemble. rewrite head_len_replicate. fold off. cbn [replicate length heads concat].
      rewrite <- app_assoc, ntake_app by (by rewrite nlen_le_bytes).
      unfold offset_of. rewrite le_val_bytes_small, N2Z.id; [done|].
      change (256 ^ Z.of_nat 4)%Z with (Z.of_N (2 ^ 32)). lia. }
    assert (off = N.of_nat (length (p :: ps)) * 4) as Hoff by done. simpl length in *.
    destruct (N.eqb_spec (off + nlen (concat (vars (replicate (S (length ps)) None) (p :: ps)))) 0);
      [lia|].
    rewrite Hoff, N.Div0.mod_mul, N.div_mul, Nat2N.id by done.
    repeat match goal with |- context [N.leb ?a ?b] => destruct (N.leb_spec a b); [|lia] end.
    destruct (N.ltb_spec 0 (N.of_nat (S (length ps)) * 4)); [|lia]. done.
Qed.

Lemma deserialize_serialize_seq {A} o (f : bytes -> option A) (g : A -> bytes) l :
  (forall k, o = Some k -> 0 < k) -> Forall (part_ok o) (map g l) ->
  (forall x, x ∈ l -> f (g x) = Some x) ->
  nlen (serialize_seq o (map g l)) < 2 ^ 32 ->
  deserialize_seq o f (serialize_seq o (map g l)) = Some l.
Proof.
  intros Ho Hps Hfg Hlt. unfold deserialize_seq.
  rewrite seq_shape_serialize by done. simpl. unfold serialize_seq in *.
  rewrite split_assemble; [|by apply Forall2_replicate_l|done]. simpl.
  clear Hlt Hps. induction l as [|x l IH]; [done|]. simpl.
  rewrite (Hfg x) by left. simpl. rewrite IH; [done|]. intros. apply Hfg. by right.
Qed.

Lemma elem_part_bound t l x :
  forallb (sok t) l = true -> x ∈ l ->
  nlen (serialize t x) <= nlen (serialize_seq (fixed_size t) (map (serialize t) l)).
Proof.
  intros Hl Hx. apply nlen_part_assemble.
  - by apply Forall2_replicate_l, parts_ok_map.
  - apply list_elem_of_fmap. eauto.
Qed.

Lemma tuple_parse_map fs v :
  Forall (fun f => forall v, legal f.2 = true -> sok f.2 v = true ->
    nlen (serialize f.2 v) < 2 ^ 32 -> deserialize f.2 (serialize f.2 v) = Some v) fs ->
  forallb (fun f => legal f.2) fs = true -> tuple_all sval sok fs v = true ->
  Forall (fun p => nlen p < 2 ^ 32) (tuple_map sval serialize fs v) ->
  tuple_parse sval deserialize fs (tuple_map sval serialize fs v) = Some v.
Proof.
  intros H. induction H as [|[n t] fs Ht _ IH]; [by destruct v|].
  rewrite tuple_all_cons. destruct v as [v vs]. simpl.
  intros [Hlt Hls]%andb_true_iff [Hv Hvs] [Hp Hps]%Forall_cons.
  simpl in Ht. rewrite Ht by done. simpl. by rewrite (IH vs).
Qed.

Lemma bitlist_val v :
  bits_val (v ++ [true]) = (bits_val v + 2 ^ Z.of_nat (length v))%Z.
Proof. rewrite bits_val_app. simpl. lia. Qed.

Lemma log2_bitlist v : Z.log2 (bits_val (v ++ [true])) = Z.of_nat (length v).
Proof.
  rewrite bitlist_val. pose proof (bits_val_range v).
  apply Z.log2_unique; [lia|]. rewrite Z.pow_succ_r by lia. lia.
Qed.

Lemma bitlist_fits v :
  (0 <= bits_val (v ++ [true]) < 256 ^ Z.of_nat (length v / 8 + 1))%Z.
Proof.
  pose proof (bits_val_range (v ++ [true])) as [? H]. split; [done|].
  eapply Z.lt_le_trans; [apply H|]. rewrite pow2_256. apply Z.pow_le_mono_r; [done|].
  rewrite length_app. cbn [length].
  pose proof (Nat.div_mod_eq (length v) 8).
  pose proof (Nat.mod_upper_bound (length v) 8 ltac:(done)). lia.
Qed.

Lemma bits_of_app_prefix v w : bits_of (length v) (bits_val (v ++ w)) = v.
Proof.
  induction v as [|b v IH]; [done|]. cbn [app length bits_of bits_val].
  by rewrite odd_b2z, div_b2z, IH.
Qed.

Lemma deserialize_serialize_bitlist n v :
  nlen v <= n -> deserialize_bitlist n (serialize (SBitList n) v) = Some v.
Proof.
  intros Hn. unfold deserialize_bitlist. cbn [serialize].
  rewrite length_le_bytes, le_val_bytes_small by apply bitlist_fits.
  rewrite log2_bitlist, Nat2Z.id, Nat.eqb_refl, bits_of_app_prefix.
  destruct (Z.ltb_spec 0 (bits_val (v ++ [true]))) as [|Hneg].
  - unfold nlen in Hn. apply N.leb_le in Hn. simpl. by rewrite Hn.
  - rewrite bitlist_val in Hneg. pose proof (bits_val_range v). lia.
Qed.

Lemma bitvector_fits n v :
  nlen v = n -> (0 <= bits_val v < 256 ^ Z.of_nat (N.to_nat ((n + 7) / 8)))%Z.
Proof.
  intros <-. pose proof (bits_val_range v) as [? H]. split; [done|].
  eapply Z.lt_le_trans; [apply H|]. rewrite pow2_256. apply Z.pow_le_mono_r; [done|].
  unfold nlen. pose proof (N.div_mod (N.of_nat (length v) + 7) 8 ltac:(done)).
  pose proof (N.mod_upper_bound (N.of_nat (length v) + 7) 8 ltac:(done)). lia.
Qed.

Lemma deserialize_serialize_bits n v :
  nlen v = n -> deserialize_bits n (serialize (SBitVector n) v) = Some v.
Proof.
  intros Hn. unfold deserialize_bits. cbn [serialize].
  rewrite nlen_le_bytes, le_val_bytes_small, N2Nat.id, N.eqb_refl by (by apply bitvector_fits).
  pose proof (bits_val_range v) as [_ H]. unfold nlen in Hn.
  replace (N.to_nat n) with (length v) by lia. rewrite bits_of_val.
  replace (Z.of_N n) with (Z.of_nat (length v)) by lia. apply Z.ltb_lt in H. by rewrite H.
Qed.

Lemma deserialize_uint_le n z w :
  (Z.of_nat n * 8 = w)%Z -> fits_width w z = true -> deserialize_uint n (le_bytes n z) = Some z.
Proof.
  unfold fits_width, deserialize_uint. intros <- [H1 H2]%andb_true_iff.
  rewrite length_le_bytes, Nat.eqb_refl, le_val_bytes_small; [done|].
  rewrite pow2_256, Z.mul_comm. lia.
Qed.

Lemma deserialize_serialize_elems t l :
  (forall v, legal t = true -> sok t v = true -> nlen (serialize t v) < 2 ^ 32 ->
    deserialize t (serialize t v) = Some v) ->
  legal t = true -> forallb (sok t) l = true ->
  nlen (serialize_seq (fixed_size t) (map (serialize t) l)) < 2 ^ 32 ->
  deserialize_seq (fixed_size t) (deserialize t)
    (serialize_seq (fixed_size t) (map (serialize t) l)) = Some l.
Proof.
  intros IH Hl Hv Hlt. apply deserialize_serialize_seq; [..|done].
  - intros. by eapply legal_fixed_size.
  - by apply parts_ok_map.
  - intros x Hx. apply IH; [done|..].
    + by apply (proj1 (forallb_elem _ _) Hv).
    + eapply N.le_lt_trans; [by apply elem_part_bound|done].
Qed.

(** Strings of the codec decode to the value they were encoded from. *)
Theorem deserialize_serialize t v :
  legal t = true -> sok t v = true -> nlen (serialize t v) < 2 ^ 32 ->
  deserialize t (serialize t v) = Some v.
Proof.
  revert v. induction t using ssz_ty_ind'; intros v Hl Hv Hlt;
    cbn [legal sok serialize deserialize] in *.
  - by destruct v.
  - done.
  - by apply deserialize_uint_le with 16%Z.
  - by apply deserialize_uint_le with 32%Z.
  - by apply deserialize_uint_le with 64%Z.
  - by rewrite Hv.
  - apply andb_true_iff in Hl as [_ Hl], Hv as [Hn Hv].
    unfold guard_b. rewrite deserialize_serialize_elems by done. simpl. by rewrite Hn.
  - apply andb_true_iff in Hv as [Hn Hv].
    unfold guard_b. rewrite deserialize_serialize_elems by done. simpl. by rewrite Hn.
  - apply N.leb_le in Hv. by apply deserialize_serialize_bitlist.
  - apply N.eqb_eq in Hv. by apply deserialize_serialize_bits.
  - by apply deserialize_serialize_elems.
  - by rewrite Hv.
  - apply andb_true_iff in Hl as [_ Hl].
    assert (Forall2 part_ok (struct_shape fs) (tuple_map sval serialize fs v)) as Hok.
    { apply struct_parts_ok; [|done]. apply Forall_forall. intros. by apply fixed_size_serialize. }
    rewrite split_assemble by done. simpl. apply tuple_parse_map; [done..|].
    apply Forall_forall. intros p Hp.
    eapply N.le_lt_trans; [by eapply nlen_part_assemble|done].
Qed.

(** ** Encoding inverts decoding *)
Lemma seq_shape_Some o b sh : seq_shape o b = Some sh -> sh = replicate (length sh) o.
Proof.
  unfold seq_shape. destruct o as [k|].
  - destruct (_ && _); [|done]. intros [= <-]. by rewrite length_replicate.
  - destruct (nlen b =? 0); [by intros [= <-]|].
    destruct (_ && _); [|done]. intros [= <-]. by rewrite length_replicate.
Qed.

Lemma serialize_deserialize_seq {A} o (f : bytes -> option A) (g : A -> bytes) (P : A -> Prop) b l :
  (forall p x, f p = Some x -> P x /\ g x = p) ->
  deserialize_seq o f b = Some l -> Forall P l /\ serialize_seq o (map g l) = b.
Proof.
  intros Hf. unfold deserialize_seq.
  destruct (seq_shape o b) as [sh|] eqn:Hsh; [|done]. simpl.
  destruct (split sh b) as [ps|] eqn:Hps; [|done]. simpl.
  intros Hl%mapM_Some. apply seq_shape_Some in Hsh.
  apply assemble_split in Hps as [Hok <-].
  assert (Forall P l /\ map g l = ps) as [HP <-].
  { clear -Hl Hf. induction Hl as [|p x ps l Hx _ IH]; [by split|].
    destruct (Hf _ _ Hx) as [Hp <-]. destruct IH as [HP <-]. split; [by constructor|done]. }
  split; [done|]. unfold serialize_seq. rewrite Hsh. f_equal. f_equal.
  apply Forall2_length in Hok. by rewrite <- Hok.
Qed.

Lemma tuple_parse_Some fs ps v :
  Forall (fun f => forall b v, deserialize f.2 b = Some v ->
    sok f.2 v = true /\ serialize f.2 v = b) fs ->
  tuple_parse sval deserialize fs ps = Some v ->
  tuple_all sval sok fs v = true /\ tuple_map sval serialize fs v = ps.
Proof.
  intros H. revert ps v. induction H as [|[n t] fs Ht _ IH]; intros ps v.
  { destruct ps; [|done]. done. }
  destruct ps as [|p ps]; [done|]. cbn [tuple_parse].
  destruct (deserialize t p) as [x|] eqn:Hx; [|done]. simpl.
  destruct (tuple_parse sval deserialize fs ps) as [xs|] eqn:Hxs; [|done].
  intros [= <-]. simpl in Ht. apply Ht in Hx as [Hok <-]. apply IH in Hxs as [Hoks <-].
  simpl. by rewrite Hok, Hoks.
Qed.

Lemma deserialize_uint_Some n b z w :
  (Z.of_nat n * 8 = w)%Z -> deserialize_uint n b = Some z ->
  fits_width w z = true /\ le_bytes n z = b.
Proof.
  unfold deserialize_uint, fits_width. intros <-.
  destruct (Nat.eqb_spec (length b) n) as [Hn|]; [|done]. intros [= <-].
  pose proof (le_val_range b) as Hr. rewrite Hn, pow2_256, Z.mul_comm in Hr.
  split; [|by apply le_bytes_val]. apply andb_true_iff. lia.
Qed.

Lemma serialize_deserialize_bits n b v :
  deserialize_bits n b = Some v -> nlen v = n /\ serialize (SBitVector n) v = b.
Proof.
  unfold deserialize_bits. cbn [serialize].
  destruct (N.eqb_spec (nlen b) ((n + 7) / 8)) as [Hn|]; [|done].
  destruct (Z.ltb_spec (le_val b) (2 ^ Z.of_N n)); [|done]. intros [= <-].
  rewrite nlen_bits_of, N2Nat.id. split; [done|].
  pose proof (le_val_range b). rewrite bits_val_of, Z.mod_small by (rewrite N_nat_Z; lia).
  apply le_bytes_val. unfold nlen in Hn. lia.
Qed.

Lemma serialize_deserialize_bitlist n b v :
  deserialize_bitlist n b = Some v -> nlen v <= n /\ serialize (SBitList n) v = b.
Proof.
  unfold deserialize_bitlist. cbn [serialize].
  destruct (Z.ltb_spec 0 (le_val b)) as [Hpos|]; [|done].
  destruct (Nat.eqb_spec (Z.to_nat (Z.log2 (le_val b)) / 8 + 1) (length b)) as [Hl|]; [|done].
  destruct (N.leb_spec (N.of_nat (Z.to_nat (Z.log2 (le_val b)))) n) as [Hn|]; [|done].
  intros [= <-]. rewrite nlen_bits_of, length_bits_of, bitlist_val, bits_val_of, length_bits_of.
  split; [done|]. pose proof (Z.log2_nonneg (le_val b)).
  rewrite Hl, Z2Nat.id by done.
  replace (_ + _)%Z with (le_val b); [by apply le_bytes_val|].
  destruct (Z.log2_spec _ Hpos) as [H1 H2]. rewrite Z.pow_succ_r in H2 by done.
  rewrite (Z.mod_eq (le_val b)) by lia.
  rewrite <- (Z.div_unique (le_val b) (2 ^ Z.log2 (le_val b)) 1
    (le_val b - 2 ^ Z.log2 (le_val b))) by lia. lia.
Qed.

Lemma guard_b_Some {A} (c : A -> bool) o x : guard_b c o = Some x <-> o = Some x /\ c x = true.
Proof.
  unfold guard_b. destruct o as [y|]; simpl; [|naive_solver].
  destruct (c y) eqn:E; split; try done; intros H; destruct_and?; simplify_eq; congruence || done.
Qed.

(** A string that decodes is the encoding of the well-formed value it decodes to. *)
Theorem serialize_deserialize t b v :
  deserialize t b = Some v -> sok t v = true /\ serialize t v = b.
Proof.
  revert b v. induction t using ssz_ty_ind'; intros b v;
    cbn [sok serialize deserialize].
  - destruct b as [|x [|y b]]; [done| |by destruct x].
    destruct x; try done; intros H; injection H as <-; done.
  - destruct b as [|x [|]]; try done. by intros [= <-].
  - by apply deserialize_uint_Some.
  - by apply deserialize_uint_Some.
  - by apply deserialize_uint_Some.
  - destruct (nlen b =? n) eqn:E; [|done]. by intros [= <-].
  - intros [Hs Hn]%guard_b_Some.
    apply (serialize_deserialize_seq _ _ (serialize t) _ _ _ IHt) in Hs as [Hs <-].
    rewrite Hn. split; [|done]. by apply forallb_Forall.
  - intros [Hs Hn]%guard_b_Some.
    apply (serialize_deserialize_seq _ _ (serialize t) _ _ _ IHt) in Hs as [Hs <-].
    rewrite Hn. split; [|done]. by apply forallb_Forall.
  - intros [Hn ?]%serialize_deserialize_bitlist. split; [by apply N.leb_le|done].
  - intros [Hn ?]%serialize_deserialize_bits. split; [by apply N.eqb_eq|done].
  - intros Hs. apply (serialize_deserialize_seq _ _ (serialize t) _ _ _ IHt) in Hs as [Hs <-].
    split; [|done]. by apply forallb_Forall.
  - destruct (nlen b =? 32) eqn:E; [|done]. by intros [= <-].
  - destruct (split _ _) as [ps|] eqn:Hps; [|done]. cbn [mbind option_bind].
    intros [Hok <-]%tuple_parse_Some; [|done].
    by apply assemble_split in Hps as [_ <-].
Qed.

(** Two well-formed values never share an encoding. *)
Corollary serialize_inj t v w :
  legal t = true -> sok t v = true -> sok t w = true ->
  nlen (serialize t v) < 2 ^ 32 -> serialize t v = serialize t w -> v = w.
Proof.
  intros Hl Hv Hw Hlt E. pose proof (deserialize_serialize t v Hl Hv Hlt) as H1.
  rewrite E in Hlt, H1. rewrite deserialize_serialize in H1 by done. by injection H1.
Qed.
