(* ===== verification/TreeHashSpec.v ===== *)
(** * SSZ Merkleization

    Hash tree roots of the types of [Schema] over an abstract hash of two
    32-byte nodes, after the SimpleSerialize specification.  The [tree_hash]
    crate is not part of the repository; [Crates] states that it computes
    these roots, and the NIF's own [vec_tree_hash_root] is compared with
    them in [Helpers]. *)
From Stdlib Require Import Init.Byte.
From S2P Require Import Prelude Schema SszSpec.
Open Scope N_scope.

Definition zero_chunk : bytes := replicate 32 x00.

(** Right-padding to a whole chunk, and the chunks of a byte string. *)
Definition pad32 (b : bytes) : bytes := b ++ replicate (32 - length b) x00.

Fixpoint chunks_fuel (fuel : nat) (b : bytes) : list bytes :=
  match fuel, b with
  | S fuel, _ :: _ => pad32 (take 32 b) :: chunks_fuel fuel (drop 32 b)
  | _, _ => []
  end.
Definition chunks (b : bytes) : list bytes := chunks_fuel (length b) b.

(** Chunks needed for a number of bytes. *)
Definition chunk_count (n : N) : N := (n + 31) / 32.

Lemma nlen_chunks_fuel fuel b :
  (length b <= fuel)%nat -> nlen (chunks_fuel fuel b) = chunk_count (nlen b).
Proof.
  revert b. induction fuel as [|fuel IH]; intros b Hb.
  { destruct b; [done|simpl in Hb; lia]. }
  destruct b as [|x b]; [done|]. cbn [chunks_fuel]. rewrite nlen_cons, IH.
  - unfold chunk_count, nlen. rewrite length_drop. simpl length in *.
    destruct (Nat.le_gt_cases (S (length b)) 32).
    + replace (N.of_nat (S (length b) - 32) + 31) with 31 by lia.
      change (31 / 32) with 0. apply (N.div_unique _ _ _ (N.of_nat (length b))); lia.
    + replace (N.of_nat (S (length b)) + 31) with (N.of_nat (S (length b) - 32) + 31 + 1 * 32) by lia.
      rewrite N.div_add by done. lia.
  - rewrite length_drop. simpl in *. lia.
Qed.

Lemma nlen_chunks b : nlen (chunks b) = chunk_count (nlen b).
Proof. by apply nlen_chunks_fuel. Qed.

(** Basic types are packed into chunks; [None] for the others. *)
Definition basic_size (t : ssz_ty) : option N :=
  match t with
  | SBool | SU8 => Some 1
  | SU16 => Some 2
  | SU32 => Some 4
  | SU64 => Some 8
  | _ => None
  end.

Lemma basic_size_fixed t k : basic_size t = Some k -> fixed_size t = Some k.
Proof. by destruct t. Qed.

(** Leaves a collection of at most [n] elements has room for. *)
Definition leaf_limit (t : ssz_ty) (n : N) : N :=
  match basic_size t with
  | Some k => chunk_count (n * k)
  | None => n
  end.

Section root.
(** The hash of the concatenation of two nodes. *)
Variable hash : bytes -> bytes -> bytes.

Fixpoint zero_hash (depth : nat) : bytes :=
  match depth with
  | O => zero_chunk
  | S d => let z := zero_hash d in hash z z
  end.

(** The parents of a layer at height [d]; a missing right sibling is the
    root of an all-zero tree. *)
Fixpoint layer (d : nat) (l : list bytes) : list bytes :=
  match l with
  | [] => []
  | [a] => [hash a (zero_hash d)]
  | a :: b :: l => hash a b :: layer d l
  end.

Fixpoint layers (n d : nat) (l : list bytes) : list bytes :=
  match n with
  | O => l
  | S n => layers n (S d) (layer d l)
  end.

(** The root of a tree of [2 ^ depth] leaves, zero beyond the given ones. *)
Definition merkle_root (depth : nat) (leaves : list bytes) : bytes :=
  match layers depth 0 leaves with
  | r :: _ => r
  | [] => zero_hash depth
  end.

(** [merkleize(chunks, limit)]: pad to the next power of two of the limit. *)
Definition merkleize (limit : N) (leaves : list bytes) : bytes :=
  merkle_root (N.to_nat (N.log2_up limit)) leaves.

Definition mix_in (r : bytes) (len : N) : bytes :=
  hash r (le_bytes 32 (Z.of_N len)).

Fixpoint root (t : ssz_ty) : sval t -> bytes :=
  let leaves (t : ssz_ty) (f : sval t -> bytes) (v : list (sval t)) :=
    match basic_size t with
    | Some _ => chunks (concat (map (serialize t) v))
    | None => map f v
    end in
  match t with
  | SBool => fun v => pad32 (serialize SBool v)
  | SU8 => fun v => pad32 (serialize SU8 v)
  | SU16 => fun v => pad32 (serialize SU16 v)
  | SU32 => fun v => pad32 (serialize SU32 v)
  | SU64 => fun v => pad32 (serialize SU64 v)
  | SArray n => fun v => merkleize (chunk_count n) (chunks v)
  | SUint256 => fun v => merkleize (chunk_count 32) (chunks v)
  | SFixedVector t n => fun v => merkleize (leaf_limit t n) (leaves t (root t) v)
  | SVariableList t n => fun v =>
      mix_in (merkleize (leaf_limit t n) (leaves t (root t) v)) (nlen v)
  | SVec t => fun v =>
      mix_in (merkleize (leaf_limit t (nlen v)) (leaves t (root t) v)) (nlen v)
  | SBitVector n => fun v =>
      merkleize ((n + 255) / 256) (chunks (serialize (SBitVector n) v))
  | SBitList n => fun v =>
      mix_in (merkleize ((n + 255) / 256)
        (chunks (le_bytes ((length v + 7) / 8) (bits_val v)))) (nlen v)
  | SStruct _ fs => fun v =>
      merkleize (nlen fs) (tuple_map sval root fs v)
  end.

(** The leaves of a collection: packed basic values or element roots. *)
Definition leaves (t : ssz_ty) (v : list (sval t)) : list bytes :=
  match basic_size t with
  | Some _ => chunks (concat (map (serialize t) v))
  | None => map (root t) v
  end.

Lemma layers_nil n d : layers n d [] = [].
Proof using Type. revert d. induction n as [|n IH]; intros d; [done|apply IH]. Qed.

Lemma root_fixed_vector t n v :
  root (SFixedVector t n) v = merkleize (leaf_limit t n) (leaves t v).
Proof using Type. done. Qed.

Lemma root_variable_list t n v :
  root (SVariableList t n) v = mix_in (merkleize (leaf_limit t n) (leaves t v)) (nlen v).
Proof using Type. done. Qed.

Lemma nlen_concat_basic t k v :
  basic_size t = Some k -> forallb (sok t) v = true ->
  nlen (concat (map (serialize t) v)) = nlen v * k.
Proof using Type.
  intros Hk Hv. induction v as [|x v IH]; [done|].
  cbn [map concat forallb] in *. apply andb_true_iff in Hv as [Hx Hv].
  rewrite nlen_app, nlen_cons, IH by done.
  rewrite (fixed_size_serialize t k x) by (done || by apply basic_size_fixed). lia.
Qed.

(** The leaves of a collection within its bound fit its tree. *)
Lemma nlen_leaves_eq t v :
  forallb (sok t) v = true -> nlen (leaves t v) = leaf_limit t (nlen v).
Proof using Type.
  unfold leaves, leaf_limit. intros Hv.
  destruct (basic_size t) as [k|] eqn:Hk; [|by rewrite nlen_map].
  by rewrite nlen_chunks, (nlen_concat_basic t k).
Qed.

Lemma leaf_limit_mono t n m : n <= m -> leaf_limit t n <= leaf_limit t m.
Proof using Type.
  unfold leaf_limit. destruct (basic_size t); [|done]. intros.
  unfold chunk_count. apply N.Div0.div_le_mono. nia.
Qed.

Lemma nlen_leaves t v n :
  forallb (sok t) v = true -> nlen v <= n -> nlen (leaves t v) <= leaf_limit t n.
Proof using Type. intros Hv Hn. rewrite nlen_leaves_eq by done. by apply leaf_limit_mono. Qed.
End root.

(** [next_power_of_two], as [usize] has it: the least power of two not below. *)
Definition next_pow2 (n : N) : N := 2 ^ N.log2_up n.

Lemma next_pow2_ge n : n <= next_pow2 n.
Proof.
  unfold next_pow2. destruct (N.le_gt_cases n 1) as [H|H].
  - rewrite N.log2_up_eqn0 by done. done.
  - by apply N.log2_up_spec.
Qed.

Lemma log2_up_next_pow2 n : N.log2_up (next_pow2 n) = N.log2_up n.
Proof. unfold next_pow2. by rewrite N.log2_up_pow2 by lia. Qed.

Lemma merkleize_next_pow2 hash n l : merkleize hash (next_pow2 n) l = merkleize hash n l.
Proof. unfold merkleize. by rewrite log2_up_next_pow2. Qed.

(** ** Roots are 32 bytes long *)
Section root_length.
Context (hash : bytes -> bytes -> bytes) (hash_len : forall a b, nlen (hash a b) = 32).

Lemma nlen_pad32 b : nlen b <= 32 -> nlen (pad32 b) = 32.
Proof using Type. unfold pad32, nlen. rewrite length_app, length_replicate. lia. Qed.

Lemma chunks_len b : Forall (fun c => nlen c = 32) (chunks b).
Proof using Type.
  unfold chunks. generalize (length b) as fuel. intros fuel. revert b.
  induction fuel as [|fuel IH]; intros [|x b]; cbn [chunks_fuel]; constructor; [|apply IH].
  apply nlen_pad32. unfold nlen. rewrite length_take. lia.
Qed.

Lemma zero_hash_len d : nlen (zero_hash hash d) = 32.
Proof using hash_len. destruct d; [done|apply hash_len]. Qed.

Lemma layer_len d l :
  Forall (fun c => nlen c = 32) l -> Forall (fun c => nlen c = 32) (layer hash d l).
Proof using hash_len.
  remember (length l) as n eqn:Hn. revert l Hn.
  induction n as [n IH] using lt_wf_ind. intros [|a [|b l]] Hn Hl; simpl; [done|by repeat constructor|].
  constructor; [done|]. simpl in Hn. apply (IH (length l)); [lia|done|].
  by do 2 apply Forall_inv_tail in Hl.
Qed.

Lemma layers_len n d l :
  Forall (fun c => nlen c = 32) l -> Forall (fun c => nlen c = 32) (layers hash n d l).
Proof using hash_len.
  revert d l. induction n as [|n IH]; intros d l Hl; simpl; [done|]. by apply IH, layer_len.
Qed.

Lemma merkleize_len limit l :
  Forall (fun c => nlen c = 32) l -> nlen (merkleize hash limit l) = 32.
Proof using hash_len.
  intros Hl. unfold merkleize, merkle_root.
  pose proof (layers_len (N.to_nat (N.log2_up limit)) 0 l Hl) as H.
  destruct (layers _ _ _ _); [apply zero_hash_len|]. by apply Forall_inv in H.
Qed.

Lemma root_len t v : nlen (root hash t v) = 32.
Proof using hash_len.
  revert v. induction t using ssz_ty_ind'; intros v; cbn [root];
    try (apply nlen_pad32; cbn [serialize]; rewrite ?nlen_le_bytes; done);
    try (apply merkleize_len, chunks_len); try apply hash_len.
  - apply merkleize_len. destruct (basic_size t); [apply chunks_len|].
    apply Forall_map, Forall_forall. auto.
  - apply merkleize_len. induction H as [|[n t] fs Ht _ IH]; [constructor|].
    cbn [tuple_map]. constructor; [apply Ht|apply IH].
Qed.
End root_length.

Lemma pad32_full b : nlen b = 32 -> pad32 b = b.
Proof.
  unfold pad32, nlen. intros. replace (32 - length b)%nat with 0%nat by lia. apply app_nil_r.
Qed.

Lemma chunks_fuel_concat fuel l :
  Forall (fun c => nlen c = 32) l -> (length (concat l) <= fuel)%nat ->
  chunks_fuel fuel (concat l) = l.
Proof.
  intros Hl. revert fuel. induction Hl as [|c l Hc _ IH]; intros fuel Hf; [by destruct fuel|].
  cbn [concat] in *. rewrite length_app in Hf. unfold nlen in Hc.
  destruct fuel as [|fuel]; [lia|]. destruct c as [|x c]; [done|]. cbn [chunks_fuel app].
  change (x :: c ++ concat l) with ((x :: c) ++ concat l).
  rewrite take_app_length', drop_app_length' by lia.
  rewrite pad32_full by (unfold nlen; lia). f_equal. apply IH. lia.
Qed.

Lemma chunks_concat l : Forall (fun c => nlen c = 32) l -> chunks (concat l) = l.
Proof. intros. by apply chunks_fuel_concat. Qed.
