(* ===== verification/Crates.v ===== *)
(** * Interfaces of the crates the SSZ NIF is built on

    [rustler], [ethereum_ssz], [ssz_types] and [tree_hash] are dependencies:
    their operations are the fields of classes, and what the NIF relies on is
    a second class of laws for each.  The laws restate the documentation of
    the crates: rustler's codecs round trip, the bounded collections check
    their bounds, [ethereum_ssz] implements SSZ (the codec of [SszSpec]) and
    [tree_hash] its Merkleization ([TreeHashSpec]).  [Reference] gives
    instances of all of them. *)
From S2P Require Import Prelude Rust Schema SszSpec TreeHashSpec.
Open Scope N_scope.

(** [rustler::Error]. *)
Inductive nif_error : Type :=
| BadArg
| AtomError (a : string)
| RaiseAtom (a : string)
| RaiseTerm (msg : string)
| TermError (msg : string).

#[export] Instance nif_error_eq_dec : EqDecision nif_error.
Proof. solve_decision. Defined.

(** ** rustler: terms of the Erlang VM and their codecs *)
Class Rustler := {
  Term : Type;
  Atom : Type;
  atom_to_string : Atom -> res nif_error string;
  is_list : Term -> bool;
  decode : forall e : elx_ty, Term -> res nif_error (eval e);
  encode : forall e : elx_ty, eval e -> Term;
  (** [(atoms::ok(), t).encode(env)] *)
  ok_tuple : Term -> Term
}.

Class RustlerLaws `{Rustler} : Prop := {
  decode_encode e v : eok e v = true -> decode e (encode e v) = Ok v;
  decode_eok e t v : decode e t = Ok v -> eok e v = true;
  decode_no_panic e t : no_panic (decode e t);
  is_list_encode e v : is_list (encode e v) = is_vec e;
  atom_to_string_no_panic a : no_panic (atom_to_string a)
}.

(** ** ssz_types: collections that check their length

    Errors are given by their [Debug] rendering, the only use the NIF makes
    of them. *)
Class SszTypesCrate := {
  FixedVector_new : forall {A : Type}, N -> list A -> res string (list A);
  VariableList_new : forall {A : Type}, N -> list A -> res string (list A)
}.

Class SszTypesLaws `{SszTypesCrate} : Prop := {
  FixedVector_new_Ok A n (l : list A) : nlen l = n -> FixedVector_new n l = Ok l;
  FixedVector_new_Err A n (l : list A) :
    nlen l <> n -> exists e, FixedVector_new n l = Err e;
  VariableList_new_Ok A n (l : list A) : nlen l <= n -> VariableList_new n l = Ok l;
  VariableList_new_Err A n (l : list A) :
    n < nlen l -> exists e, VariableList_new n l = Err e
}.

(** ** ethereum_ssz: [Encode] and [Decode], derived for every type *)
Class SszCrate := {
  as_ssz_bytes : forall t : ssz_ty, sval t -> bytes;
  from_ssz_bytes : forall t : ssz_ty, bytes -> res string (sval t)
}.

(** Offsets are four bytes, so encodings are specified below 4 GiB. *)
Class SszLaws `{SszCrate} : Prop := {
  as_ssz_bytes_spec t v :
    sok t v = true -> nlen (serialize t v) < 2 ^ 32 -> as_ssz_bytes t v = serialize t v;
  from_ssz_bytes_Ok t b v : from_ssz_bytes t b = Ok v <-> deserialize t b = Some v;
  from_ssz_bytes_no_panic t b : no_panic (from_ssz_bytes t b)
}.

(** ** tree_hash: [TreeHash], derived for every type, and [MerkleHasher] *)
Inductive TreeHashType : Type := Basic | Vector | List | Container.

Class TreeHashCrate := {
  hash32_concat : bytes -> bytes -> bytes;
  tree_hash_type : ssz_ty -> TreeHashType;
  tree_hash_packing_factor : ssz_ty -> N;
  tree_hash_packed_encoding : forall t : ssz_ty, sval t -> bytes;
  tree_hash_root : forall t : ssz_ty, sval t -> bytes;
  mix_in_length : bytes -> N -> bytes;
  MerkleHasher : Type;
  with_leaves : N -> MerkleHasher;
  write : MerkleHasher -> bytes -> res string MerkleHasher;
  finish : MerkleHasher -> res string bytes
}.

(** A hasher holds the bytes written so far and the number of leaves its tree
    has, the number asked for rounded up to a power of two (which fits a
    [usize] up to [2^63]).  Writing fails
    when a completed leaf does not fit, finishing when the last, partial one
    does not; the root is that of the chunks written, completed with zeros. *)
Class TreeHashLaws `{TreeHashCrate} := {
  written : MerkleHasher -> bytes;
  capacity : MerkleHasher -> N;
  with_leaves_spec n :
    n <= 2 ^ 63 -> written (with_leaves n) = [] /\ capacity (with_leaves n) = next_pow2 n;
  write_Ok h b :
    (nlen (written h) + nlen b) / 32 <= capacity h ->
    exists h', write h b = Ok h' /\ written h' = written h ++ b /\ capacity h' = capacity h;
  write_Err h b :
    capacity h < (nlen (written h) + nlen b) / 32 -> exists e, write h b = Err e;
  finish_Ok h :
    chunk_count (nlen (written h)) <= capacity h ->
    finish h = Ok (merkleize hash32_concat (capacity h) (chunks (written h)));
  finish_Err h :
    capacity h < chunk_count (nlen (written h)) -> exists e, finish h = Err e;
  tree_hash_type_basic t : tree_hash_type t = Basic <-> is_Some (basic_size t);
  packing_factor_basic t k : basic_size t = Some k -> tree_hash_packing_factor t = 32 / k;
  packed_encoding_basic t k v :
    basic_size t = Some k -> sok t v = true -> tree_hash_packed_encoding t v = serialize t v;
  tree_hash_root_spec t v : sok t v = true -> tree_hash_root t v = root hash32_concat t v;
  tree_hash_root_len t v : nlen (tree_hash_root t v) = 32;
  mix_in_length_spec r n : mix_in_length r n = mix_in hash32_concat r n
}.
