(* ===== verification/Reference.v ===== *)
(** * Concrete instances of the crate interfaces

    One model of each class of [Crates]: Erlang terms as a data type, the
    checks of the [ssz_types] constructors, the codec of [SszSpec] and the
    Merkleization of [TreeHashSpec] over a stand-in hash.  They show that the
    laws can hold together and let the NIF be run inside Rocq on concrete
    inputs; no theorem about the NIF depends on them. *)
From Stdlib Require Import Init.Byte.
From S2P Require Import Prelude Rust Schema SszSpec TreeHashSpec Crates.
Open Scope N_scope.

(** ** Erlang terms *)
Inductive term : Type :=
| TAtom (a : string)
| TInt (z : Z)
| TBin (b : bytes)
| TList (l : list term)
| TTuple (l : list term)
| TMap (kvs : list (string * term)).

Section term_fields.
Variable enc : forall e, eval e -> term.
Variable dec : forall e, term -> res nif_error (eval e).

Fixpoint encode_fields (fs : list (string * elx_ty)) : tuple eval fs -> list (string * term) :=
  match fs with
  | [] => fun _ => []
  | (k, e) :: fs => fun v => (k, enc e v.1) :: encode_fields fs v.2
  end.

Fixpoint decode_fields (fs : list (string * elx_ty)) :
    list (string * term) -> res nif_error (tuple eval fs) :=
  match fs with
  | [] => fun _ => Ok tt
  | (k, e) :: fs => fun kvs =>
      match kvs with
      | (k', t) :: kvs =>
          if String.eqb k k' then
            let? v := dec e t in let? vs := decode_fields fs kvs in Ok (v, vs)
          else Err BadArg
      | [] => Err BadArg
      end
  end.
End term_fields.

Definition struct_tag (module : string) : string * term :=
  ("__struct__"%string, TAtom ("Elixir." +:+ module)).

Fixpoint term_encode (e : elx_ty) : eval e -> term :=
  match e with
  | EBool => fun b => TAtom (if b : bool then "true" else "false")
  | EU8 => fun b => TInt (byte_val b)
  | EU16 | EU32 | EU64 => TInt
  | EBinary => TBin
  | EVec e => fun l => TList (map (term_encode e) l)
  | EStruct _ m fs => fun v => TMap (struct_tag m :: encode_fields term_encode fs v)
  end.

Definition decode_int (w : Z) (t : term) : res nif_error Z :=
  match t with
  | TInt z => if fits_width w z then Ok z else Err BadArg
  | _ => Err BadArg
  end.

Fixpoint term_decode (e : elx_ty) : term -> res nif_error (eval e) :=
  match e with
  | EBool => fun t =>
      match t with
      | TAtom a => if String.eqb a "true" then Ok true
                   else if String.eqb a "false" then Ok false else Err BadArg
      | _ => Err BadArg
      end
  | EU8 => fun t => let? z := decode_int 8 t in Ok (byte_of z)
  | EU16 => decode_int 16
  | EU32 => decode_int 32
  | EU64 => decode_int 64
  | EBinary => fun t => match t with TBin b => Ok b | _ => Err BadArg end
  | EVec e => fun t => match t with TList l => collect (term_decode e) l | _ => Err BadArg end
  | EStruct _ m fs => fun t =>
      match t with
      | TMap ((k, TAtom a) :: kvs) =>
          if String.eqb k "__struct__" && String.eqb a ("Elixir." +:+ m)
          then decode_fields term_decode fs kvs else Err BadArg
      | _ => Err BadArg
      end
  end.

#[export] Instance ref_rustler : Rustler := {
  Term := term;
  Atom := string;
  atom_to_string a := Ok a;
  is_list t := match t with TList _ => true | _ => false end;
  decode := term_decode;
  encode := term_encode;
  ok_tuple t := TTuple [TAtom "ok"; t]
}.

Lemma decode_int_Ok w t z : decode_int w t = Ok z <-> t = TInt z /\ fits_width w z = true.
Proof.
  destruct t; simpl; try naive_solver.
  destruct (fits_width w z0) eqn:E; split; try done; [by intros [= <-]|..]; naive_solver congruence.
Qed.

Lemma decode_encode_fields fs v :
  Forall (fun f => forall v, eok f.2 v = true -> term_decode f.2 (term_encode f.2 v) = Ok v) fs ->
  tuple_all eval eok fs v = true ->
  decode_fields term_decode fs (encode_fields term_encode fs v) = Ok v.
Proof.
  intros H. induction H as [|[k e] fs He _ IH]; [by destruct v|].
  destruct v as [v vs]. simpl in *. intros [Hv Hvs]%andb_true_iff.
  by rewrite String.eqb_refl, He, IH.
Qed.

Lemma term_decode_encode e v : eok e v = true -> term_decode e (term_encode e v) = Ok v.
Proof.
  revert v. induction e using elx_ty_ind'; intros v Hv; simpl in *.
  - by destruct v.
  - pose proof (byte_val_range v). unfold fits_width.
    destruct (Z.leb_spec 0 (byte_val v)); [|lia].
    destruct (Z.ltb_spec (byte_val v) (2 ^ 8)); [|lia]. simpl. by rewrite byte_of_val.
  - by rewrite Hv.
  - by rewrite Hv.
  - by rewrite Hv.
  - done.
  - rewrite collect_map. apply collect_Ok_id. intros x Hx. apply IHe.
    by apply (proj1 (forallb_elem _ _) Hv).
  - rewrite String.eqb_refl. simpl. by apply decode_encode_fields.
Qed.

Lemma decode_fields_eok fs kvs v :
  Forall (fun f => forall t v, term_decode f.2 t = Ok v -> eok f.2 v = true) fs ->
  decode_fields term_decode fs kvs = Ok v -> tuple_all eval eok fs v = true.
Proof.
  intros H. revert kvs v. induction H as [|[k e] fs He _ IH]; intros kvs v; [done|].
  simpl in *. destruct kvs as [|[k' t] kvs]; [done|]. destruct (String.eqb k k'); [|done].
  intros Hv. res_destruct. simpl. by erewrite He, IH.
Qed.

Lemma term_decode_eok e t v : term_decode e t = Ok v -> eok e v = true.
Proof.
  revert t v. induction e using elx_ty_ind'; intros t v Hv; simpl in *; try done.
  - by apply decode_int_Ok in Hv as [_ ?].
  - by apply decode_int_Ok in Hv as [_ ?].
  - by apply decode_int_Ok in Hv as [_ ?].
  - destruct t; try done. apply collect_Ok in Hv. apply forallb_Forall.
    induction Hv as [|x y l v Hxy _ IH]; constructor; [by eapply IHe|done].
  - destruct t as [| | | | |[|[k []] kvs]]; try done.
    destruct (_ && _); [|done]. by eapply decode_fields_eok.
Qed.

Lemma decode_fields_no_panic fs kvs :
  Forall (fun f => forall t, no_panic (term_decode f.2 t)) fs ->
  no_panic (decode_fields term_decode fs kvs).
Proof.
  intros H. revert kvs. induction H as [|[k e] fs He _ IH]; intros kvs; [done|].
  simpl in *. destruct kvs as [|[k' t] kvs]; [done|]. destruct (String.eqb k k'); [|done].
  apply bind_no_panic; [apply He|]. intros ? _. by apply bind_no_panic.
Qed.

Lemma decode_int_no_panic w t : no_panic (decode_int w t).
Proof. destruct t; simpl; try done. by destruct (fits_width w z). Qed.

Lemma term_decode_no_panic e t : no_panic (term_decode e t).
Proof.
  revert t. induction e using elx_ty_ind'; intros t; simpl; try apply decode_int_no_panic.
  - destruct t; try done. repeat (destruct (String.eqb _ _); [done|]). done.
  - by apply bind_no_panic; [apply decode_int_no_panic|].
  - by destruct t.
  - destruct t; try done. by apply collect_no_panic.
  - destruct t as [| | | | |[|[k []] kvs]]; try done.
    destruct (_ && _); [|done]. by apply decode_fields_no_panic.
Qed.

#[export] Instance ref_rustler_laws : RustlerLaws.
Proof.
  split; simpl.
  - apply term_decode_encode.
  - apply term_decode_eok.
  - apply term_decode_no_panic.
  - by intros [] v.
  - done.
Qed.

(** ** Bounded collections *)
Definition out_of_bounds : string := "OutOfBounds".

#[export] Instance ref_ssz_types : SszTypesCrate := {
  FixedVector_new A n l := if nlen l =? n then Ok l else Err out_of_bounds;
  VariableList_new A n l := if nlen l <=? n then Ok l else Err out_of_bounds
}.

#[export] Instance ref_ssz_types_laws : SszTypesLaws.
Proof.
  split; simpl; intros A n l Hn.
  - by rewrite (proj2 (N.eqb_eq _ _) Hn).
  - rewrite (proj2 (N.eqb_neq _ _) Hn). eauto.
  - by rewrite (proj2 (N.leb_le _ _) Hn).
  - rewrite (proj2 (N.leb_gt _ _) Hn). eauto.
Qed.

(** ** SSZ *)
#[export] Instance ref_ssz : SszCrate := {
  as_ssz_bytes := serialize;
  from_ssz_bytes t b := ok_or (deserialize t b) "InvalidByteLength"%string
}.

#[export] Instance ref_ssz_laws : SszLaws.
Proof.
  split; simpl.
  - done.
  - intros t b v. destruct (deserialize t b); simpl; naive_solver.
  - intros t b. by destruct (deserialize t b).
Qed.

(** ** Merkleization over a stand-in for SHA-256 *)
Definition toy_hash (a b : bytes) : bytes :=
  le_bytes 32 (3 * le_val a + 5 * le_val b + 7)%Z.

Lemma toy_hash_len a b : nlen (toy_hash a b) = 32.
Proof. unfold toy_hash. by rewrite nlen_le_bytes. Qed.

Definition type_of (t : ssz_ty) : TreeHashType :=
  match t with
  | SBool | SU8 | SU16 | SU32 | SU64 => Basic
  | SStruct _ _ => Container
  | SVariableList _ _ | SBitList _ | SVec _ => List
  | SArray _ | SFixedVector _ _ | SBitVector _ | SUint256 => Vector
  end.

#[export] Instance ref_tree_hash : TreeHashCrate := {
  hash32_concat := toy_hash;
  tree_hash_type := type_of;
  tree_hash_packing_factor t := match basic_size t with Some k => 32 / k | None => 1 end;
  tree_hash_packed_encoding := serialize;
  tree_hash_root := root toy_hash;
  mix_in_length := mix_in toy_hash;
  MerkleHasher := (N * bytes)%type;
  with_leaves n := (next_pow2 n, []);
  write h b :=
    if (nlen h.2 + nlen b) / 32 <=? h.1 then Ok (h.1, h.2 ++ b)
    else Err "MaximumLeavesExceeded"%string;
  finish h :=
    if chunk_count (nlen h.2) <=? h.1 then Ok (merkleize toy_hash h.1 (chunks h.2))
    else Err "MaximumLeavesExceeded"%string
}.

#[export] Instance ref_tree_hash_laws : TreeHashLaws.
Proof.
  refine {| written := snd : MerkleHasher -> bytes; capacity := fst : MerkleHasher -> N |}; simpl.
  - by intros n _.
  - intros h b Hb. rewrite (proj2 (N.leb_le _ _) Hb). eauto.
  - intros h b Hb. rewrite (proj2 (N.leb_gt _ _) Hb). eauto.
  - intros h Hb. by rewrite (proj2 (N.leb_le _ _) Hb).
  - intros h Hb. rewrite (proj2 (N.leb_gt _ _) Hb). eauto.
  - intros []; split; simpl; try done; by intros [].
  - by intros t k ->.
  - done.
  - done.
  - apply root_len, toy_hash_len.
  - done.
Defined.
