(* ===== verification/Convert.v ===== *)
(** * Conversions between the Elixir and the SSZ types

    [utils/from_elx.rs], [utils/from_ssz.rs] and the impls the [gen_struct]
    macros of [utils/mod.rs] generate.  The traits [FromElx<T>] and
    [FromSsz<T>] have impls for the same pairs of types; [Conv s e] is the
    type of those pairs, one constructor per pair of impls, and a value of it
    is what trait resolution finds.  [from_elx] and [from_ssz] are the two
    methods. *)
From Stdlib Require Import Init.Byte.
From S2P Require Import Prelude Rust Config Schema SszTypes ElxTypes SszSpec TreeHashSpec Crates Reference.
Open Scope N_scope.

(** [struct FromElxError(String)]; [from_display] and [from_debug] keep the
    rendering of the error, [Display] prints it back. *)
Record FromElxError := { message : string }.
Definition from_display (t : string) : FromElxError := {| message := t |}.
Definition from_debug (t : string) : FromElxError := {| message := t |}.
Definition to_string (e : FromElxError) : string := message e.

(** ** The impls

    Both traits for the same pair of types: what trait resolution derives. *)
Inductive Conv : ssz_ty -> elx_ty -> Type :=
| conv_bool : Conv SBool EBool                               (* trivial_impl!(bool) *)
| conv_u8 : Conv SU8 EU8                                     (* trivial_impl!(u8) *)
| conv_u16 : Conv SU16 EU16                                  (* trivial_impl!(u16) *)
| conv_u32 : Conv SU32 EU32                                  (* trivial_impl!(u32) *)
| conv_u64 : Conv SU64 EU64                                  (* trivial_impl!(u64) *)
| conv_array n : Conv (SArray n) EBinary                     (* [u8; N] / Binary *)
| conv_vec s e : Conv s e -> Conv (SVec s) (EVec e)          (* Vec<Ssz> / Vec<Elx> *)
| conv_fixed_bytes n : Conv (SFixedVector SU8 n) EBinary     (* FixedVector<u8, N> / Binary *)
| conv_fixed_vector s e n :
    Conv s e -> Conv (SFixedVector s n) (EVec e)             (* FixedVector<Ssz, N> / Vec<Elx> *)
| conv_variable_list s e n :
    Conv s e -> Conv (SVariableList s n) (EVec e)            (* VariableList<Ssz, N> / Vec<Elx> *)
| conv_bitlist n : Conv (SBitList n) EBinary                 (* BitList<N> / Binary *)
| conv_bitvector n : Conv (SBitVector n) EBinary             (* BitVector<N> / Binary *)
| conv_variable_bytes n : Conv (SVariableList SU8 n) EBinary (* VariableList<u8, N> / Binary *)
| conv_uint256 : Conv SUint256 EBinary                       (* Uint256 / Binary *)
| conv_struct name module fs es :                            (* gen_struct!, gen_struct_with_config! *)
    ConvFields fs es -> Conv (SStruct name fs) (EStruct name module es)
(** The fields of a struct: the same names, a conversion for each. *)
with ConvFields : list (string * ssz_ty) -> list (string * elx_ty) -> Type :=
| fields_nil : ConvFields [] []
| fields_cons name s e fs es :
    Conv s e -> ConvFields fs es -> ConvFields ((name, s) :: fs) ((name, e) :: es).

Scheme Conv_fields_ind := Induction for Conv Sort Prop
  with ConvFields_conv_ind := Induction for ConvFields Sort Prop.
Combined Scheme conv_mutind from Conv_fields_ind, ConvFields_conv_ind.

(** Trait resolution: structural on the types, as the compiler does it. *)
Ltac resolve_conv :=
  intros;
  repeat (lazymatch goal with
          | |- ConvFields _ _ => constructor
          | |- Conv ?s ?e => let s' := eval hnf in s in let e' := eval hnf in e in
                             change (Conv s' e'); econstructor
          end).

Section conversions.
Context `{SszTypesCrate, SszCrate}.

(** [value.as_slice().try_into()] into [[u8; N]]. *)
Definition from_elx_array (n : N) (value : bytes) : res FromElxError bytes :=
  if nlen value =? n then Ok value
  else Err (from_display "could not convert slice to array").

Definition from_elx_fixed_bytes (n : N) (value : bytes) : res FromElxError bytes :=
  map_err from_debug (FixedVector_new n value).

Definition from_elx_variable_bytes (n : N) (value : bytes) : res FromElxError bytes :=
  map_err from_debug (VariableList_new n value).

Definition from_elx_vec {A B} (f : A -> res FromElxError B) (value : list A) :
    res FromElxError (list B) :=
  collect f value.

Definition from_elx_fixed_vector {A B} (f : A -> res FromElxError B) (n : N) (value : list A) :
    res FromElxError (list B) :=
  let? v := collect f value in
  map_err from_debug (FixedVector_new n v).

Definition from_elx_variable_list {A B} (f : A -> res FromElxError B) (n : N) (value : list A) :
    res FromElxError (list B) :=
  let? v := collect f value in
  map_err from_debug (VariableList_new n v).

Definition from_elx_bitlist (n : N) (value : bytes) : res FromElxError (list bool) :=
  map_err from_debug (from_ssz_bytes (SBitList n) value).

Definition from_elx_bitvector (n : N) (value : bytes) : res FromElxError (list bool) :=
  map_err from_debug (from_ssz_bytes (SBitVector n) value).

(** A 32-byte zeroed array, its prefix overwritten by the binary. *)
Definition from_elx_uint256 (value : bytes) : res FromElxError bytes :=
  let v := replicate 32 x00 in
  Ok (if 0 <? nlen value then
        let len := N.min (nlen v) (nlen value) in
        ntake len value ++ ndrop len v
      else v).

(** [FromElx::from]; for structs, the fields in order, each with [?]. *)
Fixpoint from_elx {s e} (c : Conv s e) : eval e -> res FromElxError (sval s) :=
  match c in Conv s e return eval e -> res FromElxError (sval s) with
  | conv_bool => Ok
  | conv_u8 => Ok
  | conv_u16 => Ok
  | conv_u32 => Ok
  | conv_u64 => Ok
  | conv_array n => from_elx_array n
  | conv_vec s e c => from_elx_vec (from_elx c)
  | conv_fixed_bytes n => from_elx_fixed_bytes n
  | conv_fixed_vector s e n c => from_elx_fixed_vector (from_elx c) n
  | conv_variable_list s e n c => from_elx_variable_list (from_elx c) n
  | conv_bitlist n => from_elx_bitlist n
  | conv_bitvector n => from_elx_bitvector n
  | conv_variable_bytes n => from_elx_variable_bytes n
  | conv_uint256 => from_elx_uint256
  | conv_struct name module fs es c => from_elx_fields c
  end
with from_elx_fields {fs es} (c : ConvFields fs es) :
    tuple eval es -> res FromElxError (tuple sval fs) :=
  match c in ConvFields fs es return tuple eval es -> res FromElxError (tuple sval fs) with
  | fields_nil => fun _ => Ok tt
  | fields_cons name s e fs es c cs => fun elx =>
      let? field := from_elx c elx.1 in
      let? fields := from_elx_fields cs elx.2 in
      Ok (field, fields)
  end.

(** [bytes_to_binary(env, ..)]: the binary holds the bytes of the slice. *)
Definition binary_of (bs : bytes) : bytes :=
  match bytes_to_binary (E := string) bs with Ok b => b | _ => [] end.

(** [FromSsz::from]. *)
Fixpoint from_ssz {s e} (c : Conv s e) : sval s -> eval e :=
  match c in Conv s e return sval s -> eval e with
  | conv_bool => fun value => value
  | conv_u8 => fun value => value
  | conv_u16 => fun value => value
  | conv_u32 => fun value => value
  | conv_u64 => fun value => value
  | conv_array n => binary_of
  | conv_vec s e c => map (from_ssz c)
  | conv_fixed_bytes n => binary_of
  | conv_fixed_vector s e n c => map (from_ssz c)
  | conv_variable_list s e n c => map (from_ssz c)
  | conv_bitlist n => fun value => binary_of (as_ssz_bytes (SBitList n) value)
  | conv_bitvector n => fun value => binary_of (as_ssz_bytes (SBitVector n) value)
  | conv_variable_bytes n => binary_of
  | conv_uint256 => binary_of
  | conv_struct name module fs es c => from_ssz_fields c
  end
with from_ssz_fields {fs es} (c : ConvFields fs es) : tuple sval fs -> tuple eval es :=
  match c in ConvFields fs es return tuple sval fs -> tuple eval es with
  | fields_nil => fun _ => tt
  | fields_cons name s e fs es c cs => fun ssz =>
      (from_ssz c ssz.1, from_ssz_fields cs ssz.2)
  end.
End conversions.

(** ** What the conversions guarantee *)

(** Bit fields short enough for the 4 GiB bound of the SSZ encoder. *)
Fixpoint bits_bounded (s : ssz_ty) : bool :=
  match s with
  | SBitList n | SBitVector n => n <? 2 ^ 32
  | SFixedVector t _ | SVariableList t _ | SVec t => bits_bounded t
  | SStruct _ fs => forallb (fun f => bits_bounded f.2) fs
  | _ => true
  end.

(** Types without a [Uint256] inside. *)
Fixpoint no_uint256 (s : ssz_ty) : bool :=
  match s with
  | SUint256 => false
  | SFixedVector t _ | SVariableList t _ | SVec t => no_uint256 t
  | SStruct _ fs => forallb (fun f => no_uint256 f.2) fs
  | _ => true
  end.

(** The first 32 bytes of a binary, padded with zeros. *)
Definition fit32 (b : bytes) : bytes := ntake 32 (b ++ replicate 32 x00).

(** The Elixir value with every [Uint256] binary cut or padded to 32 bytes. *)
Fixpoint canonical {s e} (c : Conv s e) : eval e -> eval e :=
  match c in Conv s e return eval e -> eval e with
  | conv_vec s e c | conv_fixed_vector s e _ c | conv_variable_list s e _ c => map (canonical c)
  | conv_uint256 => fit32
  | conv_struct name module fs es c => canonical_fields c
  | _ => fun x => x
  end
with canonical_fields {fs es} (c : ConvFields fs es) : tuple eval es -> tuple eval es :=
  match c in ConvFields fs es return tuple eval es -> tuple eval es with
  | fields_nil => fun x => x
  | fields_cons name s e fs es c cs => fun x => (canonical c x.1, canonical_fields cs x.2)
  end.

(** The Elixir values a conversion accepts: byte strings of the right length,
    lists within their bounds, bit fields in SSZ form. *)
Fixpoint accepts {s e} (c : Conv s e) : eval e -> bool :=
  match c in Conv s e return eval e -> bool with
  | conv_array n | conv_fixed_bytes n => fun x : bytes => nlen x =? n
  | conv_variable_bytes n => fun x : bytes => nlen x <=? n
  | conv_vec s e c => fun x => forallb (accepts c) x
  | conv_fixed_vector s e n c => fun x => forallb (accepts c) x && (nlen x =? n)
  | conv_variable_list s e n c => fun x => forallb (accepts c) x && (nlen x <=? n)
  | conv_bitlist n => fun x => bool_decide (is_Some (deserialize (SBitList n) x))
  | conv_bitvector n => fun x => bool_decide (is_Some (deserialize (SBitVector n) x))
  | conv_struct name module fs es c => accepts_fields c
  | _ => fun _ => true
  end
with accepts_fields {fs es} (c : ConvFields fs es) : tuple eval es -> bool :=
  match c in ConvFields fs es return tuple eval es -> bool with
  | fields_nil => fun _ => true
  | fields_cons name s e fs es c cs => fun x => accepts c x.1 && accepts_fields cs x.2
  end.

Lemma binary_of_id bs : binary_of bs = bs.
Proof. unfold binary_of. by rewrite bytes_to_binary_Ok. Qed.

Lemma fit32_length b : nlen (fit32 b) = 32.
Proof. unfold fit32. rewrite nlen_ntake, nlen_app, nlen_replicate. lia. Qed.

Lemma fit32_id b : nlen b = 32 -> fit32 b = b.
Proof. intros. unfold fit32. by rewrite ntake_app. Qed.

Lemma le_val_fit32 b : le_val (fit32 b) = (le_val b mod 2 ^ 256)%Z.
Proof.
  unfold fit32. set (w := b ++ replicate 32 x00).
  assert (32 <= length w)%nat by (unfold w; rewrite length_app, length_replicate; lia).
  assert (le_val w = le_val b) as <-.
  { unfold w. rewrite le_val_app, le_val_zeros. lia. }
  rewrite <- (ntake_ndrop 32 w) at 2. rewrite le_val_app.
  pose proof (le_val_range (ntake 32 w)) as Hr.
  assert (length (ntake 32 w) = 32%nat) as Hl by (unfold ntake; rewrite length_take; lia).
  rewrite Hl in *. change (256 ^ Z.of_nat 32)%Z with (2 ^ 256)%Z in *.
  rewrite (Z.mul_comm (2 ^ 256)), Z_mod_plus_full. by rewrite Z.mod_small.
Qed.

Section laws.
Context `{SszTypesLaws, SszLaws}.

Lemma from_elx_uint256_fit32 b : from_elx_uint256 b = Ok (fit32 b).
Proof using Type.
  unfold from_elx_uint256, fit32, ntake, ndrop, nlen. f_equal.
  destruct (N.ltb_spec 0 (N.of_nat (length b))) as [|Hb].
  - rewrite length_replicate, take_app, drop_replicate.
    destruct (Nat.le_gt_cases 32 (length b)).
    + replace (N.to_nat (N.min (N.of_nat 32) (N.of_nat (length b)))) with 32%nat by lia.
      replace (N.to_nat 32 - length b)%nat with 0%nat by lia. done.
    + replace (N.to_nat (N.min (N.of_nat 32) (N.of_nat (length b)))) with (length b) by lia.
      rewrite !take_ge by (rewrite ?length_replicate; lia).
      rewrite take_replicate. do 2 f_equal. lia.
  - destruct b; [done|]. simpl in Hb. lia.
Qed.

Lemma as_ssz_bitlist n v :
  nlen v <= n -> n < 2 ^ 32 -> as_ssz_bytes (SBitList n) v = serialize (SBitList n) v.
Proof using Type*.
  intros Hv Hn. apply as_ssz_bytes_spec; [by apply N.leb_le|].
  cbn [serialize]. rewrite nlen_le_bytes. unfold nlen in Hv.
  pose proof (Nat.Div0.mul_div_le (length v) 8). lia.
Qed.

Lemma as_ssz_bitvector n v :
  nlen v = n -> n < 2 ^ 32 -> as_ssz_bytes (SBitVector n) v = serialize (SBitVector n) v.
Proof using Type*.
  intros Hv Hn. apply as_ssz_bytes_spec; [by apply N.eqb_eq|].
  cbn [serialize]. rewrite nlen_le_bytes, N2Nat.id.
  apply N.Div0.div_lt_upper_bound. lia.
Qed.

Lemma from_elx_bitlist_Ok n b v :
  from_elx_bitlist n b = Ok v <-> deserialize (SBitList n) b = Some v.
Proof using Type*.
  etransitivity; [apply map_err_Ok|]. apply (from_ssz_bytes_Ok (SBitList n)).
Qed.

Lemma from_elx_bitvector_Ok n b v :
  from_elx_bitvector n b = Ok v <-> deserialize (SBitVector n) b = Some v.
Proof using Type*.
  etransitivity; [apply map_err_Ok|]. apply (from_ssz_bytes_Ok (SBitVector n)).
Qed.

Lemma FixedVector_new_inv {A} n (l v : list A) :
  FixedVector_new n l = Ok v <-> l = v /\ nlen l = n.
Proof using Type*.
  destruct (decide (nlen l = n)) as [Hn|Hn].
  - rewrite FixedVector_new_Ok by done. naive_solver.
  - destruct (FixedVector_new_Err _ _ _ Hn) as [e ->]. naive_solver.
Qed.

Lemma VariableList_new_inv {A} n (l v : list A) :
  VariableList_new n l = Ok v <-> l = v /\ nlen l <= n.
Proof using Type*.
  destruct (N.le_gt_cases (nlen l) n) as [Hn|Hn].
  - rewrite VariableList_new_Ok by done. naive_solver.
  - destruct (VariableList_new_Err _ _ _ Hn) as [e ->]. split; [done|]. intros [_ ?]. lia.
Qed.

(** The collections, given the conversion of their elements. *)
Lemma from_elx_fixed_vector_Ok {A B} (f : A -> res FromElxError B) n l v :
  from_elx_fixed_vector f n l = Ok v <-> collect f l = Ok v /\ nlen v = n.
Proof using Type*.
  unfold from_elx_fixed_vector. rewrite bind_Ok. split.
  - intros (w & Hw & [-> Hn]%map_err_Ok%FixedVector_new_inv). done.
  - intros [Hv Hn]. exists v. split; [done|]. by apply map_err_Ok, FixedVector_new_inv.
Qed.

Lemma from_elx_variable_list_Ok {A B} (f : A -> res FromElxError B) n l v :
  from_elx_variable_list f n l = Ok v <-> collect f l = Ok v /\ nlen v <= n.
Proof using Type*.
  unfold from_elx_variable_list. rewrite bind_Ok. split.
  - intros (w & Hw & [-> Hn]%map_err_Ok%VariableList_new_inv). done.
  - intros [Hv Hn]. exists v. split; [done|]. by apply map_err_Ok, VariableList_new_inv.
Qed.

Lemma from_elx_fixed_bytes_Ok n b v :
  from_elx_fixed_bytes n b = Ok v <-> b = v /\ nlen b = n.
Proof using Type*. etransitivity; [apply map_err_Ok|]. apply FixedVector_new_inv. Qed.

Lemma from_elx_variable_bytes_Ok n b v :
  from_elx_variable_bytes n b = Ok v <-> b = v /\ nlen b <= n.
Proof using Type*. etransitivity; [apply map_err_Ok|]. apply VariableList_new_inv. Qed.

Lemma from_elx_array_Ok n b v : from_elx_array n b = Ok v <-> b = v /\ nlen b = n.
Proof using Type.
  unfold from_elx_array. destruct (N.eqb_spec (nlen b) n); naive_solver.
Qed.

Lemma from_elx_fields_cons_Ok name s e fs es (c : Conv s e) (cs : ConvFields fs es) x v :
  from_elx_fields (fields_cons name s e fs es c cs) x = Ok v <->
  from_elx c x.1 = Ok v.1 /\ from_elx_fields cs x.2 = Ok v.2.
Proof using Type.
  change (from_elx_fields (fields_cons name s e fs es c cs) x) with
    (let? field := from_elx c x.1 in let? fields := from_elx_fields cs x.2 in
     Ok (field, fields)).
  destruct (from_elx c x.1), (from_elx_fields cs x.2), v; simpl; naive_solver.
Qed.

(** Converting out of the SSZ types and back is the identity. *)
Lemma from_elx_from_ssz_mut :
  (forall s e (c : Conv s e) v, sok s v = true -> bits_bounded s = true ->
    from_elx c (from_ssz c v) = Ok v) /\
  (forall fs es (c : ConvFields fs es) v, tuple_all sval sok fs v = true ->
    forallb (fun f => bits_bounded f.2) fs = true ->
    from_elx_fields c (from_ssz_fields c v) = Ok v).
Proof using Type*.
  apply conv_mutind.
  1-14: cbn [from_elx from_ssz sok bits_bounded]; intros *; rewrite ?binary_of_id; try done.
  - intros Hv%N.eqb_eq _. by apply from_elx_array_Ok.
  - intros IH v Hv Hb. unfold from_elx_vec. rewrite collect_map. apply collect_Ok_id.
    intros x Hx. apply IH; [|done]. by apply (proj1 (forallb_elem _ _) Hv).
  - intros [Hn _]%andb_true_iff _. apply from_elx_fixed_bytes_Ok. by apply N.eqb_eq in Hn.
  - intros IH v [Hn Hv]%andb_true_iff Hb. apply from_elx_fixed_vector_Ok.
    apply N.eqb_eq in Hn. split; [|done]. rewrite collect_map. apply collect_Ok_id.
    intros x Hx. apply IH; [|done]. by apply (proj1 (forallb_elem _ _) Hv).
  - intros IH v [Hn Hv]%andb_true_iff Hb. apply from_elx_variable_list_Ok.
    apply N.leb_le in Hn. split; [|done]. rewrite collect_map. apply collect_Ok_id.
    intros x Hx. apply IH; [|done]. by apply (proj1 (forallb_elem _ _) Hv).
  - intros Hv%N.leb_le Hb%N.ltb_lt. apply from_elx_bitlist_Ok.
    rewrite as_ssz_bitlist by done. by apply deserialize_serialize_bitlist.
  - intros Hv%N.eqb_eq Hb%N.ltb_lt. apply from_elx_bitvector_Ok.
    rewrite as_ssz_bitvector by done. by apply deserialize_serialize_bits.
  - intros [Hn _]%andb_true_iff _. apply from_elx_variable_bytes_Ok. by apply N.leb_le in Hn.
  - intros Hv%N.eqb_eq _. rewrite from_elx_uint256_fit32. f_equal. by apply fit32_id.
  - intros name module fs es c IH v. apply IH.
  - by intros [] _ _.
  - intros name s e fs es c IHc cs IHcs [v vs] [Hv Hvs]%tuple_all_cons [Hb Hbs]%andb_true_iff.
    apply from_elx_fields_cons_Ok. split; [by apply IHc|by apply IHcs].
Qed.

Lemma collect_forallb {A B} (f : A -> res FromElxError B) (P : A -> bool) (Q : B -> bool) l v :
  (forall x y, P x = true -> f x = Ok y -> Q y = true) ->
  forallb P l = true -> collect f l = Ok v -> forallb Q v = true.
Proof using Type.
  intros Hf Hl Hv%collect_Ok. apply forallb_Forall. apply forallb_Forall in Hl.
  induction Hv as [|x y l v Hxy _ IH]; [constructor|].
  inversion Hl; subst. constructor; [by eapply Hf|by apply IH].
Qed.

(** Converted values are well-formed. *)
Lemma from_elx_sok_mut :
  (forall s e (c : Conv s e) x v, eok e x = true -> from_elx c x = Ok v -> sok s v = true) /\
  (forall fs es (c : ConvFields fs es) x v, tuple_all eval eok es x = true ->
    from_elx_fields c x = Ok v -> tuple_all sval sok fs v = true).
Proof using Type*.
  apply conv_mutind.
  1-14: cbn [from_elx sok eok]; intros *; try done.
  1-3: by intros Hx [= <-].
  - intros _ [<- Hn]%from_elx_array_Ok. by apply N.eqb_eq.
  - intros IH x v Hx Hv. by eapply collect_forallb.
  - intros _ [<- Hn]%from_elx_fixed_bytes_Ok. apply andb_true_iff.
    split; [by apply N.eqb_eq|]. by apply forallb_elem.
  - intros IH x v Hx [Hv Hn]%from_elx_fixed_vector_Ok. apply andb_true_iff.
    split; [by apply N.eqb_eq|]. by eapply collect_forallb.
  - intros IH x v Hx [Hv Hn]%from_elx_variable_list_Ok. apply andb_true_iff.
    split; [by apply N.leb_le|]. by eapply collect_forallb.
  - intros _ Hv%from_elx_bitlist_Ok. by apply serialize_deserialize in Hv as [? _].
  - intros _ Hv%from_elx_bitvector_Ok. by apply serialize_deserialize in Hv as [? _].
  - intros _ [<- Hn]%from_elx_variable_bytes_Ok. apply andb_true_iff.
    split; [by apply N.leb_le|]. by apply forallb_elem.
  - rewrite from_elx_uint256_fit32. intros _ [= <-]. by rewrite fit32_length.
  - intros name module fs es c IH x v. apply IH.
  - done.
  - intros name s e fs es c IHc cs IHcs [x xs] [v vs] [Hx Hxs]%tuple_all_cons
      [Hv Hvs]%from_elx_fields_cons_Ok.
    apply tuple_all_cons. split; [by eapply IHc|by eapply IHcs].
Qed.

Lemma collect_map_back {A B} (f : A -> res FromElxError B) (g : B -> A) (h : A -> A) l v :
  (forall x y, f x = Ok y -> g y = h x) -> collect f l = Ok v -> map g v = map h l.
Proof using Type.
  intros Hf Hv%collect_Ok. induction Hv as [|x y l v Hxy _ IH]; [done|].
  simpl. by rewrite IH, (Hf x y).
Qed.

(** Converting into the SSZ types and back only normalizes the [Uint256]s. *)
Lemma from_ssz_from_elx_mut :
  (forall s e (c : Conv s e) x v, bits_bounded s = true ->
    from_elx c x = Ok v -> from_ssz c v = canonical c x) /\
  (forall fs es (c : ConvFields fs es) x v, forallb (fun f => bits_bounded f.2) fs = true ->
    from_elx_fields c x = Ok v -> from_ssz_fields c v = canonical_fields c x).
Proof using Type*.
  apply conv_mutind.
  1-14: cbn [from_elx from_ssz canonical bits_bounded]; intros *; rewrite ?binary_of_id.
  1-5: by intros _ [= <-].
  - by intros _ [<- _]%from_elx_array_Ok.
  - intros IH x v Hb Hv. eapply collect_map_back; [|done]. intros ??. by apply IH.
  - by intros _ [<- _]%from_elx_fixed_bytes_Ok.
  - intros IH x v Hb [Hv _]%from_elx_fixed_vector_Ok.
    eapply collect_map_back; [|done]. intros ??. by apply IH.
  - intros IH x v Hb [Hv _]%from_elx_variable_list_Ok.
    eapply collect_map_back; [|done]. intros ??. by apply IH.
  - intros Hb%N.ltb_lt [Hok Hs]%from_elx_bitlist_Ok%serialize_deserialize.
    apply N.leb_le in Hok. by rewrite as_ssz_bitlist.
  - intros Hb%N.ltb_lt [Hok Hs]%from_elx_bitvector_Ok%serialize_deserialize.
    apply N.eqb_eq in Hok. by rewrite as_ssz_bitvector.
  - by intros _ [<- _]%from_elx_variable_bytes_Ok.
  - rewrite from_elx_uint256_fit32. by intros _ [= <-].
  - intros name module fs es c IH x v. apply IH.
  - by intros [] [].
  - intros name s e fs es c IHc cs IHcs [x xs] [v vs] [Hb Hbs]%andb_true_iff
      [Hv Hvs]%from_elx_fields_cons_Ok.
    change ((from_ssz c v, from_ssz_fields cs vs) = (canonical c x, canonical_fields cs xs)).
    f_equal; [by apply IHc|by apply IHcs].
Qed.

Lemma canonical_id_mut :
  (forall s e (c : Conv s e) x, no_uint256 s = true -> canonical c x = x) /\
  (forall fs es (c : ConvFields fs es) x,
    forallb (fun f => no_uint256 f.2) fs = true -> canonical_fields c x = x).
Proof using Type.
  apply conv_mutind.
  1-14: cbn [canonical no_uint256]; intros *; try done.
  1-3: intros; etransitivity; [|apply map_id]; apply map_ext; auto.
  - intros name module fs es c IH x. apply IH.
  - done.
  - intros name s e fs es c IHc cs IHcs [x xs] [Hb Hbs]%andb_true_iff.
    change ((canonical c x, canonical_fields cs xs) = (x, xs)).
    f_equal; [by apply IHc|by apply IHcs].
Qed.

Lemma is_ok_fixed_new {A} n (l : list A) : is_ok (FixedVector_new n l) = (nlen l =? n).
Proof using Type*.
  destruct (N.eqb_spec (nlen l) n) as [Hn|Hn].
  - by rewrite FixedVector_new_Ok.
  - by destruct (FixedVector_new_Err _ _ _ Hn) as [e ->].
Qed.

Lemma is_ok_variable_new {A} n (l : list A) : is_ok (VariableList_new n l) = (nlen l <=? n).
Proof using Type*.
  destruct (N.leb_spec (nlen l) n) as [Hn|Hn].
  - by rewrite VariableList_new_Ok.
  - by destruct (VariableList_new_Err _ _ _ Hn) as [e ->].
Qed.

Lemma is_ok_collect_bind {A B C} (f : A -> res FromElxError B) (P : A -> bool)
    (k : list B -> res FromElxError C) (q : N -> bool) l :
  (forall x, is_ok (f x) = P x) -> (forall v, is_ok (k v) = q (nlen v)) ->
  is_ok (bind (collect f l) k) = forallb P l && q (nlen l).
Proof using Type.
  intros Hf Hk. pose proof (collect_is_ok f l) as Hl.
  rewrite (forallb_ext _ P) in Hl by done.
  destruct (collect f l) as [v|e|p] eqn:E; simpl in *; rewrite <- Hl; [|done..].
  simpl. by rewrite Hk, (nlen_collect _ _ _ E).
Qed.

Lemma is_ok_bits s b :
  is_ok (map_err from_debug (from_ssz_bytes s b)) = bool_decide (is_Some (deserialize s b)).
Proof using Type*.
  rewrite is_ok_map_err. destruct (deserialize s b) as [v|] eqn:E.
  - apply from_ssz_bytes_Ok in E. by rewrite E.
  - destruct (from_ssz_bytes s b) eqn:E'; [|done..]. apply from_ssz_bytes_Ok in E'. congruence.
Qed.

(** A conversion succeeds exactly on the values [accepts] describes. *)
Lemma from_elx_accepts_mut :
  (forall s e (c : Conv s e) x, is_ok (from_elx c x) = accepts c x) /\
  (forall fs es (c : ConvFields fs es) x, is_ok (from_elx_fields c x) = accepts_fields c x).
Proof using Type*.
  apply conv_mutind.
  1-14: cbn [from_elx accepts]; try done.
  - intros n x. unfold from_elx_array. by destruct (nlen x =? n).
  - intros s e c IH x. etransitivity; [apply collect_is_ok|].
    by apply forallb_ext.
  - intros n x. etransitivity; [apply is_ok_map_err|]. apply is_ok_fixed_new.
  - intros s e n c IH x. apply (is_ok_collect_bind _ _ _ (fun k => k =? n)); [done|].
    intros v. rewrite is_ok_map_err. apply is_ok_fixed_new.
  - intros s e n c IH x. apply (is_ok_collect_bind _ _ _ (fun k => k <=? n)); [done|].
    intros v. rewrite is_ok_map_err. apply is_ok_variable_new.
  - intros n x. apply (is_ok_bits (SBitList n)).
  - intros n x. apply (is_ok_bits (SBitVector n)).
  - intros n x. etransitivity; [apply is_ok_map_err|]. apply is_ok_variable_new.
  - intros name module fs es c IH x. apply IH.
  - done.
  - intros name s e fs es c IHc cs IHcs [x xs].
    change (is_ok (let? field := from_elx c x in let? fields := from_elx_fields cs xs in
      Ok (field, fields)) = accepts c x && accepts_fields cs xs).
    rewrite <- IHc, <- IHcs. by destruct (from_elx c x), (from_elx_fields cs xs).
Qed.

Lemma fixed_new_no_panic {A} n (l : list A) : no_panic (FixedVector_new n l).
Proof using Type*.
  destruct (decide (nlen l = n)) as [Hn|Hn].
  - by rewrite FixedVector_new_Ok.
  - by destruct (FixedVector_new_Err _ _ _ Hn) as [e ->].
Qed.

Lemma variable_new_no_panic {A} n (l : list A) : no_panic (VariableList_new n l).
Proof using Type*.
  destruct (N.le_gt_cases (nlen l) n) as [Hn|Hn].
  - by rewrite VariableList_new_Ok.
  - by destruct (VariableList_new_Err _ _ _ Hn) as [e ->].
Qed.

Hint Resolve bind_no_panic map_err_no_panic collect_no_panic fixed_new_no_panic
  variable_new_no_panic from_ssz_bytes_no_panic : no_panic.

Lemma from_elx_no_panic_mut :
  (forall s e (c : Conv s e) x, no_panic (from_elx c x)) /\
  (forall fs es (c : ConvFields fs es) x, no_panic (from_elx_fields c x)).
Proof using Type*.
  apply conv_mutind.
  1-14: cbn [from_elx]; intros;
    unfold from_elx_vec, from_elx_fixed_bytes, from_elx_variable_bytes,
      from_elx_fixed_vector, from_elx_variable_list, from_elx_bitlist, from_elx_bitvector,
      from_elx_uint256; try done; auto with no_panic.
  - unfold from_elx_array. by destruct (_ =? _).
  - by apply collect_no_panic.
  - intros name module fs es c IH x. apply IH.
  - done.
  - intros name s e fs es c IHc cs IHcs x.
    apply (bind_no_panic (from_elx c x.1)); [apply IHc|]. intros ? _.
    apply bind_no_panic; [apply IHcs|done].
Qed.

(** The error of every field on its own, in declaration order. *)
Fixpoint field_errors {fs es} (c : ConvFields fs es) :
    tuple eval es -> list (option FromElxError) :=
  match c in ConvFields fs es return tuple eval es -> list (option FromElxError) with
  | fields_nil => fun _ => []
  | fields_cons name s e fs es c cs => fun x =>
      match from_elx c x.1 with Err e => Some e | _ => None end :: field_errors cs x.2
  end.

Lemma from_elx_fields_first_error fs es (c : ConvFields fs es) x :
  match head (omap id (field_errors c x)) with
  | Some e => from_elx_fields c x = Err e
  | None => exists v, from_elx_fields c x = Ok v
  end.
Proof using Type*.
  induction c as [|name s e fs es c cs IH]; [by exists tt|].
  destruct x as [x xs]. specialize (IH xs).
  change (from_elx_fields (fields_cons name s e fs es c cs) (x, xs)) with
    (let? field := from_elx c x in let? fields := from_elx_fields cs xs in
     Ok (field, fields)).
  cbn [field_errors fst snd].
  destruct (from_elx c x) as [v|err|p] eqn:E; cbn [omap list_omap id bind head].
  - destruct (head (omap id (field_errors cs xs))) as [err|].
    + rewrite IH. done.
    + destruct IH as [vs ->]. by exists (v, vs).
  - done.
  - by apply (proj1 from_elx_no_panic_mut) in E.
Qed.
End laws.

(** ** Properties of the conversions *)
Section properties.
Context `{SszTypesLaws, SszLaws}.

(** C4: [FromSsz] followed by [FromElx] is the identity.  Any well-formed SSZ
    value, of any pair of types with conversions, survives the trip to the
    Elixir types and back. *)
Theorem from_elx_from_ssz s e (c : Conv s e) v :
  sok s v = true -> bits_bounded s = true -> from_elx c (from_ssz c v) = Ok v.
Proof using Type*. apply (proj1 from_elx_from_ssz_mut). Qed.

(** C5: [FromElx] followed by [FromSsz] gives the Elixir value back, with
    every [Uint256] binary cut or zero-padded to 32 bytes and nothing else
    changed; without a [Uint256] inside the type it is the identity. *)
Theorem from_ssz_from_elx s e (c : Conv s e) x v :
  bits_bounded s = true -> from_elx c x = Ok v ->
  from_ssz c v = canonical c x /\ (no_uint256 s = true -> from_ssz c v = x).
Proof using Type*.
  intros Hb Hv. rewrite (proj1 from_ssz_from_elx_mut _ _ c x v) by done.
  split; [done|]. apply (proj1 canonical_id_mut).
Qed.

(** C6: what [FromElx] returns is a value of the SSZ type: arrays and fixed
    vectors have their exact length, lists stay within their limits, bit
    fields within theirs, at every depth. *)
Theorem from_elx_sok s e (c : Conv s e) x v :
  eok e x = true -> from_elx c x = Ok v -> sok s v = true.
Proof using Type*. apply (proj1 from_elx_sok_mut). Qed.

(** C7: [FromElx] is total: it returns [Ok] exactly on the values that fit
    the SSZ type (byte lengths, list bounds, canonical bit fields, at every
    depth), an error otherwise, and never panics. *)
Theorem from_elx_total s e (c : Conv s e) x :
  is_ok (from_elx c x) = accepts c x /\ no_panic (from_elx c x).
Proof using Type*.
  split; [apply (proj1 from_elx_accepts_mut)|apply (proj1 from_elx_no_panic_mut)].
Qed.

(** C8: the error of a struct is that of its first failing field in
    declaration order; a struct none of whose fields fails converts. *)
Theorem from_elx_struct_error name module fs es (c : ConvFields fs es) x :
  match head (omap id (field_errors c x)) with
  | Some err => from_elx (conv_struct name module fs es c) x = Err err
  | None => is_ok (from_elx (conv_struct name module fs es c) x) = true
  end.
Proof using Type*.
  pose proof (from_elx_fields_first_error fs es c x) as Hx.
  change (from_elx (conv_struct name module fs es c) x) with (from_elx_fields c x).
  destruct (head _); [done|]. by apply is_ok_spec.
Qed.

(** C9: the [Uint256] impl of [FromElx] never fails and reads the binary as a
    little-endian integer modulo [2 ^ 256]: longer binaries are truncated
    silently, shorter ones are zero-extended. *)
Theorem from_elx_uint256_value b :
  exists v, from_elx_uint256 b = Ok v /\ nlen v = 32
    /\ le_val v = (le_val b mod 2 ^ 256)%Z.
Proof using Type.
  exists (fit32 b). rewrite from_elx_uint256_fit32. split; [done|].
  split; [apply fit32_length|]. apply le_val_fit32.
Qed.
End properties.

(** ** An attestation of the minimal preset, through the reference crates *)
Definition sample_conv : Conv (SszTypes.Attestation Minimal) ElxTypes.Attestation :=
  ltac:(resolve_conv).

Definition sample_data : eval ElxTypes.AttestationData :=
  (7%Z, (0%Z, (replicate 32 xaa, ((0%Z, (replicate 32 x01, tt)), ((1%Z, (replicate 32 x02, tt)), tt))))).

Definition sample_elx : eval ElxTypes.Attestation :=
  ([x05], (sample_data, (replicate 96 x0b, ([x01], tt)))).

Definition sample_ssz : sval (SszTypes.Attestation Minimal) :=
  ([true; false], (sample_data, (replicate 96 x0b, ([true; false; false; false], tt)))).

(** A signature that is one byte short. *)
Definition bad_elx : eval ElxTypes.Attestation :=
  ([x05], (sample_data, (replicate 95 x0b, ([x01], tt)))).

Lemma sample_converts : from_elx sample_conv sample_elx = Ok sample_ssz.
Proof. by vm_compute. Qed.

Lemma from_elx_from_ssz_witness :
  from_elx sample_conv (from_ssz sample_conv sample_ssz) = Ok sample_ssz.
Proof. apply from_elx_from_ssz; by vm_compute. Defined.

Lemma from_ssz_from_elx_witness :
  from_ssz sample_conv sample_ssz = sample_elx.
Proof. apply (from_ssz_from_elx _ _ sample_conv sample_elx sample_ssz); by vm_compute. Defined.

Lemma from_elx_sok_witness : sok (SszTypes.Attestation Minimal) sample_ssz = true.
Proof. apply (from_elx_sok _ _ sample_conv sample_elx sample_ssz); by vm_compute. Defined.

Lemma from_elx_total_witness :
  is_ok (from_elx sample_conv sample_elx) = true /\ is_ok (from_elx sample_conv bad_elx) = false.
Proof.
  split; etransitivity; [apply from_elx_total|by vm_compute|apply from_elx_total|by vm_compute].
Defined.

Lemma from_elx_struct_error_witness :
  exists err, from_elx sample_conv bad_elx = Err err.
Proof.
  pose proof (from_elx_struct_error "Attestation" "Types.Attestation" _ _
    ltac:(let c := eval cbv delta [sample_conv] in sample_conv in
          match c with conv_struct _ _ _ _ ?cs => exact cs end) bad_elx) as H.
  vm_compute in H. eexists. exact H.
Defined.
