(* ===== verification/Helpers.v ===== *)
(** * The NIF helpers: [native/ssz_nif/src/utils/helpers.rs]

    The generic functions [schema_match!] instantiates: encoding, decoding and
    hashing a term at a pair of types [(Elx, Ssz)].  The pair and its trait
    impls are the argument [c : Conv s e]. *)
From Stdlib Require Import Init.Byte.
From S2P Require Import Prelude Rust Schema SszSpec TreeHashSpec Crates Reference Convert.
Open Scope N_scope.

(** Errors reach Elixir as strings: the [Display] of a conversion error, the
    [Debug] of a decoding error. *)
Definition to_nif_result (result : FromElxError) : nif_error := TermError (to_string result).
Definition debug_error_to_nif (error : string) : nif_error := TermError error.

Section helpers.
Context `{Rustler, SszTypesCrate, SszCrate, TreeHashCrate}.

Definition encode_ssz {s e} (c : Conv s e) (value : Term) : res nif_error bytes :=
  if is_list value then
    let? value_nif := decode (EVec e) value in
    let? value_ssz := map_err to_nif_result (collect (from_elx c) value_nif) in
    Ok (as_ssz_bytes (SVec s) value_ssz)
  else
    let? value_nif := decode e value in
    let? value_ssz := map_err to_nif_result (from_elx c value_nif) in
    Ok (as_ssz_bytes s value_ssz).

Definition decode_ssz {s e} (c : Conv s e) (bs : bytes) : res nif_error Term :=
  let? recovered_value := map_err debug_error_to_nif (from_ssz_bytes s bs) in
  let checkpoint := from_ssz c recovered_value in
  Ok (encode e checkpoint).

(** [decode_ssz::<Vec<Elx>, Vec<Ssz>>]. *)
Definition list_decode_ssz {s e} (c : Conv s e) (bs : bytes) : res nif_error Term :=
  decode_ssz (conv_vec s e c) bs.

Definition hash_tree_root {s e} (c : Conv s e) (value : Term) : res nif_error bytes :=
  let? value_nif := decode e value in
  let? value_ssz := map_err to_nif_result (from_elx c value_nif) in
  Ok (tree_hash_root s value_ssz).

(** [for item in vec { hasher.write(..).expect(msg) }] *)
Fixpoint write_each {E A} (f : A -> bytes) (msg : string) (vec : list A)
    (hasher : MerkleHasher) : res E MerkleHasher :=
  match vec with
  | [] => Ok hasher
  | item :: vec =>
      let? hasher := expect (write hasher (f item)) msg in
      write_each f msg vec hasher
  end.

Definition vec_tree_hash_root {E} (t : ssz_ty) (vec : list (sval t)) (max_size : N) :
    res E bytes :=
  match tree_hash_type t with
  | Basic =>
      let packing_factor := tree_hash_packing_factor t in
      if packing_factor =? 0 then Panic "attempt to divide by zero" else
      let hasher :=
        with_leaves (usize_sub (usize_add max_size packing_factor) 1 / packing_factor) in
      let? hasher := write_each (tree_hash_packed_encoding t)
        "ssz_types variable vec should not contain more elements than max" vec hasher in
      expect (finish hasher)
        "ssz_types variable vec should not have a remaining buffer"
  | Container | List | Vector =>
      let hasher := with_leaves max_size in
      let? hasher := write_each (tree_hash_root t)
        "ssz_types vec should not contain more elements than max" vec hasher in
      expect (finish hasher) "ssz_types vec should not have a remaining buffer"
  end.

Definition hash_vector_tree_root {s e} (c : Conv s e) (list : list Term) (max_size : N) :
    res nif_error bytes :=
  let? v := collect (decode e) list in
  let? x := map_err to_nif_result (from_elx (conv_vec s e c) v) in
  vec_tree_hash_root s x max_size.

Definition hash_list_tree_root {s e} (c : Conv s e) (list : list Term) (max_size : N) :
    res nif_error bytes :=
  let list_size := nlen list in
  let? root := hash_vector_tree_root c list max_size in
  Ok (mix_in_length root list_size).
End helpers.

(** ** Encoding and decoding *)
Section codec.
Context `{RustlerLaws, SszTypesLaws, SszLaws}.

(** The Elixir side of a well-formed SSZ value is in range, so it decodes. *)
Lemma from_ssz_eok_mut :
  (forall s e (c : Conv s e) v, sok s v = true -> eok e (from_ssz c v) = true) /\
  (forall fs es (c : ConvFields fs es) v, tuple_all sval sok fs v = true ->
    tuple_all eval eok es (from_ssz_fields c v) = true).
Proof using Type.
  apply conv_mutind.
  1-14: cbn [from_ssz sok eok]; intros *; try done.
  - intros IH v Hv. apply forallb_forall. intros y (x & <- & Hx)%in_map_iff.
    apply IH. by apply (proj1 (forallb_forall _ _) Hv).
  - intros IH v [_ Hv]%andb_true_iff. apply forallb_forall. intros y (x & <- & Hx)%in_map_iff.
    apply IH. by apply (proj1 (forallb_forall _ _) Hv).
  - intros IH v [_ Hv]%andb_true_iff. apply forallb_forall. intros y (x & <- & Hx)%in_map_iff.
    apply IH. by apply (proj1 (forallb_forall _ _) Hv).
  - intros name module fs es c IH v. apply IH.
  - done.
  - intros name s e fs es c IHc cs IHcs [v vs] [Hv Hvs]%tuple_all_cons.
    change (eok e (from_ssz c v) && tuple_all eval eok es (from_ssz_fields cs vs) = true).
    by rewrite IHc, IHcs.
Qed.

(** Encoding the term of a value: its conversion, serialized. *)
Lemma encode_ssz_encode s e (c : Conv s e) x :
  is_vec e = false -> eok e x = true ->
  encode_ssz c (encode e x) =
    let? v := map_err to_nif_result (from_elx c x) in Ok (as_ssz_bytes s v).
Proof using Type*.
  intros Hvec Hx. unfold encode_ssz. by rewrite is_list_encode, Hvec, decode_encode.
Qed.

Lemma encode_ssz_encode_list s e (c : Conv s e) l :
  forallb (eok e) l = true ->
  encode_ssz c (encode (EVec e) l) =
    let? v := map_err to_nif_result (collect (from_elx c) l) in Ok (as_ssz_bytes (SVec s) v).
Proof using Type*.
  intros Hl. unfold encode_ssz. rewrite is_list_encode. cbn [is_vec].
  by rewrite (decode_encode (EVec e) l).
Qed.

(** Decoding the serialization of a well-formed value. *)
Lemma decode_ssz_serialize s e (c : Conv s e) v :
  legal s = true -> sok s v = true -> nlen (serialize s v) < 2 ^ 32 ->
  decode_ssz c (as_ssz_bytes s v) = Ok (encode e (from_ssz c v)).
Proof using Type*.
  intros Hl Hv Hlt. unfold decode_ssz. rewrite as_ssz_bytes_spec by done.
  assert (from_ssz_bytes s (serialize s v) = Ok v) as ->
    by (by apply from_ssz_bytes_Ok, deserialize_serialize).
  done.
Qed.

Lemma decode_ssz_Ok s e (c : Conv s e) b t :
  decode_ssz c b = Ok t <->
  exists v, sok s v = true /\ serialize s v = b /\ deserialize s b = Some v
    /\ t = encode e (from_ssz c v).
Proof using Type*.
  unfold decode_ssz. rewrite bind_Ok. split.
  - intros (v & Hv%map_err_Ok%from_ssz_bytes_Ok & [= <-]).
    pose proof (serialize_deserialize _ _ _ Hv) as [? ?]. by exists v.
  - intros (v & Hok & Hs & Hd & ->). exists v. split; [|done].
    by apply map_err_Ok, from_ssz_bytes_Ok.
Qed.

(** Encoding then decoding an accepted Elixir value normalizes it. *)
Lemma encode_decode_ssz s e (c : Conv s e) x v :
  is_vec e = false -> legal s = true -> bits_bounded s = true -> eok e x = true ->
  from_elx c x = Ok v -> nlen (serialize s v) < 2 ^ 32 ->
  encode_ssz c (encode e x) = Ok (serialize s v) /\
  decode_ssz c (serialize s v) = Ok (encode e (canonical c x)).
Proof using Type*.
  intros Hvec Hl Hb Hx Hv Hlt. pose proof (proj1 from_elx_sok_mut _ _ c _ _ Hx Hv) as Hok.
  rewrite encode_ssz_encode, Hv by done. simpl. rewrite as_ssz_bytes_spec by done.
  split; [done|]. rewrite <- (as_ssz_bytes_spec s v) by done.
  rewrite decode_ssz_serialize by done. by rewrite (proj1 from_ssz_from_elx_mut _ _ c x v).
Qed.

(** Decoding then encoding gives the bytes back. *)
Lemma decode_encode_ssz s e (c : Conv s e) b t :
  is_vec e = false -> bits_bounded s = true -> nlen b < 2 ^ 32 ->
  decode_ssz c b = Ok t -> encode_ssz c t = Ok b.
Proof using Type*.
  intros Hvec Hb Hlt (v & Hok & <- & _ & ->)%decode_ssz_Ok.
  rewrite encode_ssz_encode by (done || by apply (proj1 from_ssz_eok_mut)).
  rewrite (proj1 from_elx_from_ssz_mut) by done. simpl. by rewrite as_ssz_bytes_spec.
Qed.

Lemma encode_decode_list s e (c : Conv s e) l v :
  legal s = true -> bits_bounded s = true -> forallb (eok e) l = true ->
  collect (from_elx c) l = Ok v -> nlen (serialize (SVec s) v) < 2 ^ 32 ->
  encode_ssz c (encode (EVec e) l) = Ok (serialize (SVec s) v) /\
  list_decode_ssz c (serialize (SVec s) v) = Ok (encode (EVec e) (map (canonical c) l)).
Proof using Type*.
  intros Hl Hb Hx Hv Hlt.
  pose proof (proj1 from_elx_sok_mut _ _ (conv_vec s e c) l v Hx Hv) as Hok.
  rewrite encode_ssz_encode_list, Hv by done. simpl bind. rewrite as_ssz_bytes_spec by done.
  split; [done|]. unfold list_decode_ssz.
  rewrite <- (as_ssz_bytes_spec (SVec s) v) by done.
  rewrite decode_ssz_serialize by done.
  by rewrite (proj1 from_ssz_from_elx_mut _ _ (conv_vec s e c) l v).
Qed.

Lemma encode_ssz_no_panic s e (c : Conv s e) t : no_panic (encode_ssz c t).
Proof using Type*.
  unfold encode_ssz. destruct (is_list t);
    (apply bind_no_panic; [apply decode_no_panic|]; intros ? _;
     apply bind_no_panic; [apply map_err_no_panic|done]).
  - apply (proj1 from_elx_no_panic_mut _ _ (conv_vec s e c)).
  - apply (proj1 from_elx_no_panic_mut).
Qed.

Lemma decode_ssz_no_panic s e (c : Conv s e) b : no_panic (decode_ssz c b).
Proof using Type*.
  apply bind_no_panic; [apply map_err_no_panic, from_ssz_bytes_no_panic|done].
Qed.

Lemma encode_ssz_empty s e (c : Conv s e) :
  encode_ssz c (encode (EVec e) []) = Ok [].
Proof using Type*.
  rewrite encode_ssz_encode_list by done. cbn [collect map_err bind]. f_equal.
  assert (serialize (SVec s) [] = []) as He by (cbn [serialize]; by destruct (fixed_size s)).
  etransitivity; [apply (as_ssz_bytes_spec (SVec s)); [done|]|exact He].
  eapply N.le_lt_trans; [apply N.eq_le_incl, (f_equal nlen He)|done].
Qed.

Lemma decode_encode_list s e (c : Conv s e) b t :
  bits_bounded s = true -> nlen b < 2 ^ 32 ->
  list_decode_ssz c b = Ok t -> encode_ssz c t = Ok b.
Proof using Type*.
  intros Hb Hlt (v & Hok & <- & _ & ->)%decode_ssz_Ok.
  rewrite encode_ssz_encode_list by (by apply (proj1 from_ssz_eok_mut _ _ (conv_vec s e c))).
  pose proof (proj1 from_elx_from_ssz_mut _ _ (conv_vec s e c) v) as Hc.
  cbn [from_elx] in Hc. unfold from_elx_vec in Hc. rewrite Hc by done. simpl.
  by rewrite as_ssz_bytes_spec.
Qed.
End codec.

(** ** Hashing lists of dynamic size *)
Section hashing.
Context `{TreeHashLaws}.

(** Bytes the hasher is fed for a list. *)
Definition fed {A} (f : A -> bytes) (vec : list A) : bytes := concat (map f vec).

Lemma fed_cons {A} (f : A -> bytes) x vec : fed f (x :: vec) = f x ++ fed f vec.
Proof using Type. done. Qed.

(** A loop of writes accumulates, or panics once a whole leaf is too many. *)
Lemma write_each_spec {E A} (f : A -> bytes) msg vec h :
  (exists h', write_each (E := E) f msg vec h = Ok h'
    /\ written h' = written h ++ fed f vec /\ capacity h' = capacity h) \/
  (write_each (E := E) f msg vec h = Panic msg
    /\ capacity h < chunk_count (nlen (written h ++ fed f vec))).
Proof using Type*.
  revert h. induction vec as [|x vec IH]; intros h; cbn [write_each].
  { left. exists h. unfold fed. simpl. by rewrite app_nil_r. }
  rewrite fed_cons.
  destruct (N.le_gt_cases ((nlen (written h) + nlen (f x)) / 32) (capacity h)) as [Hle|Hgt].
  - destruct (write_Ok _ _ Hle) as (h' & -> & Hw & Hc). simpl.
    destruct (IH h') as [(h'' & -> & Hw' & Hc')|[-> Hlt]].
    + left. exists h''. rewrite Hw', Hw, Hc', Hc. by rewrite app_assoc.
    + right. split; [done|]. by rewrite Hw, Hc, <- app_assoc in Hlt.
  - right. destruct (write_Err _ _ Hgt) as [e ->]. split; [done|].
    eapply N.lt_le_trans; [done|]. unfold chunk_count. apply N.Div0.div_le_mono.
    rewrite !nlen_app. lia.
Qed.

(** Feeding a fresh hasher and finishing: the root of the chunks fed, or a
    panic when they are more than the leaves of the tree. *)
Lemma feed_finish {E A} (f : A -> bytes) m1 m2 vec n :
  n <= 2 ^ 63 ->
  (chunk_count (nlen (fed f vec)) <= next_pow2 n ->
    (let? h := write_each f m1 vec (with_leaves n) in expect (finish h) m2) =
      (Ok (merkleize hash32_concat n (chunks (fed f vec))) : res E bytes)) /\
  (next_pow2 n < chunk_count (nlen (fed f vec)) ->
    exists msg, (let? h := write_each f m1 vec (with_leaves n) in expect (finish h) m2) =
      (Panic msg : res E bytes)).
Proof using Type*.
  intros Hn. destruct (with_leaves_spec n Hn) as [Hw Hc].
  destruct (write_each_spec (E := E) f m1 vec (with_leaves n)) as [(h & -> & Hwh & Hch)|[-> Hlt]];
    simpl; rewrite ?Hw, ?Hc in *; simpl in *.
  - split; intros Hle.
    + rewrite finish_Ok by (by rewrite Hwh, Hch). rewrite Hwh, Hch. simpl.
      by rewrite merkleize_next_pow2.
    + destruct (finish_Err h) as [e ->]; [by rewrite Hwh, Hch|]. by exists m2.
  - split; [lia|]. by exists m1.
Qed.

Lemma leaf_count_basic t k n :
  basic_size t = Some k -> n + 32 <= 2 ^ 63 ->
  usize_sub (usize_add n (32 / k)) 1 / (32 / k) = leaf_limit t n.
Proof using Type.
  intros Hk Hn. unfold leaf_limit. rewrite Hk. unfold chunk_count.
  assert (32 / k = 32 \/ 32 / k = 16 \/ 32 / k = 8 \/ 32 / k = 4) as Hf.
  { destruct t; try done; injection Hk as <-; auto. }
  rewrite usize_add_small, usize_sub_small by lia. clear Hf.
  destruct t; try done; injection Hk as <-;
    change (32 / 1) with 32; change (32 / 2) with 16; change (32 / 4) with 8;
    change (32 / 8) with 4; div_lia.
Qed.

Lemma leaf_limit_le t n : leaf_limit t n <= n.
Proof using Type.
  unfold leaf_limit. destruct (basic_size t) as [k|] eqn:Hk; [|done]. unfold chunk_count.
  destruct t; try done; injection Hk as <-; div_lia.
Qed.

Lemma fed_basic t k vec :
  basic_size t = Some k -> forallb (sok t) vec = true ->
  chunks (fed (tree_hash_packed_encoding t) vec) = leaves hash32_concat t vec.
Proof using Type*.
  intros Hk Hv. unfold leaves, fed. rewrite Hk. do 2 f_equal.
  apply map_ext_in. intros x Hx. eapply packed_encoding_basic; [done|].
  by apply (proj1 (forallb_forall _ _) Hv).
Qed.

Lemma fed_composite t vec :
  basic_size t = None -> forallb (sok t) vec = true ->
  chunks (fed (tree_hash_root t) vec) = leaves hash32_concat t vec.
Proof using Type*.
  intros Hk Hv. unfold leaves, fed. rewrite Hk, chunks_concat.
  - apply map_ext_in. intros x Hx. apply tree_hash_root_spec.
    by apply (proj1 (forallb_forall _ _) Hv).
  - apply Forall_map, Forall_forall. intros. apply tree_hash_root_len.
Qed.

(** [vec_tree_hash_root] Merkleizes the leaves of the list in the tree of a
    collection of [max_size] elements, and panics exactly when they do not
    fit the power of two that tree is padded to. *)
Lemma vec_tree_hash_root_cases {E} t vec max_size :
  forallb (sok t) vec = true -> max_size + 32 <= 2 ^ 63 ->
  (nlen (leaves hash32_concat t vec) <= next_pow2 (leaf_limit t max_size) ->
    vec_tree_hash_root (E := E) t vec max_size =
      Ok (merkleize hash32_concat (leaf_limit t max_size) (leaves hash32_concat t vec))) /\
  (next_pow2 (leaf_limit t max_size) < nlen (leaves hash32_concat t vec) ->
    exists msg, vec_tree_hash_root (E := E) t vec max_size = Panic msg).
Proof using Type*.
  intros Hv Hmax. unfold vec_tree_hash_root.
  destruct (basic_size t) as [k|] eqn:Hk.
  - assert (tree_hash_type t = Basic) as -> by (apply tree_hash_type_basic; rewrite Hk; eauto).
    rewrite (packing_factor_basic t k Hk).
    assert ((32 / k =? 0) = false) as -> by (destruct t; try done; by injection Hk as <-).
    rewrite (leaf_count_basic t k) by done. rewrite <- (fed_basic t k) by done.
    rewrite nlen_chunks. apply feed_finish. by eapply N.le_trans; [eapply leaf_limit_le|lia].
  - assert (leaf_limit t max_size = max_size) as -> by (unfold leaf_limit; by rewrite Hk).
    rewrite <- fed_composite by done. rewrite nlen_chunks.
    destruct (tree_hash_type t) eqn:Ht; [|apply feed_finish; lia..].
    apply tree_hash_type_basic in Ht as [? ?]. congruence.
Qed.
End hashing.

(** ** The helpers on decoded terms *)
Section helpers_hashing.
Context `{RustlerLaws, SszTypesLaws, SszLaws, TreeHashLaws}.

Lemma hash_tree_root_encode s e (c : Conv s e) x v :
  eok e x = true -> from_elx c x = Ok v ->
  hash_tree_root c (encode e x) = Ok (root hash32_concat s v).
Proof using Type*.
  intros Hx Hv. unfold hash_tree_root. rewrite decode_encode by done. cbn [bind].
  rewrite Hv. cbn [bind map_err]. by rewrite tree_hash_root_spec
    by (by eapply (proj1 from_elx_sok_mut)).
Qed.

Lemma hash_tree_root_no_panic s e (c : Conv s e) t : no_panic (hash_tree_root c t).
Proof using Type*.
  apply bind_no_panic; [apply decode_no_panic|]. intros ? _.
  apply bind_no_panic; [apply map_err_no_panic, (proj1 from_elx_no_panic_mut)|done].
Qed.

Lemma collect_decode_eok e l xs :
  collect (decode e) l = Ok xs -> forallb (eok e) xs = true.
Proof using Type*.
  intros Hl%collect_Ok. apply forallb_Forall.
  induction Hl as [|t x l xs Ht _ IH]; constructor; [by eapply decode_eok|done].
Qed.

(** A list that decodes to [xs] and converts to [v] is hashed as the leaves
    of [v] are, or panics. *)
Lemma hash_vector_tree_root_cases s e (c : Conv s e) l xs v max_size :
  collect (decode e) l = Ok xs -> collect (from_elx c) xs = Ok v -> max_size + 32 <= 2 ^ 63 ->
  (nlen (leaves hash32_concat s v) <= next_pow2 (leaf_limit s max_size) ->
    hash_vector_tree_root c l max_size =
      Ok (merkleize hash32_concat (leaf_limit s max_size) (leaves hash32_concat s v))) /\
  (next_pow2 (leaf_limit s max_size) < nlen (leaves hash32_concat s v) ->
    exists msg, hash_vector_tree_root c l max_size = Panic msg).
Proof using Type*.
  intros Hl Hv Hmax. unfold hash_vector_tree_root. rewrite Hl. cbn [bind].
  assert (forallb (sok s) v = true) as Hok.
  { apply (proj1 from_elx_sok_mut _ _ (conv_vec s e c) xs); [|done].
    by eapply collect_decode_eok. }
  assert (from_elx (conv_vec s e c) xs = Ok v) as -> by done.
  by apply vec_tree_hash_root_cases.
Qed.

Lemma hash_vector_tree_root_fits s e (c : Conv s e) l xs v max_size :
  collect (decode e) l = Ok xs -> collect (from_elx c) xs = Ok v -> max_size + 32 <= 2 ^ 63 ->
  nlen l <= max_size ->
  hash_vector_tree_root c l max_size =
    Ok (merkleize hash32_concat (leaf_limit s max_size) (leaves hash32_concat s v)).
Proof using Type*.
  intros Hl Hv Hmax Hle. eapply hash_vector_tree_root_cases; [done..|].
  etransitivity; [|apply next_pow2_ge]. apply nlen_leaves.
  - apply (proj1 from_elx_sok_mut _ _ (conv_vec s e c) xs); [|done].
    by eapply collect_decode_eok.
  - apply nlen_collect in Hl, Hv. lia.
Qed.

(** A list of [n] elements has [leaf_limit s n] leaves. *)
Lemma hash_vector_tree_root_panics s e (c : Conv s e) l xs v max_size :
  collect (decode e) l = Ok xs -> collect (from_elx c) xs = Ok v -> max_size + 32 <= 2 ^ 63 ->
  (exists msg, hash_vector_tree_root c l max_size = Panic msg) <->
    next_pow2 (leaf_limit s max_size) < leaf_limit s (nlen l).
Proof using Type*.
  intros Hl Hv Hmax.
  assert (forallb (sok s) v = true) as Hok.
  { apply (proj1 from_elx_sok_mut _ _ (conv_vec s e c) xs); [|done].
    by eapply collect_decode_eok. }
  destruct (hash_vector_tree_root_cases s e c l xs v max_size) as [Hin Hout]; [done..|].
  rewrite (nlen_leaves_eq hash32_concat s v Hok) in Hin, Hout.
  pose proof (nlen_collect _ _ _ Hl) as Hn1. pose proof (nlen_collect _ _ _ Hv) as Hn2.
  rewrite Hn2, Hn1 in Hin, Hout. split; [|done]. intros [msg Hp].
  apply N.lt_nge. intros Hle. rewrite Hin in Hp; done.
Qed.

(** Nothing but the capacity check of the hasher panics. *)
Lemma hash_vector_tree_root_no_panic s e (c : Conv s e) l max_size :
  max_size + 32 <= 2 ^ 63 -> nlen l <= max_size ->
  no_panic (hash_vector_tree_root c l max_size).
Proof using Type*.
  intros Hmax Hle.
  destruct (collect (decode e) l) as [xs|err|msg] eqn:Hl.
  - destruct (from_elx (conv_vec s e c) xs) as [v|err|msg] eqn:Hv.
    + by erewrite hash_vector_tree_root_fits.
    + unfold hash_vector_tree_root. rewrite Hl. cbn [bind]. by rewrite Hv.
    + pose proof (proj1 from_elx_no_panic_mut _ _ (conv_vec s e c) xs msg). done.
  - unfold hash_vector_tree_root. by rewrite Hl.
  - assert (no_panic (collect (decode e) l)) as Hp
      by (apply collect_no_panic; intros; apply decode_no_panic).
    by destruct (Hp msg).
Qed.
End helpers_hashing.
