(* ===== verification/Dispatch.v ===== *)
(** * Schema and configuration dispatch: the macros of [utils/mod.rs]

    [schema_match!] expands to a match on the schema name with one arm per
    container, each a [config_match!] on the configuration name.  An arm names
    the Elixir and the SSZ type of its container, and its expansion type-checks
    because trait resolution finds the conversions between them; here that is
    the [Conv] each arm carries. *)
From S2P Require Import Prelude Rust Config Schema SszTypes ElxTypes SszSpec Crates Convert.
#[local] Open Scope string_scope.

(** [$t] and [$t<C>] in the list of [schema_match!]. *)
Inductive arm : Type :=
| Plain (name : string) (e : elx_ty) (s : ssz_ty) (c : Conv s e)
| Generic (name : string) (e : elx_ty) (s : Config -> ssz_ty) (c : forall C, Conv (s C) e).

Definition arm_name (a : arm) : string :=
  match a with Plain n _ _ _ | Generic n _ _ _ => n end.
Definition arm_elx (a : arm) : elx_ty :=
  match a with Plain _ e _ _ | Generic _ e _ _ => e end.
Definition arm_ssz (a : arm) (C : Config) : ssz_ty :=
  match a with Plain _ _ s _ => s | Generic _ _ s _ => s C end.

(** The list of [schema_match!]. *)
Definition arms : list arm := [
  Plain "HistoricalSummary" ElxTypes.HistoricalSummary SszTypes.HistoricalSummary ltac:(resolve_conv);
  Plain "AttestationData" ElxTypes.AttestationData SszTypes.AttestationData ltac:(resolve_conv);
  Generic "IndexedAttestation" ElxTypes.IndexedAttestation SszTypes.IndexedAttestation ltac:(resolve_conv);
  Plain "Checkpoint" ElxTypes.Checkpoint SszTypes.Checkpoint ltac:(resolve_conv);
  Plain "Eth1Data" ElxTypes.Eth1Data SszTypes.Eth1Data ltac:(resolve_conv);
  Plain "Fork" ElxTypes.Fork SszTypes.Fork ltac:(resolve_conv);
  Plain "ForkData" ElxTypes.ForkData SszTypes.ForkData ltac:(resolve_conv);
  Generic "HistoricalBatch" ElxTypes.HistoricalBatch SszTypes.HistoricalBatch ltac:(resolve_conv);
  Generic "PendingAttestation" ElxTypes.PendingAttestation SszTypes.PendingAttestation ltac:(resolve_conv);
  Plain "Validator" ElxTypes.Validator SszTypes.Validator ltac:(resolve_conv);
  Plain "DepositData" ElxTypes.DepositData SszTypes.DepositData ltac:(resolve_conv);
  Plain "VoluntaryExit" ElxTypes.VoluntaryExit SszTypes.VoluntaryExit ltac:(resolve_conv);
  Plain "Deposit" ElxTypes.Deposit SszTypes.Deposit ltac:(resolve_conv);
  Plain "DepositMessage" ElxTypes.DepositMessage SszTypes.DepositMessage ltac:(resolve_conv);
  Plain "BLSToExecutionChange" ElxTypes.BLSToExecutionChange SszTypes.BLSToExecutionChange ltac:(resolve_conv);
  Plain "SignedBLSToExecutionChange" ElxTypes.SignedBLSToExecutionChange SszTypes.SignedBLSToExecutionChange ltac:(resolve_conv);
  Generic "Attestation" ElxTypes.Attestation SszTypes.Attestation ltac:(resolve_conv);
  Generic "BeaconBlock" ElxTypes.BeaconBlock SszTypes.BeaconBlock ltac:(resolve_conv);
  Plain "BeaconBlockHeader" ElxTypes.BeaconBlockHeader SszTypes.BeaconBlockHeader ltac:(resolve_conv);
  Generic "AttesterSlashing" ElxTypes.AttesterSlashing SszTypes.AttesterSlashing ltac:(resolve_conv);
  Generic "SignedBeaconBlock" ElxTypes.SignedBeaconBlock SszTypes.SignedBeaconBlock ltac:(resolve_conv);
  Plain "SignedBeaconBlockHeader" ElxTypes.SignedBeaconBlockHeader SszTypes.SignedBeaconBlockHeader ltac:(resolve_conv);
  Plain "SignedVoluntaryExit" ElxTypes.SignedVoluntaryExit SszTypes.SignedVoluntaryExit ltac:(resolve_conv);
  Plain "ProposerSlashing" ElxTypes.ProposerSlashing SszTypes.ProposerSlashing ltac:(resolve_conv);
  Generic "ExecutionPayload" ElxTypes.ExecutionPayload SszTypes.ExecutionPayload ltac:(resolve_conv);
  Generic "ExecutionPayloadHeader" ElxTypes.ExecutionPayloadHeader SszTypes.ExecutionPayloadHeader ltac:(resolve_conv);
  Plain "Withdrawal" ElxTypes.Withdrawal SszTypes.Withdrawal ltac:(resolve_conv);
  Plain "SigningData" ElxTypes.SigningData SszTypes.SigningData ltac:(resolve_conv);
  Generic "SyncAggregate" ElxTypes.SyncAggregate SszTypes.SyncAggregate ltac:(resolve_conv);
  Generic "SyncCommittee" ElxTypes.SyncCommittee SszTypes.SyncCommittee ltac:(resolve_conv);
  Plain "SyncCommitteeMessage" ElxTypes.SyncCommitteeMessage SszTypes.SyncCommitteeMessage ltac:(resolve_conv);
  Generic "SyncCommitteeContribution" ElxTypes.SyncCommitteeContribution SszTypes.SyncCommitteeContribution ltac:(resolve_conv);
  Generic "ContributionAndProof" ElxTypes.ContributionAndProof SszTypes.ContributionAndProof ltac:(resolve_conv);
  Generic "SignedContributionAndProof" ElxTypes.SignedContributionAndProof SszTypes.SignedContributionAndProof ltac:(resolve_conv);
  Generic "BeaconState" ElxTypes.BeaconState SszTypes.BeaconState ltac:(resolve_conv);
  Generic "BeaconBlockBody" ElxTypes.BeaconBlockBody SszTypes.BeaconBlockBody ltac:(resolve_conv);
  Plain "StatusMessage" ElxTypes.StatusMessage SszTypes.StatusMessage ltac:(resolve_conv);
  Generic "AggregateAndProof" ElxTypes.AggregateAndProof SszTypes.AggregateAndProof ltac:(resolve_conv);
  Generic "SignedAggregateAndProof" ElxTypes.SignedAggregateAndProof SszTypes.SignedAggregateAndProof ltac:(resolve_conv);
  Plain "BeaconBlocksByRangeRequest" ElxTypes.BeaconBlocksByRangeRequest SszTypes.BeaconBlocksByRangeRequest ltac:(resolve_conv);
  Plain "Transaction" ElxTypes.Transaction SszTypes.Transaction ltac:(resolve_conv);
  Generic "Metadata" ElxTypes.Metadata SszTypes.Metadata ltac:(resolve_conv);
  Plain "Root" ElxTypes.Root SszTypes.Root ltac:(resolve_conv);
  Plain "Epoch" ElxTypes.Epoch SszTypes.Epoch ltac:(resolve_conv);
  Generic "BlobSidecar" ElxTypes.BlobSidecar SszTypes.BlobSidecar ltac:(resolve_conv);
  Plain "BlobIdentifier" ElxTypes.BlobIdentifier SszTypes.BlobIdentifier ltac:(resolve_conv);
  Plain "PendingDeposit" ElxTypes.PendingDeposit SszTypes.PendingDeposit ltac:(resolve_conv);
  Plain "PendingPartialWithdrawal" ElxTypes.PendingPartialWithdrawal SszTypes.PendingPartialWithdrawal ltac:(resolve_conv);
  Plain "PendingConsolidation" ElxTypes.PendingConsolidation SszTypes.PendingConsolidation ltac:(resolve_conv);
  Plain "DepositRequest" ElxTypes.DepositRequest SszTypes.DepositRequest ltac:(resolve_conv);
  Plain "WithdrawalRequest" ElxTypes.WithdrawalRequest SszTypes.WithdrawalRequest ltac:(resolve_conv);
  Plain "ConsolidationRequest" ElxTypes.ConsolidationRequest SszTypes.ConsolidationRequest ltac:(resolve_conv);
  Generic "ExecutionRequests" ElxTypes.ExecutionRequests SszTypes.ExecutionRequests ltac:(resolve_conv);
  Plain "SingleAttestation" ElxTypes.SingleAttestation SszTypes.SingleAttestation ltac:(resolve_conv)].

(** A pair of types with its conversions: the type arguments an arm gives to
    the helper. *)
Record impl := { impl_ssz : ssz_ty; impl_elx : elx_ty; impl_conv : Conv impl_ssz impl_elx }.

(** [config_match!]: the two forms of the macro. *)
Definition config_match {A} (config : string) (a : arm) (f : impl -> res nif_error A) :
    res nif_error A :=
  match a with
  | Generic _ e s c =>
      let at_config C := f {| impl_ssz := s C; impl_elx := e; impl_conv := c C |} in
      if String.eqb config "mainnet" then at_config Mainnet
      else if String.eqb config "minimal" then at_config Minimal
      else if String.eqb config "gnosis" then at_config Gnosis
      else Err BadArg
  | Plain _ e s c =>
      if String.eqb config "mainnet" || String.eqb config "minimal" || String.eqb config "gnosis"
      then f {| impl_ssz := s; impl_elx := e; impl_conv := c |}
      else Err BadArg
  end.

(** [schema_match!], [schema_match_impl!]: the first arm of that name. *)
Fixpoint schema_match_impl {A} (arms : list arm) (schema config : string)
    (f : impl -> res nif_error A) : res nif_error A :=
  match arms with
  | [] => Err BadArg
  | a :: arms =>
      if String.eqb schema (arm_name a) then config_match config a f
      else schema_match_impl arms schema config f
  end.

Definition schema_match {A} (schema config : string) (f : impl -> res nif_error A) :
    res nif_error A :=
  schema_match_impl arms schema config f.

(** ** What a schema and a configuration name select *)
Definition arm_impl (a : arm) (C : Config) : impl :=
  match a with
  | Plain _ e s c => {| impl_ssz := s; impl_elx := e; impl_conv := c |}
  | Generic _ e s c => {| impl_ssz := s C; impl_elx := e; impl_conv := c C |}
  end.

Definition find_config (config : string) : option Config :=
  snd <$> List.find (fun p => String.eqb config p.1) configs.

Definition find_arm (schema : string) : option arm :=
  List.find (fun a => String.eqb schema (arm_name a)) arms.

Definition find_impl (schema config : string) : option impl :=
  a ← find_arm schema; C ← find_config config; Some (arm_impl a C).

Lemma config_match_find {A} config a (f : impl -> res nif_error A) :
  config_match config a f =
    match find_config config with Some C => f (arm_impl a C) | None => Err BadArg end.
Proof.
  unfold config_match, find_config, configs, List.find. cbn [fst snd].
  destruct (String.eqb config "mainnet"), (String.eqb config "minimal"),
    (String.eqb config "gnosis"), a; done.
Qed.

(** A match runs the helper at the implementation the names select, and is a
    bad argument when there is none. *)
Lemma schema_match_find {A} schema config (f : impl -> res nif_error A) :
  schema_match schema config f =
    match find_impl schema config with Some i => f i | None => Err BadArg end.
Proof.
  unfold schema_match, find_impl, find_arm. generalize arms as l. intros l.
  induction l as [|a l IH]; [done|]. cbn [schema_match_impl List.find].
  destruct (String.eqb schema (arm_name a)); [|apply IH].
  rewrite config_match_find. by destruct (find_config config).
Qed.

(** ** The table of arms, checked *)
Definition config_names : list string := map fst configs.
Definition schema_names : list string := map arm_name arms.

Definition impl_ok (i : impl) : bool :=
  legal (impl_ssz i) && bits_bounded (impl_ssz i) && negb (is_vec (impl_elx i)).

Definition all_impls : list impl :=
  concat (map (fun a => map (fun c => arm_impl a c.2) configs) arms).

Lemma all_impls_ok : forallb impl_ok all_impls = true.
Proof. by vm_compute. Qed.

Lemma find_arm_Some schema a : find_arm schema = Some a -> a ∈ arms /\ arm_name a = schema.
Proof.
  intros [Hin Heq]%List.find_some. split; [by apply list_elem_of_In|].
  by apply String.eqb_eq in Heq.
Qed.

Lemma find_config_Some config C :
  find_config config = Some C -> (config, C) ∈ configs.
Proof.
  unfold find_config. destruct (List.find _ _) as [[n C']|] eqn:E; [|done].
  intros [= <-]. apply List.find_some in E as [Hin Heq]. apply String.eqb_eq in Heq.
  simpl in Heq. subst. by apply list_elem_of_In.
Qed.

(** Every type the NIF works at is legal SSZ, has short bit fields and is not
    itself a list on the Elixir side. *)
Lemma find_impl_ok schema config i :
  find_impl schema config = Some i ->
  legal (impl_ssz i) = true /\ bits_bounded (impl_ssz i) = true /\ is_vec (impl_elx i) = false.
Proof.
  unfold find_impl. destruct (find_arm schema) as [a|] eqn:Ha; [|done].
  destruct (find_config config) as [C|] eqn:HC; [|done]. intros [= <-].
  apply find_arm_Some in Ha as [Ha _]. apply find_config_Some in HC.
  pose proof (proj1 (forallb_forall _ _) all_impls_ok (arm_impl a C)) as H.
  assert (impl_ok (arm_impl a C) = true) as Hok.
  { apply H, in_concat. eexists. split.
    - apply in_map_iff. exists a. split; [done|]. by apply list_elem_of_In.
    - apply in_map_iff. exists (config, C). split; [done|]. by apply list_elem_of_In. }
  unfold impl_ok in Hok. apply andb_true_iff in Hok as [[? ?]%andb_true_iff ?].
  split_and!; [done..|]. by apply negb_true_iff.
Qed.

Lemma find_some_iff {A} (key : A -> string) k l :
  is_Some (List.find (fun a => String.eqb k (key a)) l) <-> k ∈ map key l.
Proof.
  induction l as [|a l IH]; cbn [List.find map].
  - split; [by intros []|by intros ?%elem_of_nil].
  - rewrite elem_of_cons. destruct (String.eqb_spec k (key a)) as [->|Hne]; [naive_solver|].
    rewrite IH. naive_solver.
Qed.

Lemma find_impl_is_Some schema config :
  is_Some (find_impl schema config) <-> schema ∈ schema_names /\ config ∈ config_names.
Proof.
  unfold schema_names, config_names. rewrite <- !find_some_iff.
  unfold find_impl, find_config, find_arm.
  destruct (List.find _ arms) as [a|], (List.find _ configs) as [[n C]|]; simpl;
    split; try (intros [[] ?]; done); try (intros [? []]; done); try (intros []; done); eauto.
Qed.

(** [Types.X] and [X] for the containers, whose struct gives both names. *)
Definition names_agree (a : arm) : bool :=
  match arm_elx a, arm_ssz a Mainnet with
  | EStruct n m _, SStruct n' _ =>
      String.eqb n (arm_name a) && String.eqb m ("Types." +:+ arm_name a)
      && String.eqb n' (arm_name a)
  | EStruct _ _ _, _ | _, SStruct _ _ => false
  | _, _ => true
  end.

(** C16: the arms of [schema_match!] are consistent: no name is matched twice,
    so every arm can be reached; the container an arm handles is the struct of
    that name on both sides, and its Elixir struct is [Types.<name>]; and the
    three arms that are not containers are [Transaction], [Root] and [Epoch]. *)
Theorem arms_consistent :
  NoDup schema_names /\ forallb names_agree arms = true
  /\ filter (fun n => bool_decide (option_bind _ _ elx_module (arm_elx <$> find_arm n) = None))
       schema_names = ["Transaction"; "Root"; "Epoch"].
Proof.
  split; [apply (bool_decide_unpack _); by vm_compute|]. split; by vm_compute.
Qed.

(** Levels between a blob commitment and the root of the block body. *)
Definition commitment_depth (C : Config) : N :=
  (N.log2_up (nlen (ssz_fields (SszTypes.BeaconBlockBody C))) + 1
    + N.log2_up (MaxBlobCommitmentsPerBlock C))%N.


(** Sizes the consensus specification gives the fixed-size containers. *)
Definition container_sizes : list (string * N) := [
  ("Fork", 16); ("ForkData", 36); ("Checkpoint", 40); ("Validator", 121);
  ("AttestationData", 128); ("Eth1Data", 72); ("HistoricalSummary", 64);
  ("DepositMessage", 88); ("DepositData", 184); ("Deposit", 1240); ("VoluntaryExit", 16);
  ("SignedVoluntaryExit", 112); ("BeaconBlockHeader", 112); ("SignedBeaconBlockHeader", 208);
  ("ProposerSlashing", 416); ("BLSToExecutionChange", 76); ("SignedBLSToExecutionChange", 172);
  ("Withdrawal", 44); ("SigningData", 64); ("StatusMessage", 84); ("BlobIdentifier", 40);
  ("SyncCommitteeMessage", 144); ("BeaconBlocksByRangeRequest", 24)]%N.

