(* ===== verification/SszNif.v ===== *)
(** * The SSZ NIF: [native/ssz_nif/src/lib.rs]

    The six functions exported to [Elixir.Ssz].  Each strips the module prefix
    of the schema atom, reads the configuration atom, dispatches on both with
    [schema_match!] and wraps the result in [{:ok, _}]. *)
From Stdlib Require Import Init.Byte.
From S2P Require Import Prelude Rust Config Schema SszTypes ElxTypes SszSpec TreeHashSpec Crates Reference Convert Helpers Dispatch.
Open Scope N_scope.

Definition SCHEMA_PREFIX_SIZE : nat := String.length "Elixir.Types.".

Section nifs.
Context `{Rustler, SszTypesCrate, SszCrate, TreeHashCrate}.

Definition to_ssz_rs (map : Term) (schema config : Atom) : res nif_error Term :=
  let? schema := atom_to_string schema in
  let? schema := ok_or (str_get_from SCHEMA_PREFIX_SIZE schema) BadArg in
  let? config := atom_to_string config in
  let? serialized := schema_match schema config (fun i => encode_ssz (impl_conv i) map) in
  let? binary := bytes_to_binary serialized in
  Ok (ok_tuple (encode EBinary binary)).

Definition from_ssz_rs (bytes : bytes) (schema config : Atom) : res nif_error Term :=
  let? schema := atom_to_string schema in
  let? schema := ok_or (str_get_from SCHEMA_PREFIX_SIZE schema) BadArg in
  let? config := atom_to_string config in
  let? res := schema_match schema config (fun i => decode_ssz (impl_conv i) bytes) in
  Ok (ok_tuple res).

Definition list_from_ssz_rs (bytes : bytes) (schema config : Atom) : res nif_error Term :=
  let? schema := atom_to_string schema in
  let? schema := ok_or (str_get_from SCHEMA_PREFIX_SIZE schema) BadArg in
  let? config := atom_to_string config in
  let? res := schema_match schema config (fun i => list_decode_ssz (impl_conv i) bytes) in
  Ok (ok_tuple res).

Definition hash_tree_root_rs (map : Term) (schema config : Atom) : res nif_error Term :=
  let? schema := atom_to_string schema in
  let? schema := ok_or (str_get_from SCHEMA_PREFIX_SIZE schema) BadArg in
  let? config := atom_to_string config in
  let? serialized := schema_match schema config (fun i => hash_tree_root (impl_conv i) map) in
  let? binary := bytes_to_binary serialized in
  Ok (ok_tuple (encode EBinary binary)).

Definition hash_tree_root_list_rs (list : list Term) (max_size : N) (schema config : Atom) :
    res nif_error Term :=
  let? schema := atom_to_string schema in
  let? schema := ok_or (str_get_from SCHEMA_PREFIX_SIZE schema) BadArg in
  let? config := atom_to_string config in
  let? serialized := schema_match schema config
    (fun i => hash_list_tree_root (impl_conv i) list max_size) in
  let? binary := bytes_to_binary serialized in
  Ok (ok_tuple (encode EBinary binary)).

Definition hash_tree_root_vector_rs (list : list Term) (max_size : N) (schema config : Atom) :
    res nif_error Term :=
  let? schema := atom_to_string schema in
  let? schema := ok_or (str_get_from SCHEMA_PREFIX_SIZE schema) BadArg in
  let? config := atom_to_string config in
  let? serialized := schema_match schema config
    (fun i => hash_vector_tree_root (impl_conv i) list max_size) in
  let? binary := bytes_to_binary serialized in
  Ok (ok_tuple (encode EBinary binary)).
End nifs.

(** ** What the arguments select *)
Section select.
Context `{Rustler}.

(** The reply of a NIF that returns bytes. *)
Definition reply (b : bytes) : Term := ok_tuple (encode EBinary b).

Definition select (schema config : Atom) : option impl :=
  match atom_to_string schema, atom_to_string config with
  | Ok schema, Ok config =>
      schema ← str_get_from SCHEMA_PREFIX_SIZE schema; find_impl schema config
  | _, _ => None
  end.

(** The common prologue: the helper runs at the selected implementation. *)
Lemma prologue_Some {A B} schema config i (f : impl -> res nif_error A)
    (k : A -> res nif_error B) :
  select schema config = Some i ->
  (let? schema := atom_to_string schema in
   let? schema := ok_or (str_get_from SCHEMA_PREFIX_SIZE schema) BadArg in
   let? config := atom_to_string config in
   let? a := schema_match schema config f in k a) =
  let? a := f i in k a.
Proof using Type.
  unfold select. destruct (atom_to_string schema) as [s| |]; [|done..].
  destruct (atom_to_string config) as [c| |]; [|done..]. cbn [bind].
  destruct (str_get_from _ s) as [s'|]; [|done]. cbn [ok_or bind mbind option_bind].
  intros Hi. by rewrite schema_match_find, Hi.
Qed.

Lemma prologue_None {A B} schema config (f : impl -> res nif_error A)
    (k : A -> res nif_error B) b :
  select schema config = None ->
  (let? schema := atom_to_string schema in
   let? schema := ok_or (str_get_from SCHEMA_PREFIX_SIZE schema) BadArg in
   let? config := atom_to_string config in
   let? a := schema_match schema config f in k a) <> Ok b.
Proof using Type.
  unfold select. destruct (atom_to_string schema) as [s| |]; [|done..]. cbn [bind].
  destruct (str_get_from _ s) as [s'|]; [|done]. cbn [ok_or bind mbind option_bind].
  destruct (atom_to_string config) as [c| |]; [|done..]. cbn [bind].
  intros Hi. by rewrite schema_match_find, Hi.
Qed.

Lemma select_ok schema config i :
  select schema config = Some i ->
  legal (impl_ssz i) = true /\ bits_bounded (impl_ssz i) = true /\ is_vec (impl_elx i) = false.
Proof using Type.
  unfold select. destruct (atom_to_string schema) as [s| |], (atom_to_string config) as [c| |];
    try done.
  destruct (str_get_from _ s) as [s'|]; [|done]. apply find_impl_ok.
Qed.
End select.

(** ** Encoding and decoding *)
Section codec.
Context `{RustlerLaws, SszTypesLaws, SszLaws}.

Lemma to_ssz_rs_select map schema config i :
  select schema config = Some i ->
  to_ssz_rs map schema config = let? b := encode_ssz (impl_conv i) map in Ok (reply b).
Proof using Type.
  intros Hi. unfold to_ssz_rs. rewrite prologue_Some with (i := i) by done.
  by destruct (encode_ssz _ _); cbn [bind]; rewrite ?bytes_to_binary_Ok.
Qed.

Lemma from_ssz_rs_select b schema config i :
  select schema config = Some i ->
  from_ssz_rs b schema config = let? t := decode_ssz (impl_conv i) b in Ok (ok_tuple t).
Proof using Type. intros. unfold from_ssz_rs. by rewrite prologue_Some with (i := i). Qed.

Lemma list_from_ssz_rs_select b schema config i :
  select schema config = Some i ->
  list_from_ssz_rs b schema config =
    let? t := list_decode_ssz (impl_conv i) b in Ok (ok_tuple t).
Proof using Type. intros. unfold list_from_ssz_rs. by rewrite prologue_Some with (i := i). Qed.

(** C1: encoding then decoding a container, at any schema and configuration
    the NIF knows: a value in range that converts is encoded as the SSZ
    serialization of its conversion, and decoding those bytes under the same
    schema gives the value back (its [Uint256] fields cut or padded to 32
    bytes, everything else unchanged). *)
Theorem to_ssz_rs_roundtrip schema config i x v :
  select schema config = Some i ->
  eok (impl_elx i) x = true -> from_elx (impl_conv i) x = Ok v ->
  nlen (serialize (impl_ssz i) v) < 2 ^ 32 ->
  to_ssz_rs (encode (impl_elx i) x) schema config = Ok (reply (serialize (impl_ssz i) v)) /\
  from_ssz_rs (serialize (impl_ssz i) v) schema config =
    Ok (ok_tuple (encode (impl_elx i) (canonical (impl_conv i) x))).
Proof using Type*.
  intros Hi Hx Hv Hlt. destruct (select_ok _ _ _ Hi) as (Hl & Hb & Hvec).
  rewrite (to_ssz_rs_select _ _ _ i), (from_ssz_rs_select _ _ _ i) by done.
  destruct (encode_decode_ssz _ _ (impl_conv i) x v) as [-> ->]; done.
Qed.

(** C2: decoding then encoding: whatever bytes (under 4 GiB) [from_ssz_rs]
    accepts, [to_ssz_rs] maps the decoded term back to exactly those bytes.
    So no two byte strings decode to the same term, and the decoder accepts
    only canonical encodings. *)
Theorem from_ssz_rs_roundtrip b schema config t :
  nlen b < 2 ^ 32 -> from_ssz_rs b schema config = Ok t ->
  exists u, t = ok_tuple u /\ to_ssz_rs u schema config = Ok (reply b).
Proof using Type*.
  intros Hlt Ht. destruct (select schema config) as [i|] eqn:Hi;
    [|by apply prologue_None in Ht].
  destruct (select_ok _ _ _ Hi) as (Hl & Hb & Hvec).
  rewrite (from_ssz_rs_select _ _ _ i) in Ht by done.
  apply bind_Ok in Ht as (u & Hu & [= <-]). exists u. split; [done|].
  rewrite (to_ssz_rs_select _ _ _ i) by done. by rewrite (decode_encode_ssz _ _ _ b u).
Qed.

(** C3: lists of containers: [to_ssz_rs] on a list writes the SSZ list of
    their conversions, and [list_from_ssz_rs] reads it back. *)
Theorem to_ssz_rs_list_roundtrip schema config i xs v :
  select schema config = Some i ->
  forallb (eok (impl_elx i)) xs = true -> collect (from_elx (impl_conv i)) xs = Ok v ->
  nlen (serialize (SVec (impl_ssz i)) v) < 2 ^ 32 ->
  to_ssz_rs (encode (EVec (impl_elx i)) xs) schema config =
    Ok (reply (serialize (SVec (impl_ssz i)) v)) /\
  list_from_ssz_rs (serialize (SVec (impl_ssz i)) v) schema config =
    Ok (ok_tuple (encode (EVec (impl_elx i)) (map (canonical (impl_conv i)) xs))).
Proof using Type*.
  intros Hi Hx Hv Hlt. destruct (select_ok _ _ _ Hi) as (Hl & Hb & _).
  rewrite (to_ssz_rs_select _ _ _ i), (list_from_ssz_rs_select _ _ _ i) by done.
  destruct (encode_decode_list _ _ (impl_conv i) xs v) as [-> ->]; done.
Qed.

(** C19: the bytes [list_from_ssz_rs] accepts are the encoding [to_ssz_rs]
    gives of the list it returns. *)
Theorem list_from_ssz_rs_roundtrip b schema config t :
  nlen b < 2 ^ 32 -> list_from_ssz_rs b schema config = Ok t ->
  exists u, t = ok_tuple u /\ to_ssz_rs u schema config = Ok (reply b).
Proof using Type*.
  intros Hlt Ht. destruct (select schema config) as [i|] eqn:Hi;
    [|by apply prologue_None in Ht].
  destruct (select_ok _ _ _ Hi) as (Hl & Hb & _).
  rewrite (list_from_ssz_rs_select _ _ _ i) in Ht by done.
  apply bind_Ok in Ht as (u & Hu & [= <-]). exists u. split; [done|].
  rewrite (to_ssz_rs_select _ _ _ i) by done. by rewrite (decode_encode_list _ _ _ b u).
Qed.

(** C21: the reply of [to_ssz_rs] to a container is [{:ok, bytes}] exactly
    when every field has a length its SSZ type allows; otherwise it is the
    message of the conversion error. *)
Theorem to_ssz_rs_reply schema config i x :
  select schema config = Some i -> eok (impl_elx i) x = true ->
  is_ok (to_ssz_rs (encode (impl_elx i) x) schema config) = accepts (impl_conv i) x /\
  forall err, from_elx (impl_conv i) x = Err err ->
    to_ssz_rs (encode (impl_elx i) x) schema config = Err (TermError (to_string err)).
Proof using Type*.
  intros Hi Hx. destruct (select_ok _ _ _ Hi) as (_ & _ & Hvec).
  rewrite (to_ssz_rs_select _ _ _ i), encode_ssz_encode by done.
  rewrite <- (proj1 from_elx_accepts_mut). split.
  - by destruct (from_elx (impl_conv i) x).
  - by intros err ->.
Qed.

End codec.

(** ** Hashing *)
Section hashing.
Context `{RustlerLaws, SszTypesLaws, SszLaws, TreeHashLaws}.

(** C20: the root [hash_tree_root_rs] replies with is the SSZ hash tree root
    of the converted container. *)
Theorem hash_tree_root_rs_spec schema config i x v :
  select schema config = Some i ->
  eok (impl_elx i) x = true -> from_elx (impl_conv i) x = Ok v ->
  hash_tree_root_rs (encode (impl_elx i) x) schema config =
    Ok (reply (root hash32_concat (impl_ssz i) v)).
Proof using Type*.
  intros Hi Hx Hv. unfold hash_tree_root_rs. rewrite prologue_Some with (i := i) by done.
  rewrite (hash_tree_root_encode _ _ _ x v) by done. cbn [bind]. by rewrite bytes_to_binary_Ok.
Qed.

Lemma hash_tree_root_list_rs_select l max_size schema config i :
  select schema config = Some i ->
  hash_tree_root_list_rs l max_size schema config =
    let? b := hash_list_tree_root (impl_conv i) l max_size in Ok (reply b).
Proof using Type.
  intros Hi. unfold hash_tree_root_list_rs. rewrite prologue_Some with (i := i) by done.
  by destruct (hash_list_tree_root _ _ _); cbn [bind]; rewrite ?bytes_to_binary_Ok.
Qed.

Lemma hash_tree_root_vector_rs_select l max_size schema config i :
  select schema config = Some i ->
  hash_tree_root_vector_rs l max_size schema config =
    let? b := hash_vector_tree_root (impl_conv i) l max_size in Ok (reply b).
Proof using Type.
  intros Hi. unfold hash_tree_root_vector_rs. rewrite prologue_Some with (i := i) by done.
  by destruct (hash_vector_tree_root _ _ _); cbn [bind]; rewrite ?bytes_to_binary_Ok.
Qed.

(** C10: hashing a list with a limit given at run time agrees with the
    [VariableList] of that limit: the reply is the hash tree root of the SSZ
    list type whose limit is [max_size], length mixed in. *)
Theorem hash_tree_root_list_rs_spec l max_size schema config i xs v :
  select schema config = Some i ->
  collect (decode (impl_elx i)) l = Ok xs -> collect (from_elx (impl_conv i)) xs = Ok v ->
  max_size + 32 <= 2 ^ 63 -> nlen l <= max_size ->
  hash_tree_root_list_rs l max_size schema config =
    Ok (reply (root hash32_concat (SVariableList (impl_ssz i) max_size) v)).
Proof using Type*.
  intros Hi Hl Hv Hmax Hle. rewrite (hash_tree_root_list_rs_select _ _ _ _ i) by done.
  unfold hash_list_tree_root. erewrite hash_vector_tree_root_fits by done. cbn [bind].
  rewrite mix_in_length_spec, root_variable_list. do 4 f_equal.
  etransitivity; symmetry; [apply (nlen_collect _ _ _ Hl)|apply (nlen_collect _ _ _ Hv)].
Qed.

(** C11: hashing a vector agrees with the [FixedVector] of that length. *)
Theorem hash_tree_root_vector_rs_spec l max_size schema config i xs v :
  select schema config = Some i ->
  collect (decode (impl_elx i)) l = Ok xs -> collect (from_elx (impl_conv i)) xs = Ok v ->
  max_size + 32 <= 2 ^ 63 -> nlen l = max_size ->
  hash_tree_root_vector_rs l max_size schema config =
    Ok (reply (root hash32_concat (SFixedVector (impl_ssz i) max_size) v)).
Proof using Type*.
  intros Hi Hl Hv Hmax Hle. rewrite (hash_tree_root_vector_rs_select _ _ _ _ i) by done.
  erewrite hash_vector_tree_root_fits by (done || lia). by rewrite root_fixed_vector.
Qed.

(** C12: on a list whose elements decode and convert, both list hashes panic
    exactly when its leaves outnumber the power of two the limit rounds up
    to.  In between, a list longer than [max_size] is hashed without
    complaint: the limit itself is not enforced. *)
Theorem hash_list_panics l max_size schema config i xs v :
  select schema config = Some i ->
  collect (decode (impl_elx i)) l = Ok xs -> collect (from_elx (impl_conv i)) xs = Ok v ->
  max_size + 32 <= 2 ^ 63 ->
  let overflow :=
    next_pow2 (leaf_limit (impl_ssz i) max_size) < leaf_limit (impl_ssz i) (nlen l) in
  ((exists msg, hash_tree_root_list_rs l max_size schema config = Panic msg) <-> overflow) /\
  ((exists msg, hash_tree_root_vector_rs l max_size schema config = Panic msg) <-> overflow).
Proof using Type*.
  intros Hi Hl Hv Hmax overflow. subst overflow.
  rewrite (hash_tree_root_list_rs_select _ _ _ _ i) by done.
  rewrite (hash_tree_root_vector_rs_select _ _ _ _ i) by done.
  rewrite <- (hash_vector_tree_root_panics _ _ (impl_conv i) l xs v max_size) by done.
  unfold hash_list_tree_root.
  destruct (hash_vector_tree_root _ _ _); cbn [bind]; split; split; intros [m Hm];
    by try (exists m; simplify_eq).
Qed.
End hashing.

(** ** Arguments *)
Section arguments.
Context `{RustlerLaws, SszTypesLaws, SszLaws, TreeHashLaws}.

Lemma prologue_no_panic {A B} schema config (f : impl -> res nif_error A)
    (k : A -> res nif_error B) :
  (forall i, no_panic (f i)) -> (forall a, no_panic (k a)) ->
  no_panic (let? schema := atom_to_string schema in
    let? schema := ok_or (str_get_from SCHEMA_PREFIX_SIZE schema) BadArg in
    let? config := atom_to_string config in
    let? a := schema_match schema config f in k a).
Proof using Type*.
  intros Hf Hk. apply bind_no_panic; [apply atom_to_string_no_panic|]. intros s _.
  apply bind_no_panic; [by destruct (str_get_from _ _)|]. intros s' _.
  apply bind_no_panic; [apply atom_to_string_no_panic|]. intros c _.
  apply bind_no_panic; [|done]. rewrite schema_match_find. by destruct (find_impl s' c).
Qed.

Lemma reply_no_panic b :
  no_panic (E := nif_error)
    (let? binary := bytes_to_binary b in Ok (ok_tuple (encode EBinary binary))).
Proof using Type. by rewrite bytes_to_binary_Ok. Qed.


Lemma prologue_BadArg {A B} schema config sn cn (f : impl -> res nif_error A)
    (k : A -> res nif_error B) :
  atom_to_string schema = Ok sn -> atom_to_string config = Ok cn ->
  select schema config = None ->
  (let? schema := atom_to_string schema in
   let? schema := ok_or (str_get_from SCHEMA_PREFIX_SIZE schema) BadArg in
   let? config := atom_to_string config in
   let? a := schema_match schema config f in k a) = Err BadArg.
Proof using Type.
  unfold select. intros -> ->. cbn [bind].
  destruct (str_get_from _ sn) as [s|]; [|done]. cbn [ok_or bind mbind option_bind].
  intros Hi. by rewrite schema_match_find, Hi.
Qed.

Lemma schema_name_start : forallb (fun n => match n with
  | EmptyString => false | String c _ => negb (is_continuation c) end) schema_names = true.
Proof using Type. by vm_compute. Qed.

Lemma select_is_Some schema config sn cn :
  atom_to_string schema = Ok sn -> atom_to_string config = Ok cn ->
  is_Some (select schema config) <->
  exists p name, sn = p +:+ name /\ String.length p = SCHEMA_PREFIX_SIZE
    /\ name ∈ schema_names /\ cn ∈ config_names.
Proof using Type.
  unfold select. intros -> ->. split.
  - destruct (str_get_from _ sn) as [s|] eqn:Hs; [|by intros []].
    intros [? ?]%find_impl_is_Some. apply str_get_from_Some in Hs as (p & ? & ?). eauto 10.
  - intros (p & name & -> & Hp & Hname & Hcn). rewrite <- Hp, str_get_from_prefix.
    pose proof (proj1 (forallb_elem _ _) schema_name_start _ Hname) as Hc.
    destruct name as [|c name]; [done|]. cbn [str_get_from].
    apply negb_true_iff in Hc. rewrite Hc. by apply find_impl_is_Some.
Qed.

(** C17: the dispatch: the schemas the NIF knows are the names of the table
    behind any prefix of thirteen bytes, the configurations [mainnet],
    [minimal] and [gnosis]; all six functions answer [badarg] to any others. *)
Theorem dispatch_exact t b l max_size schema config sn cn :
  atom_to_string schema = Ok sn -> atom_to_string config = Ok cn ->
  (is_Some (select schema config) <->
    exists p name, sn = p +:+ name /\ String.length p = 13%nat
      /\ name ∈ schema_names /\ cn ∈ ["mainnet"; "minimal"; "gnosis"]%string) /\
  (select schema config = None ->
    to_ssz_rs t schema config = Err BadArg /\ from_ssz_rs b schema config = Err BadArg /\
    list_from_ssz_rs b schema config = Err BadArg /\
    hash_tree_root_rs t schema config = Err BadArg /\
    hash_tree_root_list_rs l max_size schema config = Err BadArg /\
    hash_tree_root_vector_rs l max_size schema config = Err BadArg).
Proof using Type.
  intros Hs Hc. split; [by rewrite (select_is_Some schema config sn cn)|].
  intros Hi. split_and!; by eapply prologue_BadArg.
Qed.

(** C18: the module prefix of the schema atom is cut off unread: atoms that
    agree after their first thirteen bytes select the same type, so a schema
    outside [Types] answers as the one of [Types] it looks like. *)
Theorem schema_prefix_ignored p p' name schema schema' config :
  String.length p = 13%nat -> String.length p' = 13%nat ->
  atom_to_string schema = Ok (p +:+ name) -> atom_to_string schema' = Ok (p' +:+ name) ->
  select schema config = select schema' config /\
  (forall t, to_ssz_rs t schema config = to_ssz_rs t schema' config) /\
  (forall b, from_ssz_rs b schema config = from_ssz_rs b schema' config) /\
  (forall t, hash_tree_root_rs t schema config = hash_tree_root_rs t schema' config).
Proof using Type.
  intros Hp Hp' Hs Hs'.
  assert (str_get_from SCHEMA_PREFIX_SIZE (p +:+ name)
    = str_get_from SCHEMA_PREFIX_SIZE (p' +:+ name)) as Heq.
  { change SCHEMA_PREFIX_SIZE with 13%nat. rewrite <- Hp at 1. rewrite <- Hp'.
    by rewrite !str_get_from_prefix. }
  unfold select, to_ssz_rs, from_ssz_rs, hash_tree_root_rs. rewrite Hs, Hs'. cbn [bind].
  by rewrite Heq.
Qed.

(** The schema of an empty list matters only through the packing of basic
    types: the tree of a list without leaves. *)
Lemma hash_vector_tree_root_empty s e (c : Conv s e) max_size :
  basic_size s = None -> max_size + 32 <= 2 ^ 63 ->
  hash_vector_tree_root c [] max_size =
    Ok (zero_hash hash32_concat (N.to_nat (N.log2_up max_size))).
Proof using Type*.
  intros Hs Hmax. rewrite (hash_vector_tree_root_fits _ _ c [] [] [] max_size)
    by (done || apply N.le_0_l).
  unfold leaves, leaf_limit, merkleize, merkle_root. rewrite Hs. simpl map.
  by rewrite layers_nil.
Qed.

Definition basic_arm (a : arm) : bool :=
  match basic_size (arm_ssz a Mainnet) with Some _ => true | None => false end.

(** C23: the root of an empty list is that of a tree of zeros of the limit's
    depth, under every schema that is not a basic type, so the caller may
    name any of those for it; the one basic schema is [Epoch], whose elements
    are packed four to a leaf. *)
Theorem hash_tree_root_list_rs_empty max_size schema config i :
  select schema config = Some i -> basic_size (impl_ssz i) = None -> max_size + 32 <= 2 ^ 63 ->
  hash_tree_root_list_rs [] max_size schema config =
    Ok (reply (mix_in hash32_concat
      (zero_hash hash32_concat (N.to_nat (N.log2_up max_size))) 0)) /\
  map arm_name (List.filter basic_arm arms) = ["Epoch"%string].
Proof using Type*.
  intros Hi Hs Hmax. split; [|done].
  rewrite (hash_tree_root_list_rs_select _ _ _ _ i) by done. unfold hash_list_tree_root.
  rewrite hash_vector_tree_root_empty by done. cbn [bind]. by rewrite mix_in_length_spec.
Qed.
End arguments.

(** ** The NIF run on the sample attestation *)
Definition sample_impl : impl :=
  {| impl_ssz := SszTypes.Attestation Minimal; impl_elx := ElxTypes.Attestation;
     impl_conv := sample_conv |}.
Definition sample_schema : Atom := "Elixir.Types.Attestation"%string.
Definition sample_config : Atom := "minimal"%string.

(** A configuration the NIF does not have, and a schema outside [Types]. *)
Definition other_config : Atom := "sepolia"%string.
Definition other_schema : Atom := "Elixir.Other.Attestation"%string.

Lemma sample_selected : select sample_schema sample_config = Some sample_impl.
Proof. by vm_compute. Qed.

Lemma to_ssz_rs_roundtrip_witness :
  from_ssz_rs (serialize (impl_ssz sample_impl) sample_ssz) sample_schema sample_config =
    Ok (ok_tuple (encode (impl_elx sample_impl) sample_elx)).
Proof.
  etransitivity;
    [apply (to_ssz_rs_roundtrip sample_schema sample_config sample_impl sample_elx sample_ssz)|];
    by vm_compute.
Defined.

(** The encoding of the sample: bit list at offset 229, one byte. *)
Definition sample_bytes : bytes := serialize (impl_ssz sample_impl) sample_ssz.

Lemma from_ssz_rs_roundtrip_witness :
  nlen sample_bytes = 230 /\
  exists u, to_ssz_rs u sample_schema sample_config = Ok (reply sample_bytes).
Proof.
  split; [by vm_compute|].
  destruct (from_ssz_rs_roundtrip sample_bytes sample_schema sample_config
    (ok_tuple (encode (impl_elx sample_impl) sample_elx))) as (u & _ & Hu); [by vm_compute..|].
  by exists u.
Defined.

Lemma to_ssz_rs_list_roundtrip_witness :
  list_from_ssz_rs
    (serialize (SVec (impl_ssz sample_impl)) [sample_ssz; sample_ssz])
    sample_schema sample_config =
  Ok (ok_tuple (encode (EVec (impl_elx sample_impl)) [sample_elx; sample_elx])).
Proof.
  etransitivity;
    [apply (to_ssz_rs_list_roundtrip sample_schema sample_config sample_impl
      [sample_elx; sample_elx] [sample_ssz; sample_ssz])|]; by vm_compute.
Defined.

Lemma list_from_ssz_rs_roundtrip_witness :
  exists u, to_ssz_rs u sample_schema sample_config =
    Ok (reply (serialize (SVec (impl_ssz sample_impl)) [sample_ssz; sample_ssz])).
Proof.
  destruct (list_from_ssz_rs_roundtrip
    (serialize (SVec (impl_ssz sample_impl)) [sample_ssz; sample_ssz])
    sample_schema sample_config
    (ok_tuple (encode (EVec (impl_elx sample_impl)) [sample_elx; sample_elx])))
    as (u & _ & Hu); [by vm_compute..|].
  by exists u.
Defined.

Lemma to_ssz_rs_reply_witness :
  is_ok (to_ssz_rs (encode (impl_elx sample_impl) bad_elx) sample_schema sample_config) = false.
Proof.
  etransitivity; [apply (to_ssz_rs_reply sample_schema sample_config sample_impl bad_elx)|];
    by vm_compute.
Defined.


Lemma hash_tree_root_rs_spec_witness :
  hash_tree_root_rs (encode (impl_elx sample_impl) sample_elx) sample_schema sample_config =
    Ok (reply (root hash32_concat (impl_ssz sample_impl) sample_ssz)).
Proof.
  apply (hash_tree_root_rs_spec sample_schema sample_config sample_impl sample_elx sample_ssz);
    by vm_compute.
Defined.

(** Three attestations as terms. *)
Definition sample_terms : list Term := replicate 3 (encode (impl_elx sample_impl) sample_elx).

Lemma hash_tree_root_list_rs_spec_witness :
  hash_tree_root_list_rs sample_terms 8 sample_schema sample_config =
    Ok (reply (root hash32_concat (SVariableList (impl_ssz sample_impl) 8)
      (replicate 3 sample_ssz))).
Proof.
  apply (hash_tree_root_list_rs_spec sample_terms 8 sample_schema sample_config sample_impl
    (replicate 3 sample_elx) (replicate 3 sample_ssz)); by vm_compute.
Defined.

Lemma hash_tree_root_vector_rs_spec_witness :
  hash_tree_root_vector_rs sample_terms 3 sample_schema sample_config =
    Ok (reply (root hash32_concat (SFixedVector (impl_ssz sample_impl) 3)
      (replicate 3 sample_ssz))).
Proof.
  apply (hash_tree_root_vector_rs_spec sample_terms 3 sample_schema sample_config sample_impl
    (replicate 3 sample_elx) (replicate 3 sample_ssz)); by vm_compute.
Defined.

(** Three elements overflow a limit of two, and not one of four. *)
Lemma hash_list_panics_witness :
  (exists msg, hash_tree_root_list_rs sample_terms 2 sample_schema sample_config = Panic msg) /\
  ~ (exists msg, hash_tree_root_list_rs sample_terms 4 sample_schema sample_config = Panic msg).
Proof.
  destruct (hash_list_panics sample_terms 2 sample_schema sample_config sample_impl
    (replicate 3 sample_elx) (replicate 3 sample_ssz)) as [[_ H2] _]; [by vm_compute..|].
  destruct (hash_list_panics sample_terms 4 sample_schema sample_config sample_impl
    (replicate 3 sample_elx) (replicate 3 sample_ssz)) as [[H4 _] _]; [by vm_compute..|].
  split; [apply H2; by vm_compute|]. intros Hp. specialize (H4 Hp). by vm_compute in H4.
Defined.


Lemma dispatch_exact_witness :
  from_ssz_rs [] sample_schema other_config = Err BadArg.
Proof.
  destruct (dispatch_exact (reply []) [] [] 0 sample_schema other_config
    "Elixir.Types.Attestation" "sepolia") as [_ H]; [done..|].
  apply H. by vm_compute.
Defined.

Lemma schema_prefix_ignored_witness :
  select other_schema sample_config = Some sample_impl.
Proof.
  etransitivity; [|exact sample_selected].
  by apply (schema_prefix_ignored "Elixir.Other." "Elixir.Types." "Attestation").
Defined.

Lemma hash_tree_root_list_rs_empty_witness :
  hash_tree_root_list_rs [] 16 sample_schema sample_config =
    Ok (reply (mix_in hash32_concat (zero_hash hash32_concat 4) 0)).
Proof.
  apply (hash_tree_root_list_rs_empty 16 sample_schema sample_config sample_impl);
    by vm_compute.
Defined.
