(* ===== verification/Bls.v ===== *)
(** * The BLS NIF: [native/bls_nif/src/lib.rs]

    The functions exported to [Elixir.Bls] over the [bls] crate.  The crate is
    a class of operations and a class of laws; the NIF is the checks, decoding
    and error reporting around them.  Errors of the crate are represented by
    their [Debug] rendering, the only use made of them. *)
From Stdlib Require Import Init.Byte.
From S2P Require Import Prelude Rust.
#[local] Open Scope N_scope.

(** ** The crate *)
Class BlsCrate := {
  PublicKey : Type;
  SecretKey : Type;
  Signature : Type;
  AggregateSignature : Type;
  AggregatePublicKey : Type;
  Hash256 : Type;
  BlstPublicKey : Type;
  INFINITY_PUBLIC_KEY : bytes;
  (** [blst::types::PublicKey::from_bytes], which does not validate, and
      [serialize], uncompressed *)
  blst_from_bytes : bytes -> res string BlstPublicKey;
  blst_serialize : BlstPublicKey -> bytes;
  deserialize_uncompressed : bytes -> res string PublicKey;
  pk_serialize : PublicKey -> bytes;
  sk_deserialize : bytes -> res string SecretKey;
  public_key : SecretKey -> PublicKey;
  sk_sign : SecretKey -> Hash256 -> Signature;
  sig_deserialize : bytes -> res string Signature;
  sig_serialize : Signature -> bytes;
  sig_verify : Signature -> PublicKey -> Hash256 -> bool;
  agg_infinity : AggregateSignature;
  agg_add_assign : AggregateSignature -> Signature -> AggregateSignature;
  agg_deserialize : bytes -> res string AggregateSignature;
  agg_serialize : AggregateSignature -> bytes;
  agg_verify : AggregateSignature -> list Hash256 -> list PublicKey -> bool;
  agg_fast_verify : AggregateSignature -> Hash256 -> list PublicKey -> bool;
  agg_eth_fast_verify : AggregateSignature -> Hash256 -> list PublicKey -> bool;
  agg_is_infinity : AggregateSignature -> bool;
  apk_aggregate : list PublicKey -> res string AggregatePublicKey;
  apk_to_public_key : AggregatePublicKey -> PublicKey;
  (** [Hash256::from_slice] *)
  from_slice : forall {E}, bytes -> res E Hash256
}.

(** ** The NIF *)
Section nif.
Context `{BlsCrate}.

Definition message_error : string := "Message must be 32 bytes long".

Definition fast_public_key_deserialize (pk : bytes) : res string PublicKey :=
  if bool_decide (pk = INFINITY_PUBLIC_KEY) then
    Err "Infinity public Key"%string
  else
    let? pk := map_err (fun err => "BlstError(" +:+ debug_error err +:+ ")")
                 (blst_from_bytes pk) in
    map_err (fun e => "Deserialization error: " +:+ debug_error e)
      (deserialize_uncompressed (blst_serialize pk)).

Definition sign (private_key message : bytes) : res string bytes :=
  if negb (nlen message =? 32) then Err message_error else
  match sk_deserialize private_key with
  | Ok sk =>
      let? hash := from_slice message in
      let signature := sk_sign sk hash in
      let bytes := sig_serialize signature in
      bytes_to_binary bytes
  | Err e => Err (debug_error e)
  | Panic p => Panic p
  end.

Definition aggregate (signatures : list bytes) : res string bytes :=
  match signatures with
  | [] => Err "Empty signature vector"%string
  | _ =>
      let? sigs := map_err debug_error (collect sig_deserialize signatures) in
      let aggr_sig := fold_left agg_add_assign sigs agg_infinity in
      let bytes := agg_serialize aggr_sig in
      bytes_to_binary bytes
  end.

Definition verify (public_key message signature : bytes) : res string bool :=
  if negb (nlen message =? 32) then Err message_error else
  let? sig := map_err debug_error (sig_deserialize signature) in
  let? pubkey := map_err debug_str (fast_public_key_deserialize public_key) in
  let? hash := from_slice message in
  Ok (sig_verify sig pubkey hash).

Definition aggregate_verify (public_keys messages : list bytes) (signature : bytes) :
    res string bool :=
  let? aggregate_sig := map_err debug_error (agg_deserialize signature) in
  let? pubkeys := map_err debug_str (collect fast_public_key_deserialize public_keys) in
  let? msgs := collect from_slice messages in
  Ok (agg_verify aggregate_sig msgs pubkeys).

Definition fast_aggregate_verify (public_keys : list bytes) (message signature : bytes) :
    res string bool :=
  if negb (nlen message =? 32) then Err message_error else
  let? aggregate_sig := map_err debug_error (agg_deserialize signature) in
  let? pubkeys := map_err debug_str (collect fast_public_key_deserialize public_keys) in
  let? hash := from_slice message in
  Ok (agg_fast_verify aggregate_sig hash pubkeys).

Definition eth_fast_aggregate_verify (public_keys : list bytes) (message signature : bytes) :
    res string bool :=
  if negb (nlen message =? 32) then Err message_error else
  let? aggregate_sig := map_err debug_error (agg_deserialize signature) in
  let? pubkeys := map_err debug_str (collect fast_public_key_deserialize public_keys) in
  let? hash := from_slice message in
  Ok (agg_eth_fast_verify aggregate_sig hash pubkeys).

Definition eth_aggregate_pubkeys (public_keys : list bytes) : res string bytes :=
  match public_keys with
  | [] => Err "Empty public key vector"%string
  | _ =>
      let? pubkeys := map_err debug_str (collect fast_public_key_deserialize public_keys) in
      let? agg := expect (apk_aggregate pubkeys) "error in aggregate" in
      bytes_to_binary (pk_serialize (apk_to_public_key agg))
  end.

Definition key_validate (public_key : bytes) : res string bool :=
  let? _pubkey := fast_public_key_deserialize public_key in Ok true.

Definition derive_pubkey (private_key : bytes) : res string bytes :=
  match sk_deserialize private_key with
  | Ok sk =>
      let public_key := public_key sk in
      let public_key_bytes := pk_serialize public_key in
      bytes_to_binary public_key_bytes
  | Err e => Err (debug_error e)
  | Panic p => Panic p
  end.
End nif.

(** ** What the NIF relies on

    Decoders report errors as values; a 32-byte slice makes a [Hash256] and
    any other panics; a decoded key survives re-encoding; keys can be
    aggregated unless there are none; what the crate writes it reads back; and
    the scheme is correct: signatures verify, alone and aggregated. *)
Class BlsLaws `{BlsCrate} : Prop := {
  blst_from_bytes_no_panic b : no_panic (blst_from_bytes b);
  deserialize_uncompressed_no_panic b : no_panic (deserialize_uncompressed b);
  sk_deserialize_no_panic b : no_panic (sk_deserialize b);
  sig_deserialize_no_panic b : no_panic (sig_deserialize b);
  agg_deserialize_no_panic b : no_panic (agg_deserialize b);
  from_slice_32 b : nlen b = 32 -> exists h, forall E, from_slice (E := E) b = Ok h;
  from_slice_other E b : nlen b <> 32 -> exists msg, from_slice (E := E) b = Panic msg;
  uncompressed_roundtrip b k :
    blst_from_bytes b = Ok k -> exists pk, deserialize_uncompressed (blst_serialize k) = Ok pk;
  apk_aggregate_nonempty pks : pks <> [] -> exists a, apk_aggregate pks = Ok a;
  public_key_roundtrip sk :
    pk_serialize (public_key sk) <> INFINITY_PUBLIC_KEY /\
    exists k, blst_from_bytes (pk_serialize (public_key sk)) = Ok k
      /\ deserialize_uncompressed (blst_serialize k) = Ok (public_key sk);
  sig_roundtrip sk h : sig_deserialize (sig_serialize (sk_sign sk h)) = Ok (sk_sign sk h);
  agg_roundtrip sigs :
    agg_deserialize (agg_serialize (fold_left agg_add_assign sigs agg_infinity)) =
      Ok (fold_left agg_add_assign sigs agg_infinity);
  sign_correct sk h : sig_verify (sk_sign sk h) (public_key sk) h = true;
  aggregate_correct sks h :
    sks <> [] ->
    agg_fast_verify (fold_left agg_add_assign (map (fun sk => sk_sign sk h) sks) agg_infinity)
      h (map public_key sks) = true;
  agg_eth_fast_verify_spec a h pks :
    agg_eth_fast_verify a h pks =
      match pks with [] => agg_is_infinity a | _ => agg_fast_verify a h pks end
}.

#[export] Hint Resolve blst_from_bytes_no_panic deserialize_uncompressed_no_panic
  sk_deserialize_no_panic sig_deserialize_no_panic agg_deserialize_no_panic : no_panic.

(** ** Keys *)
Section keys.
Context `{BlsLaws}.

(** The second decoding never fails, so a key is accepted when the first
    one accepts it. *)
Lemma fast_public_key_deserialize_is_ok b :
  is_ok (fast_public_key_deserialize b) =
    negb (bool_decide (b = INFINITY_PUBLIC_KEY)) && is_ok (blst_from_bytes b).
Proof using Type*.
  unfold fast_public_key_deserialize. destruct (bool_decide _); [done|]. simpl.
  destruct (blst_from_bytes b) as [k| |] eqn:Hk; [|done..]. simpl.
  by destruct (uncompressed_roundtrip b k Hk) as [pk ->].
Qed.

Lemma fast_public_key_deserialize_no_panic b : no_panic (fast_public_key_deserialize b).
Proof using Type*.
  unfold fast_public_key_deserialize. destruct (bool_decide _); eauto 10 with no_panic.
Qed.

Lemma fast_public_key_deserialize_own sk :
  fast_public_key_deserialize (pk_serialize (public_key sk)) = Ok (public_key sk).
Proof using Type*.
  unfold fast_public_key_deserialize.
  destruct (public_key_roundtrip sk) as (Hinf & k & -> & Hd).
  rewrite bool_decide_eq_false_2 by done. simpl. by rewrite Hd.
Qed.

Lemma key_validate_is_ok b : is_ok (key_validate b) = is_ok (fast_public_key_deserialize b).
Proof using Type. unfold key_validate. by destruct (fast_public_key_deserialize b). Qed.

Lemma key_validate_all keys :
  forallb (fun k => is_ok (key_validate k)) keys
    = is_ok (collect fast_public_key_deserialize keys).
Proof using Type.
  rewrite collect_is_ok. apply forallb_ext. intros k. apply key_validate_is_ok.
Qed.

Lemma infinity_not_ok pks :
  INFINITY_PUBLIC_KEY ∈ pks -> is_ok (collect fast_public_key_deserialize pks) = false.
Proof using Type*.
  intros Hin. rewrite collect_is_ok. apply not_true_iff_false. intros Hall.
  apply (proj1 (forallb_elem _ _) Hall) in Hin.
  rewrite fast_public_key_deserialize_is_ok, bool_decide_eq_true_2 in Hin; done.
Qed.
End keys.

#[export] Hint Resolve fast_public_key_deserialize_no_panic : no_panic.

(** ** Properties *)
Section properties.
Context `{BlsLaws}.

Lemma derive_pubkey_Ok b sk :
  sk_deserialize b = Ok sk -> derive_pubkey b = Ok (pk_serialize (public_key sk)).
Proof using Type. unfold derive_pubkey. intros ->. apply bytes_to_binary_Ok. Qed.

Lemma sign_Ok b m sk h :
  nlen m = 32 -> sk_deserialize b = Ok sk -> from_slice (E := string) m = Ok h ->
  sign b m = Ok (sig_serialize (sk_sign sk h)).
Proof using Type.
  unfold sign. intros -> -> ->. apply bytes_to_binary_Ok.
Qed.

(** C24: what is signed verifies: for every private key the crate accepts and
    every 32-byte message, [derive_pubkey] and [sign] succeed and [verify]
    answers [{:ok, true}] to their results. *)
Theorem sign_verify private_key sk message :
  sk_deserialize private_key = Ok sk -> nlen message = 32 ->
  exists pk sig, derive_pubkey private_key = Ok pk /\ sign private_key message = Ok sig
    /\ verify pk message sig = Ok true.
Proof using Type*.
  intros Hsk Hm. destruct (from_slice_32 message Hm) as [h Hh].
  eexists _, _. split; [by apply derive_pubkey_Ok|]. split; [by apply sign_Ok|].
  unfold verify. rewrite Hm, sig_roundtrip, fast_public_key_deserialize_own, Hh. simpl.
  by rewrite sign_correct.
Qed.

End properties.

(** ** Errors and panics *)
Section errors.
Context `{BlsLaws}.

Lemma from_slice_is_ok {E} m : is_ok (from_slice (E := E) m) = (nlen m =? 32).
Proof using Type*.
  destruct (N.eqb_spec (nlen m) 32) as [Hm|Hm].
  - by destruct (from_slice_32 m Hm) as [h ->].
  - by destruct (from_slice_other E m Hm) as [msg ->].
Qed.

Lemma from_slice_no_panic {E} m : nlen m = 32 -> no_panic (from_slice (E := E) m).
Proof using Type*. intros Hm. by destruct (from_slice_32 m Hm) as [h ->]. Qed.

Lemma guard_no_panic {E A} (m : bytes) err (k : res E A) :
  (nlen m = 32 -> no_panic k) -> no_panic (if negb (nlen m =? 32) then Err err else k).
Proof using Type. destruct (N.eqb_spec (nlen m) 32); simpl; [by intros Hk; apply Hk|done]. Qed.

Hint Resolve from_slice_no_panic guard_no_panic : no_panic.

(** C26: no argument makes a function of the NIF panic, but the messages of
    [aggregate_verify] (the subject of the next property). *)
Theorem bls_no_panic key keys message sig sigs :
  no_panic (sign key message) /\ no_panic (aggregate sigs) /\
  no_panic (verify key message sig) /\ no_panic (fast_aggregate_verify keys message sig) /\
  no_panic (eth_fast_aggregate_verify keys message sig) /\
  no_panic (eth_aggregate_pubkeys keys) /\ no_panic (key_validate key) /\
  no_panic (derive_pubkey key).
Proof using Type*.
  split_and!.
  - apply guard_no_panic. intros Hm.
    destruct (sk_deserialize key) as [sk| |p] eqn:Hk; [eauto 10 with no_panic|done|].
    by destruct (sk_deserialize_no_panic key p).
  - unfold aggregate. destruct sigs; eauto 10 with no_panic.
  - apply guard_no_panic. eauto 10 with no_panic.
  - apply guard_no_panic. eauto 12 with no_panic.
  - apply guard_no_panic. eauto 12 with no_panic.
  - unfold eth_aggregate_pubkeys. destruct keys as [|k keys]; [done|].
    apply bind_no_panic; [eauto 10 with no_panic|]. intros pks Hpks%map_err_Ok%length_collect.
    destruct (apk_aggregate_nonempty pks) as [a ->]; [by destruct pks|].
    apply bytes_to_binary_no_panic.
  - unfold key_validate. eauto 10 with no_panic.
  - unfold derive_pubkey. destruct (sk_deserialize key) as [sk| |p] eqn:Hk; [|done|].
    + apply bytes_to_binary_no_panic.
    + by destruct (sk_deserialize_no_panic key p).
Qed.

(** C27: [aggregate_verify] does not check the length of its messages: once
    the signature and every key decode, a message that is not 32 bytes long
    makes it panic, and nothing else does. *)
Theorem aggregate_verify_panics keys messages sig :
  (exists msg, aggregate_verify keys messages sig = Panic msg) <->
  is_ok (agg_deserialize sig) = true /\ forallb (fun k => is_ok (key_validate k)) keys = true
    /\ forallb (fun m => nlen m =? 32) messages = false.
Proof using Type*.
  rewrite key_validate_all.
  assert (forallb (fun m => nlen m =? 32) messages
    = forallb (fun m => is_ok (from_slice (E := string) m)) messages) as ->.
  { apply forallb_ext. intros m. by rewrite from_slice_is_ok. }
  rewrite <- collect_Panic.
  2: { intros m. rewrite from_slice_is_ok. by intros ?%N.eqb_neq%(from_slice_other string). }
  unfold aggregate_verify.
  destruct (agg_deserialize sig) as [a| |p] eqn:Ha; simpl;
    [|naive_solver|by destruct (agg_deserialize_no_panic sig p)].
  destruct (collect fast_public_key_deserialize keys) as [pks| |p] eqn:Hp; simpl;
    [|naive_solver|].
  - destruct (collect from_slice messages); simpl; naive_solver.
  - assert (no_panic (collect fast_public_key_deserialize keys)) as Hn
      by eauto with no_panic.
    by destruct (Hn p).
Qed.




End errors.

(** ** A concrete scheme

    Scalars modulo [2^64] in place of curve points, multiplication in place of
    the pairing: insecure, but a model of the laws the NIF can be run over. *)
Definition toy_q : Z := 2 ^ 64.
Definition toy_scalar (sk : Z) : Z := 1 + sk mod (toy_q - 1).
Definition toy_sum : list Z -> Z := foldr Z.add 0%Z.
Definition toy_add (a b : Z) : Z := (a + b) mod toy_q.
Definition toy_decode (n : N) (b : bytes) : res string Z :=
  if nlen b =? n then Ok (le_val b) else Err "BLST_BAD_ENCODING"%string.
Definition toy_fast (a : Z) (h : bytes) (pks : list Z) : bool :=
  match pks with [] => false | _ => (a =? toy_sum pks * le_val h mod toy_q)%Z end.

#[export] Instance toy_bls : BlsCrate := {
  PublicKey := Z; SecretKey := Z; Signature := Z; AggregateSignature := Z;
  AggregatePublicKey := Z; Hash256 := bytes; BlstPublicKey := Z;
  INFINITY_PUBLIC_KEY := le_bytes 48 0;
  blst_from_bytes := toy_decode 48;
  blst_serialize := le_bytes 96;
  deserialize_uncompressed := toy_decode 96;
  pk_serialize := le_bytes 48;
  sk_deserialize := toy_decode 32;
  public_key := toy_scalar;
  sk_sign sk h := (toy_scalar sk * le_val h mod toy_q)%Z;
  sig_deserialize := toy_decode 96;
  sig_serialize := le_bytes 96;
  sig_verify s pk h := (s =? pk * le_val h mod toy_q)%Z;
  agg_infinity := 0%Z;
  agg_add_assign := toy_add;
  agg_deserialize := toy_decode 96;
  agg_serialize := le_bytes 96;
  agg_verify a hs pks :=
    (a =? toy_sum (zip_with (fun pk h => pk * le_val h) pks hs) mod toy_q)%Z;
  agg_fast_verify := toy_fast;
  agg_eth_fast_verify a h pks := match pks with [] => (a =? 0)%Z | _ => toy_fast a h pks end;
  agg_is_infinity a := (a =? 0)%Z;
  apk_aggregate pks :=
    match pks with [] => Err "BLST_AGGR_TYPE_MISMATCH"%string | _ => Ok (toy_sum pks mod toy_q)%Z end;
  apk_to_public_key a := a;
  from_slice E b := if nlen b =? 32 then Ok b else Panic "source slice length does not match"
}.

Lemma toy_decode_no_panic n b : no_panic (toy_decode n b).
Proof. unfold toy_decode. by destruct (_ =? _). Qed.

Lemma toy_decode_le_bytes (n : nat) z :
  (0 <= z < 256 ^ Z.of_nat n)%Z -> toy_decode (N.of_nat n) (le_bytes n z) = Ok z.
Proof.
  intros Hz. unfold toy_decode. rewrite nlen_le_bytes, N.eqb_refl. f_equal.
  by apply le_val_bytes_small.
Qed.

Lemma toy_scalar_range sk : (1 <= toy_scalar sk < toy_q)%Z.
Proof. unfold toy_scalar. pose proof (Z.mod_pos_bound sk (toy_q - 1)). unfold toy_q in *. lia. Qed.

Lemma toy_fold_range sigs a :
  (0 <= a < toy_q)%Z -> (0 <= fold_left toy_add sigs a < toy_q)%Z.
Proof.
  revert a. induction sigs as [|s sigs IH]; intros a Ha; [done|].
  apply IH, Z.mod_pos_bound. done.
Qed.

Lemma toy_fold h sks a :
  (0 <= a < toy_q)%Z ->
  fold_left toy_add (map (fun sk => toy_scalar sk * h mod toy_q)%Z sks) a
    = ((a + toy_sum (map toy_scalar sks) * h) mod toy_q)%Z.
Proof.
  revert a. induction sks as [|sk sks IH]; intros a Ha; cbn [map fold_left toy_sum foldr].
  - rewrite Z.add_0_r. symmetry. by apply Z.mod_small.
  - rewrite IH by (by apply Z.mod_pos_bound). unfold toy_add, toy_sum.
    rewrite Zplus_mod_idemp_r, Zplus_mod_idemp_l. f_equal. lia.
Qed.

#[export] Instance toy_bls_laws : BlsLaws.
Proof.
  split; cbn -[le_bytes toy_q Z.pow Z.modulo toy_decode]; try apply toy_decode_no_panic.
  - intros b ->. eauto.
  - intros E b Hb%N.eqb_neq. rewrite Hb. eauto.
  - intros b k _. unfold toy_decode. rewrite nlen_le_bytes. eauto.
  - intros [|??]; [done|eauto].
  - intros sk. pose proof (toy_scalar_range sk) as Hr. unfold toy_q in Hr. split.
    + intros Heq%(f_equal le_val). rewrite !le_val_bytes_small in Heq; lia.
    + exists (toy_scalar sk). split.
      * apply (toy_decode_le_bytes 48). lia.
      * apply (toy_decode_le_bytes 96). lia.
  - intros sk h. apply (toy_decode_le_bytes 96).
    pose proof (Z.mod_pos_bound (toy_scalar sk * le_val h) toy_q). unfold toy_q in *. lia.
  - intros sigs. apply (toy_decode_le_bytes 96).
    pose proof (toy_fold_range sigs 0). unfold toy_q in *. lia.
  - intros sk h. apply Z.eqb_refl.
  - intros sks h Hne. rewrite toy_fold by done. unfold toy_fast.
    destruct sks as [|sk sks]; [done|]. apply Z.eqb_refl.
  - done.
Qed.

Definition toy_key : bytes := replicate 32 x07.
Definition toy_sk : SecretKey := le_val toy_key.
Definition toy_message : bytes := replicate 32 x2a.

Lemma sign_verify_witness :
  exists pk sig, derive_pubkey toy_key = Ok pk /\ sign toy_key toy_message = Ok sig
    /\ verify pk toy_message sig = Ok true.
Proof. apply (sign_verify toy_key toy_sk); by vm_compute. Defined.


Lemma bls_no_panic_witness : no_panic (sign toy_key []).
Proof. by apply (bls_no_panic toy_key [] [] [] []). Defined.

Lemma aggregate_verify_panics_witness :
  exists msg, aggregate_verify [le_bytes 48 5] [[x00]] (le_bytes 96 9) = Panic msg.
Proof. apply (aggregate_verify_panics [le_bytes 48 5] [[x00]] (le_bytes 96 9)). by vm_compute. Defined.




