(* ===== verification/Kzg.v ===== *)
(** * The KZG NIF: [native/kzg_nif/src/lib.rs]

    The functions exported to [Elixir.Kzg] over the [c_kzg] crate, and the
    lookup of the trusted setup file.  The crate, the working directory and the
    file system are parameters with laws; errors of the crate are represented
    by their [Debug] rendering. *)
From Stdlib Require Import Init.Byte.
From S2P Require Import Prelude Rust.
#[local] Open Scope N_scope.

(** ** [std::path]: a path is its components *)
Record path := { absolute : bool; components : list string }.

Definition relative (l : list string) : path := {| absolute := false; components := l |}.

Definition join (p q : path) : path :=
  if absolute q then q else {| absolute := absolute p; components := components p ++ components q |}.

Definition parent (p : path) : option path :=
  match components p with
  | [] => None
  | _ => Some {| absolute := absolute p; components := removelast (components p) |}
  end.

Lemma parent_join p q : q <> [] -> parent (join p (relative q)) = Some (join p (relative (removelast q))).
Proof.
  intros Hq. unfold parent, join. simpl. rewrite removelast_app by done.
  destruct (components p ++ q) eqn:E; [|done]. by apply app_eq_nil in E as [_ ->].
Qed.

Lemma join_join p q r : join (join p (relative q)) (relative r) = join p (relative (q ++ r)).
Proof. unfold join. simpl. by rewrite (assoc_L (++)). Qed.

(** What the code asks of the process: its directory, whether a file exists,
    the path [file!()] expands to and whether debug assertions are on. *)
Class Host := {
  current_dir : res string path;
  file_macro : path;
  debug_assertions : bool;
  exists_file : path -> bool
}.

Class KzgCrate := {
  Blob : Type;
  Bytes32 : Type;
  Bytes48 : Type;
  KzgCommitment : Type;
  KzgProof : Type;
  KzgSettings : Type;
  BYTES_PER_BLOB : N;
  Blob_from_bytes : bytes -> res string Blob;
  Bytes32_from_bytes : bytes -> res string Bytes32;
  Bytes32_as_slice : Bytes32 -> bytes;
  Bytes48_into_inner : Bytes48 -> bytes;
  KzgCommitment_from_bytes : bytes -> res string KzgCommitment;
  KzgCommitment_to_bytes : KzgCommitment -> Bytes48;
  KzgProof_from_bytes : bytes -> res string KzgProof;
  KzgProof_to_bytes : KzgProof -> Bytes48;
  load_trusted_setup_file : path -> res string KzgSettings;
  ckzg_blob_to_kzg_commitment : Blob -> KzgSettings -> res string KzgCommitment;
  ckzg_compute_kzg_proof : Blob -> Bytes32 -> KzgSettings -> res string (KzgProof * Bytes32);
  ckzg_compute_blob_kzg_proof : Blob -> Bytes48 -> KzgSettings -> res string KzgProof;
  ckzg_verify_kzg_proof :
    Bytes48 -> Bytes32 -> Bytes32 -> Bytes48 -> KzgSettings -> res string bool;
  ckzg_verify_blob_kzg_proof : Blob -> Bytes48 -> Bytes48 -> KzgSettings -> res string bool;
  ckzg_verify_blob_kzg_proof_batch :
    list Blob -> list Bytes48 -> list Bytes48 -> KzgSettings -> res string bool
}.

(** ** The NIF *)
Section nif.
Context `{Host, KzgCrate}.

Definition unwrap_none {E A} (o : option A) : res E A :=
  match o with
  | Some a => Ok a
  | None => Panic "called `Option::unwrap()` on a `None` value"
  end.

Definition get_trusted_setup {E} : res E KzgSettings :=
  let? cwd := expect current_dir "called `Result::unwrap()` on an `Err` value" in
  let lib_path := join cwd file_macro in
  let? src_path := unwrap_none (parent lib_path) in
  let? main_path := unwrap_none (parent src_path) in
  let trusted_setup_path :=
    join main_path (relative ["native"; "kzg_nif"; "official_trusted_setup.txt"]%string) in
  if debug_assertions && negb (exists_file trusted_setup_path)
  then Panic "Missing trusted setup file"
  else expect (load_trusted_setup_file trusted_setup_path)
         "called `Result::unwrap()` on an `Err` value".

Definition blob_to_kzg_commitment (blob : bytes) : res string bytes :=
  let? blob := map_err debug_error (Blob_from_bytes blob) in
  let? trusted_setup := get_trusted_setup in
  let? commitment := map_err debug_error (ckzg_blob_to_kzg_commitment blob trusted_setup) in
  bytes_to_binary (Bytes48_into_inner (KzgCommitment_to_bytes commitment)).

Definition compute_kzg_proof (blob z : bytes) : res string (bytes * bytes) :=
  let? blob := map_err debug_error (Blob_from_bytes blob) in
  let? z_bytes := map_err debug_error (Bytes32_from_bytes z) in
  let? trusted_setup := get_trusted_setup in
  let? proof := map_err debug_error (ckzg_compute_kzg_proof blob z_bytes trusted_setup) in
  let (kzg_proof, y) := proof in
  let? kzg_proof := bytes_to_binary (Bytes48_into_inner (KzgProof_to_bytes kzg_proof)) in
  let? y := bytes_to_binary (Bytes32_as_slice y) in
  Ok (kzg_proof, y).

Definition compute_blob_kzg_proof (blob kzg_commitment : bytes) : res string bytes :=
  let? blob := map_err debug_error (Blob_from_bytes blob) in
  let? commitment := map_err debug_error (KzgCommitment_from_bytes kzg_commitment) in
  let? trusted_setup := get_trusted_setup in
  let? kzg_proof := map_err debug_error
    (ckzg_compute_blob_kzg_proof blob (KzgCommitment_to_bytes commitment) trusted_setup) in
  bytes_to_binary (Bytes48_into_inner (KzgProof_to_bytes kzg_proof)).

Definition verify_kzg_proof (kzg_commitment z y kzg_proof : bytes) : res string bool :=
  let? commitment := map_err debug_error (KzgCommitment_from_bytes kzg_commitment) in
  let? z_bytes := map_err debug_error (Bytes32_from_bytes z) in
  let? y_bytes := map_err debug_error (Bytes32_from_bytes y) in
  let? proof := map_err debug_error (KzgProof_from_bytes kzg_proof) in
  let? trusted_setup := get_trusted_setup in
  map_err debug_error
    (ckzg_verify_kzg_proof (KzgCommitment_to_bytes commitment) z_bytes y_bytes
      (KzgProof_to_bytes proof) trusted_setup).

Definition verify_blob_kzg_proof (blob kzg_commitment kzg_proof : bytes) : res string bool :=
  let? blob := map_err debug_error (Blob_from_bytes blob) in
  let? commitment := map_err debug_error (KzgCommitment_from_bytes kzg_commitment) in
  let? proof := map_err debug_error (KzgProof_from_bytes kzg_proof) in
  let? trusted_setup := get_trusted_setup in
  map_err debug_error
    (ckzg_verify_blob_kzg_proof blob (KzgCommitment_to_bytes commitment)
      (KzgProof_to_bytes proof) trusted_setup).

Definition verify_blob_kzg_proof_batch (blobs kzg_commitments kzg_proofs : list bytes) :
    res string bool :=
  let? blobs := map_err debug_error (collect Blob_from_bytes blobs) in
  let? commitments := map_err debug_error (collect KzgCommitment_from_bytes kzg_commitments) in
  let commitments := map KzgCommitment_to_bytes commitments in
  let? proofs := map_err debug_error (collect KzgProof_from_bytes kzg_proofs) in
  let proofs := map KzgProof_to_bytes proofs in
  let? trusted_setup := get_trusted_setup in
  map_err debug_error (ckzg_verify_blob_kzg_proof_batch blobs commitments proofs trusted_setup).
End nif.

(** ** What the NIF relies on

    Decoding checks lengths and nothing else, and keeps the bytes; the
    computations report errors as values; and the scheme is complete: the
    proofs it computes for a commitment it computed verify, one by one and in
    batches. *)
Class KzgLaws `{KzgCrate} : Prop := {
  Blob_from_bytes_ok b : is_ok (Blob_from_bytes b) = (nlen b =? BYTES_PER_BLOB);
  Bytes32_from_bytes_ok b : is_ok (Bytes32_from_bytes b) = (nlen b =? 32);
  KzgCommitment_from_bytes_ok b : is_ok (KzgCommitment_from_bytes b) = (nlen b =? 48);
  KzgProof_from_bytes_ok b : is_ok (KzgProof_from_bytes b) = (nlen b =? 48);
  Blob_from_bytes_no_panic b : no_panic (Blob_from_bytes b);
  Bytes32_from_bytes_no_panic b : no_panic (Bytes32_from_bytes b);
  KzgCommitment_from_bytes_no_panic b : no_panic (KzgCommitment_from_bytes b);
  KzgProof_from_bytes_no_panic b : no_panic (KzgProof_from_bytes b);
  KzgCommitment_roundtrip c :
    KzgCommitment_from_bytes (Bytes48_into_inner (KzgCommitment_to_bytes c)) = Ok c;
  KzgProof_roundtrip p : KzgProof_from_bytes (Bytes48_into_inner (KzgProof_to_bytes p)) = Ok p;
  Bytes32_roundtrip x : Bytes32_from_bytes (Bytes32_as_slice x) = Ok x;
  ckzg_commitment_no_panic b s : no_panic (ckzg_blob_to_kzg_commitment b s);
  ckzg_compute_no_panic b z s : no_panic (ckzg_compute_kzg_proof b z s);
  ckzg_compute_blob_no_panic b c s : no_panic (ckzg_compute_blob_kzg_proof b c s);
  ckzg_verify_no_panic c z y p s : no_panic (ckzg_verify_kzg_proof c z y p s);
  ckzg_verify_blob_no_panic b c p s : no_panic (ckzg_verify_blob_kzg_proof b c p s);
  ckzg_verify_batch_no_panic b c p s : no_panic (ckzg_verify_blob_kzg_proof_batch b c p s);
  kzg_complete b z s c p y :
    ckzg_blob_to_kzg_commitment b s = Ok c -> ckzg_compute_kzg_proof b z s = Ok (p, y) ->
    ckzg_verify_kzg_proof (KzgCommitment_to_bytes c) z y (KzgProof_to_bytes p) s = Ok true;
  kzg_blob_complete b s c p :
    ckzg_blob_to_kzg_commitment b s = Ok c ->
    ckzg_compute_blob_kzg_proof b (KzgCommitment_to_bytes c) s = Ok p ->
    ckzg_verify_blob_kzg_proof b (KzgCommitment_to_bytes c) (KzgProof_to_bytes p) s = Ok true;
  kzg_batch_complete bs cs ps s :
    length bs = length cs -> length bs = length ps ->
    (forall i b c p, bs !! i = Some b -> cs !! i = Some c -> ps !! i = Some p ->
      ckzg_verify_blob_kzg_proof b c p s = Ok true) ->
    ckzg_verify_blob_kzg_proof_batch bs cs ps s = Ok true
}.

#[export] Hint Resolve Blob_from_bytes_no_panic Bytes32_from_bytes_no_panic
  KzgCommitment_from_bytes_no_panic KzgProof_from_bytes_no_panic ckzg_commitment_no_panic
  ckzg_compute_no_panic ckzg_compute_blob_no_panic ckzg_verify_no_panic
  ckzg_verify_blob_no_panic ckzg_verify_batch_no_panic : no_panic.

(** ** The trusted setup *)
Section setup.
Context `{Host, KzgCrate}.

(** C32: the file the trusted setup is loaded from: with [file!()] the path
    [pre/dir/file] relative to the working directory, it is
    [pre/native/kzg_nif/official_trusted_setup.txt] under that directory; so
    for [src/lib.rs], the project's own [native/kzg_nif].  The load panics
    when the file is missing in a debug build or is not a trusted setup. *)
Theorem get_trusted_setup_path E cwd pre dir file :
  current_dir = Ok cwd -> file_macro = relative (pre ++ [dir; file]) ->
  let trusted_setup_path := join cwd (relative
    (pre ++ ["native"; "kzg_nif"; "official_trusted_setup.txt"]%string)) in
  get_trusted_setup (E := E) =
    if debug_assertions && negb (exists_file trusted_setup_path)
    then Panic "Missing trusted setup file"
    else expect (load_trusted_setup_file trusted_setup_path)
           "called `Result::unwrap()` on an `Err` value".
Proof using Type.
  intros Hcwd Hfile. cbn zeta. unfold get_trusted_setup. rewrite Hcwd, Hfile. cbn [expect bind].
  rewrite parent_join by (by destruct pre). cbn [unwrap_none bind].
  rewrite removelast_app by done. cbn [removelast].
  rewrite parent_join by (by destruct pre). cbn [unwrap_none bind].
  rewrite removelast_last. by rewrite join_join.
Qed.

(** The setup loads, whatever the error type of the caller, or panics. *)
Lemma get_trusted_setup_cases :
  (exists s, forall E, get_trusted_setup (E := E) = Ok s) \/
  (exists msg, forall E, get_trusted_setup (E := E) = Panic msg).
Proof using Type.
  unfold get_trusted_setup. destruct current_dir; cbn [expect bind]; [|right; by eexists..].
  destruct (parent _) as [p|]; cbn [unwrap_none bind]; [|right; by eexists].
  destruct (parent p) as [p'|]; cbn [unwrap_none bind]; [|right; by eexists].
  destruct (debug_assertions && _); [right; by eexists|].
  destruct (load_trusted_setup_file _); [left; by eexists|right; by eexists..].
Qed.

Lemma setup_then {B} (k : KzgSettings -> res string B) :
  (forall s, no_panic (k s)) ->
  (exists msg, (let? s := get_trusted_setup in k s) = Panic msg) <->
    is_ok (get_trusted_setup (E := string)) = false.
Proof using Type.
  intros Hk. destruct get_trusted_setup_cases as [[s ->]|[msg ->]]; simpl; [|naive_solver].
  split; [|done]. by intros [msg ?%Hk].
Qed.
End setup.

(** A chain of decoders panics when all of them succeed and what follows does. *)
Lemma decode_then {A B} (m : res string A) (k : A -> res string B) (P : Prop) :
  no_panic m -> (forall a, (exists msg, k a = Panic msg) <-> P) ->
  (exists msg, (let? a := map_err debug_error m in k a) = Panic msg) <-> is_ok m = true /\ P.
Proof.
  intros Hm Hk. destruct m as [a|e|p]; simpl.
  - rewrite Hk. naive_solver.
  - split; [by intros []|by intros []].
  - by destruct (Hm p).
Qed.

Section properties.
Context `{Host, KzgLaws}.

Lemma blob_to_kzg_commitment_Ok blob c :
  blob_to_kzg_commitment blob = Ok c ->
  exists b s cm, Blob_from_bytes blob = Ok b /\ get_trusted_setup (E := string) = Ok s /\
    ckzg_blob_to_kzg_commitment b s = Ok cm /\ c = Bytes48_into_inner (KzgCommitment_to_bytes cm).
Proof using Type.
  unfold blob_to_kzg_commitment. intros (b & Hb%map_err_Ok & Hc)%bind_Ok.
  apply bind_Ok in Hc as (s & Hs & Hc). apply bind_Ok in Hc as (cm & Hcm%map_err_Ok & Hc).
  rewrite bytes_to_binary_Ok in Hc. injection Hc as <-. by exists b, s, cm.
Qed.

(** A proof for a computed commitment, taken apart. *)
Lemma compute_blob_kzg_proof_Ok blob c p :
  blob_to_kzg_commitment blob = Ok c -> compute_blob_kzg_proof blob c = Ok p ->
  exists b s cm pr, Blob_from_bytes blob = Ok b /\ get_trusted_setup (E := string) = Ok s /\
    KzgCommitment_from_bytes c = Ok cm /\ KzgProof_from_bytes p = Ok pr /\
    ckzg_verify_blob_kzg_proof b (KzgCommitment_to_bytes cm) (KzgProof_to_bytes pr) s = Ok true.
Proof using Type*.
  intros (b & s & cm & Hb & Hs & Hcm & ->)%blob_to_kzg_commitment_Ok.
  unfold compute_blob_kzg_proof. rewrite Hb, Hs, KzgCommitment_roundtrip. cbn [bind map_err].
  intros (pr & Hpr%map_err_Ok & Hp)%bind_Ok. rewrite bytes_to_binary_Ok in Hp.
  injection Hp as <-. exists b, s, cm, pr.
  split_and!; try done; [apply KzgProof_roundtrip|by apply kzg_blob_complete].
Qed.

(** C33: the scheme is complete through the NIF: a proof computed for a blob
    and its commitment verifies, both at a point and for the whole blob. *)
Theorem kzg_roundtrip blob c :
  blob_to_kzg_commitment blob = Ok c ->
  (forall p, compute_blob_kzg_proof blob c = Ok p -> verify_blob_kzg_proof blob c p = Ok true) /\
  (forall z p y, compute_kzg_proof blob z = Ok (p, y) -> verify_kzg_proof c z y p = Ok true).
Proof using Type*.
  intros Hc. split.
  - intros p (b & s & cm & pr & Hb & Hs & Hcm & Hpr & Hv)%compute_blob_kzg_proof_Ok; [|done].
    unfold verify_blob_kzg_proof. rewrite Hb, Hcm, Hpr, Hs. cbn [bind map_err]. by rewrite Hv.
  - destruct (blob_to_kzg_commitment_Ok _ _ Hc) as (b & s & cm & Hb & Hs & Hcm & ->).
    intros z p y Hp. unfold compute_kzg_proof in Hp. rewrite Hb, Hs in Hp. cbn [bind map_err] in Hp.
    apply bind_Ok in Hp as (zb & Hz%map_err_Ok & Hp).
    apply bind_Ok in Hp as ([pr yb] & Hpr%map_err_Ok & Hp).
    rewrite !bytes_to_binary_Ok in Hp. injection Hp as <- <-.
    unfold verify_kzg_proof.
    rewrite KzgCommitment_roundtrip, Hz, Bytes32_roundtrip, KzgProof_roundtrip, Hs.
    cbn [bind map_err]. by rewrite (kzg_complete b zb s cm pr yb).
Qed.


Lemma batch_Ok s blobs cps :
  get_trusted_setup (E := string) = Ok s ->
  Forall2 (fun b cp => blob_to_kzg_commitment b = Ok cp.1
    /\ compute_blob_kzg_proof b cp.1 = Ok cp.2) blobs cps ->
  exists bs cms prs, collect Blob_from_bytes blobs = Ok bs /\
    collect KzgCommitment_from_bytes (map fst cps) = Ok cms /\
    collect KzgProof_from_bytes (map snd cps) = Ok prs /\
    Forall3 (fun b c p => ckzg_verify_blob_kzg_proof b c p s = Ok true)
      bs (map KzgCommitment_to_bytes cms) (map KzgProof_to_bytes prs).
Proof using Type*.
  intros Hs. induction 1 as [|blob [c p] blobs cps [Hc Hp] _ (bs & cms & prs & IH)].
  { exists [], [], []. split_and!; [done..|constructor]. }
  destruct (compute_blob_kzg_proof_Ok _ _ _ Hc Hp) as (b & s' & cm & pr & Hb & Hs' & Hcm & Hpr & Hv).
  destruct IH as (Hbs & Hcms & Hprs & Hall). exists (b :: bs), (cm :: cms), (pr :: prs).
  simpl in *. rewrite Hb, Hbs, Hcm, Hcms, Hpr, Hprs. split_and!; [done..|].
  constructor; [|done]. congruence.
Qed.

(** C35: and for batches: commitments and proofs computed blob by blob verify
    together. *)
Theorem kzg_batch_roundtrip blobs cps :
  blobs <> [] ->
  collect (fun b => let? c := blob_to_kzg_commitment b in
                    let? p := compute_blob_kzg_proof b c in Ok (c, p)) blobs = Ok cps ->
  verify_blob_kzg_proof_batch blobs (map fst cps) (map snd cps) = Ok true.
Proof using Type*.
  intros Hne Hcps%collect_Ok.
  assert (Forall2 (fun b cp => blob_to_kzg_commitment b = Ok cp.1
    /\ compute_blob_kzg_proof b cp.1 = Ok cp.2) blobs cps) as Hall.
  { eapply Forall2_impl; [done|]. intros b [c p] (c' & Hc & Hp)%bind_Ok.
    apply bind_Ok in Hp as (p' & Hp & [= <- <-]). done. }
  assert (exists s, get_trusted_setup (E := string) = Ok s) as [s Hs].
  { destruct Hall as [|b cp blobs cps [Hc _] _]; [done|].
    apply blob_to_kzg_commitment_Ok in Hc. naive_solver. }
  destruct (batch_Ok s blobs cps Hs Hall) as (bs & cms & prs & Hb & Hc & Hp & H3).
  unfold verify_blob_kzg_proof_batch. rewrite Hb, Hc, Hp, Hs. cbn [bind map_err].
  rewrite kzg_batch_complete; [done|by eapply Forall3_length_lm|by eapply Forall3_length_lr|].
  intros. by eapply (Forall3_lookup_lmr (fun b c p => ckzg_verify_blob_kzg_proof b c p s = Ok true)).
Qed.
End properties.

(** ** A concrete scheme

    Fixed-size byte strings and integer arithmetic in place of the curve, with
    four-byte blobs: a model of the laws the NIF can be run over. *)
Definition sized (n : N) : Type := dsig (fun b : bytes => nlen b = n).
Definition raw {n} (x : sized n) : bytes := proj1_sig x.

Definition to_sized (n : N) (b : bytes) : res string (sized n) :=
  match decide (nlen b = n) with
  | left H => Ok (dexist b H)
  | right _ => Err "InvalidBytesLength"%string
  end.

Lemma to_sized_ok n b : is_ok (to_sized n b) = (nlen b =? n).
Proof. unfold to_sized. destruct (decide _), (N.eqb_spec (nlen b) n); done. Qed.

Lemma to_sized_no_panic n b : no_panic (to_sized n b).
Proof. unfold to_sized. by destruct (decide _). Qed.

Lemma to_sized_roundtrip n (x : sized n) : to_sized n (raw x) = Ok x.
Proof.
  unfold to_sized, raw. pose proof (proj2_dsig x). destruct (decide _); [|done].
  f_equal. by apply dsig_eq.
Qed.

Definition toy_num (n : nat) (z : Z) : sized (N.of_nat n) :=
  dexist (le_bytes n z) (nlen_le_bytes n z).
Definition toy_val {n} (x : sized n) : Z := le_val (raw x).
Definition toy_commit (b : sized 4) : sized 48 := toy_num 48 (toy_val b).
Definition toy_blob_proof (b : sized 4) (c : sized 48) : sized 48 :=
  toy_num 48 (2 * toy_val b + toy_val c).
Definition toy_check (b : sized 4) (c p : sized 48) : bool :=
  bool_decide (raw p = raw (toy_blob_proof b c)) && bool_decide (raw c = raw (toy_commit b)).

#[export] Instance toy_kzg : KzgCrate := {
  Blob := sized 4; Bytes32 := sized 32; Bytes48 := sized 48; KzgCommitment := sized 48;
  KzgProof := sized 48; KzgSettings := unit;
  BYTES_PER_BLOB := 4;
  Blob_from_bytes := to_sized 4;
  Bytes32_from_bytes := to_sized 32;
  Bytes32_as_slice x := raw x;
  Bytes48_into_inner x := raw x;
  KzgCommitment_from_bytes := to_sized 48;
  KzgCommitment_to_bytes x := x;
  KzgProof_from_bytes := to_sized 48;
  KzgProof_to_bytes x := x;
  load_trusted_setup_file _ := Ok tt;
  ckzg_blob_to_kzg_commitment b _ := Ok (toy_commit b);
  ckzg_compute_kzg_proof b z _ :=
    let c := toy_val (toy_commit b) in
    Ok (toy_num 48 (c + toy_val z), toy_num 32 (c * toy_val z));
  ckzg_compute_blob_kzg_proof b c _ := Ok (toy_blob_proof b c);
  ckzg_verify_kzg_proof c z y p _ :=
    Ok (bool_decide (raw p = raw (toy_num 48 (toy_val c + toy_val z)))
        && bool_decide (raw y = raw (toy_num 32 (toy_val c * toy_val z))));
  ckzg_verify_blob_kzg_proof b c p _ := Ok (toy_check b c p);
  ckzg_verify_blob_kzg_proof_batch bs cs ps _ :=
    if (nlen bs =? nlen cs) && (nlen bs =? nlen ps)
    then Ok (forallb (fun t => toy_check t.1 t.2.1 t.2.2) (zip bs (zip cs ps)))
    else Err "MismatchLength"%string
}.

#[export] Instance toy_kzg_laws : KzgLaws.
Proof.
  split; cbn -[le_bytes toy_num to_sized]; try apply to_sized_ok; try apply to_sized_no_panic;
    try apply to_sized_roundtrip; try done.
  - intros b c p s. by destruct (_ && _).
  - intros b z s c p y [= <-] [= <- <-]. by rewrite !bool_decide_eq_true_2.
  - intros b s c p [= <-] [= <-]. unfold toy_check. by rewrite !bool_decide_eq_true_2.
  - intros bs cs ps s Hc Hp Hall. unfold nlen. rewrite <- Hc, <- Hp, N.eqb_refl. simpl. f_equal.
    apply forallb_elem. intros [b [c p]] [i Hi]%list_elem_of_lookup.
    apply lookup_zip_with_Some in Hi as (? & ? & [= <- <-] & Hb & Hi).
    apply lookup_zip_with_Some in Hi as (? & ? & [= <- <-] & Hci & Hpi).
    by injection (Hall i b c p Hb Hci Hpi).
Qed.

Definition toy_dir : path := {| absolute := true; components := ["srv"; "node"] |}%string.

#[export] Instance toy_host : Host := {
  current_dir := Ok toy_dir;
  file_macro := relative ["src"; "lib.rs"]%string;
  debug_assertions := true;
  exists_file p := bool_decide (components p =
    ["srv"; "node"; "native"; "kzg_nif"; "official_trusted_setup.txt"]%string)
}.

(** The same process without the file. *)
Definition bare_host : Host := {|
  current_dir := @current_dir toy_host;
  file_macro := @file_macro toy_host;
  debug_assertions := true;
  exists_file _ := false
|}.

Lemma get_trusted_setup_path_witness :
  get_trusted_setup (E := string) = Ok tt.
Proof.
  etransitivity; [apply (get_trusted_setup_path string toy_dir [] "src" "lib.rs"); reflexivity|].
  by vm_compute.
Defined.

Definition toy_blob : bytes := [x01; x02; x03; x04].

Lemma kzg_roundtrip_witness :
  exists c p, blob_to_kzg_commitment toy_blob = Ok c /\ compute_blob_kzg_proof toy_blob c = Ok p
    /\ verify_blob_kzg_proof toy_blob c p = Ok true.
Proof.
  destruct (blob_to_kzg_commitment toy_blob) as [c| |] eqn:Hc; [|by vm_compute in Hc..].
  destruct (compute_blob_kzg_proof toy_blob c) as [p| |] eqn:Hp.
  - exists c, p. split_and!; [done..|]. by apply (kzg_roundtrip toy_blob c Hc).
  - vm_compute in Hc. injection Hc as <-. by vm_compute in Hp.
  - vm_compute in Hc. injection Hc as <-. by vm_compute in Hp.
Defined.


Lemma kzg_batch_roundtrip_witness :
  exists cps, length cps = 2%nat /\
    verify_blob_kzg_proof_batch [toy_blob; toy_blob] (map fst cps) (map snd cps) = Ok true.
Proof.
  destruct (collect (fun b => let? c := blob_to_kzg_commitment b in
    let? p := compute_blob_kzg_proof b c in Ok (c, p)) [toy_blob; toy_blob]) as [cps| |] eqn:Hc;
    [|by vm_compute in Hc..].
  exists cps. split; [by apply length_collect in Hc|].
  by apply (kzg_batch_roundtrip [toy_blob; toy_blob] cps).
Defined.
