(* ===== verification/Snappy.v ===== *)
(** * The Snappy NIF: [native/snappy_nif/src/lib.rs]

    [compress] and [decompress] over the frame format of the [snap] crate,
    whose readers are parameters with the law that they are inverse. *)
From Stdlib Require Import Init.Byte.
From S2P Require Import Prelude Rust.

(** Readers over a byte slice; [read_to_end] appends to the buffer it is given
    or fails, with an error represented by its [Display] rendering. *)
Class SnapCrate := {
  FrameEncoder : Type;
  FrameDecoder : Type;
  FrameEncoder_new : bytes -> FrameEncoder;
  FrameDecoder_new : bytes -> FrameDecoder;
  encoder_read_to_end : FrameEncoder -> bytes -> res string bytes;
  decoder_read_to_end : FrameDecoder -> bytes -> res string bytes
}.

Section nif.
Context `{SnapCrate}.

(** [e.to_string()] *)
Definition display_error (e : string) : string := e.

Definition compress (bin : bytes) : res string bytes :=
  let encoder := FrameEncoder_new bin in
  let buffer := [] in
  let? buffer := map_err display_error (encoder_read_to_end encoder buffer) in
  bytes_to_binary buffer.

Definition decompress (bin : bytes) : res string bytes :=
  let decoder := FrameDecoder_new bin in
  let buffer := [] in
  let? buffer := map_err display_error (decoder_read_to_end decoder buffer) in
  bytes_to_binary buffer.
End nif.

Class SnapLaws `{SnapCrate} : Prop := {
  (** reading from memory, the encoder has nothing to fail on *)
  encoder_reads b : exists z, forall buffer,
    encoder_read_to_end (FrameEncoder_new b) buffer = Ok (buffer ++ z)
    /\ forall buffer', decoder_read_to_end (FrameDecoder_new z) buffer' = Ok (buffer' ++ b);
  decoder_no_panic b buffer : no_panic (decoder_read_to_end (FrameDecoder_new b) buffer)
}.

Section properties.
Context `{SnapLaws}.

End properties.

(** ** A concrete format: a marker byte before the data *)
#[export] Instance toy_snap : SnapCrate := {
  FrameEncoder := bytes;
  FrameDecoder := bytes;
  FrameEncoder_new b := b;
  FrameDecoder_new b := b;
  encoder_read_to_end b buffer := Ok (buffer ++ xff :: b);
  decoder_read_to_end b buffer :=
    match b with
    | xff :: b => Ok (buffer ++ b)
    | _ => Err "snappy: corrupt input"%string
    end
}.

#[export] Instance toy_snap_laws : SnapLaws.
Proof.
  split; simpl.
  - intros b. by exists (xff :: b).
  - intros [|[] b]; done.
Qed.

